(** * SGL manager: freight quotes and fleet bookings

    A shallow embedding of [backend/app/main.py]: the interval check
    [check_availability], the booking endpoint [book_trip], the quote
    endpoint [calculate_quote], the catalog endpoints of vehicles and
    drivers and the listing [list_trips], with the Python values they
    compute on (binary64 floats, unbounded integers, datetimes,
    dictionaries, lists and exceptions), followed by the properties of
    the specification and by further properties of the code. *)

From Stdlib Require Import ZArith QArith Qround Qpower Floats Lia.
From stdpp Require Import base option list strings gmap.

Set Warnings "-inexact-float".
Local Open Scope Z_scope.

(** ** Exceptions and results *)

(** The exceptions that the modelled code can raise.  [HTTPException] is
    FastAPI's, with its status code and detail; [GeocoderError] stands for
    the exceptions of the geocoding client, with their text; the others are
    Python's built-in exceptions, which the framework turns into a bare 500
    (their messages are not modelled). *)
Inductive exc : Type :=
  | HTTPException (status_code : Z) (detail : string)
  | GeocoderError (text : string)
  | ZeroDivisionError
  | ValueError
  | OverflowError
  | TypeError.

Inductive result (A : Type) : Type :=
  | Ok (a : A)
  | Raise (e : exc).
Arguments Ok {A} a.
Arguments Raise {A} e.

#[global] Instance result_ret : MRet result := fun A a => Ok a.
#[global] Instance result_bind : MBind result := fun A B k r =>
  match r with
  | Ok a => k a
  | Raise e => Raise e
  end.

Definition is_raise {A : Type} (r : result A) : bool :=
  match r with
  | Ok _ => false
  | Raise _ => true
  end.

(** ** Python floats and integers *)

Module PyNum.

(** The exact rational value of a finite binary64 float. *)
Definition sf_value (s : bool) (m : positive) (e : Z) : Q :=
  (inject_Z (cond_Zopp s (Z.pos m)) * Qpower (2 # 1) e)%Q.

Definition float_value (x : float) : option Q :=
  match Prim2SF x with
  | S754_zero _ => Some 0%Q
  | S754_finite s m e => Some (sf_value s m e)
  | S754_infinity _ | S754_nan => None
  end.

(** [float(n)] for a Python integer: the nearest binary64 value, ties to
    even; an integer beyond the range raises [OverflowError]. *)
Definition float_of_int (n : Z) : result float :=
  match binary_normalize prec emax n 0 false with
  | S754_infinity _ => Raise OverflowError
  | sf => Ok (SF2Prim sf)
  end.

(** [x / y] on floats: Python raises where IEEE 754 returns an infinity
    or a NaN for a zero divisor. *)
Definition truediv (x y : float) : result float :=
  if PrimFloat.eqb y 0%float then Raise ZeroDivisionError
  else Ok (x / y)%float.

(** Arithmetic between a float and an integer converts the integer. *)
Definition truediv_int (x : float) (n : Z) : result float :=
  y ← float_of_int n; truediv x y.

Definition mul_int (x : float) (n : Z) : result float :=
  y ← float_of_int n; Ok (x * y)%float.

Definition sub_int (x : float) (n : Z) : result float :=
  y ← float_of_int n; Ok (x - y)%float.

Definition int_sub (n : Z) (x : float) : result float :=
  y ← float_of_int n; Ok (y - x)%float.

(** [x > n] between a float and an integer compares the exact values
    (no conversion of [n]); a NaN compares false. *)
Definition compare_int (x : float) (n : Z) : option comparison :=
  match Prim2SF x with
  | S754_nan => None
  | S754_infinity s => Some (if s then Lt else Gt)
  | S754_zero _ => Some (0 ?= n)
  | S754_finite s m e => Some (sf_value s m e ?= inject_Z n)%Q
  end.

Definition gt_int (x : float) (n : Z) : bool :=
  match compare_int x n with
  | Some Gt => true
  | _ => false
  end.

Definition le_int (x : float) (n : Z) : bool :=
  match compare_int x n with
  | Some Lt | Some Eq => true
  | _ => false
  end.

(** [math.ceil]: the least integer not below the exact value. *)
Definition ceil (x : float) : result Z :=
  match Prim2SF x with
  | S754_nan => Raise ValueError
  | S754_infinity _ => Raise OverflowError
  | S754_zero _ => Ok 0
  | S754_finite s m e => Ok (Qceiling (sf_value s m e))
  end.

(** Truth value of a float: false exactly for the two zeros. *)
Definition truthy (x : float) : bool := negb (PrimFloat.eqb x 0%float).

(** Nearest integer to a non-negative rational, ties to even. *)
Definition round_half_even (q : Q) : Z :=
  let f := Qfloor q in
  match (q - inject_Z f ?= 1 # 2)%Q with
  | Lt => f
  | Gt => f + 1
  | Eq => if Z.even f then f else f + 1
  end.

(** [round(x, ndigits)] for [0 <= ndigits]: the decimal with [ndigits]
    places nearest to the exact value of [x] (ties to even), converted
    back to the nearest float.  Zeros, infinities and NaN are returned
    as they are; a float of magnitude [2 ^ 52] or more is an integer and
    rounds to itself, so that the result never overflows. *)
Definition round (x : float) (ndigits : Z) : float :=
  match Prim2SF x with
  | S754_finite s m e =>
      let scale := 10 ^ ndigits in
      let n := round_half_even (sf_value false m e * inject_Z scale) in
      if n =? 0 then SF2Prim (S754_zero s)
      else
        let '(q, e', l) := SFdiv_core_binary prec emax n 0 scale 0 in
        SF2Prim (binary_round_aux prec emax s q e' l)
  | _ => x
  end.

End PyNum.

(** ** Python datetimes *)

Module PyDatetime.

(** A [datetime]: the local wall-clock time in microseconds since
    0001-01-01T00:00:00, and the UTC offset in microseconds of a
    timezone-aware value ([None] for a naive one). *)
Record datetime : Type := mk_datetime {
  local_us : Z;
  utcoffset : option Z
}.

Definition us_per_day : Z := 86400000000.

(** [datetime.max] is the last microsecond of year 9999, day 3652059. *)
Definition max_us : Z := 3652059 * us_per_day.

Definition in_range (l : Z) : bool := (0 <=? l) && (l <? max_us).

(** The instant compared by [<] and [>]: the local time of a naive
    value, the UTC time of an aware one. *)
Definition instant (d : datetime) : Z :=
  match utcoffset d with
  | None => local_us d
  | Some off => local_us d - off
  end.

Definition comparable (a b : datetime) : bool :=
  match utcoffset a, utcoffset b with
  | None, None => true
  | Some _, Some _ => true
  | _, _ => false
  end.

(** [a < b]; ordering a naive against an aware datetime is a [TypeError]. *)
Definition dt_lt (a b : datetime) : result bool :=
  if comparable a b then Ok (instant a <? instant b) else Raise TypeError.

(** [a > b] *)
Definition dt_gt (a b : datetime) : result bool :=
  if comparable a b then Ok (instant b <? instant a) else Raise TypeError.

(** [d + timedelta(days=n)]: [timedelta] refuses more than 999999999
    days, and the sum must stay within [datetime.min, datetime.max]. *)
Definition add_days (d : datetime) (n : Z) : result datetime :=
  if 999999999 <? Z.abs n then Raise OverflowError
  else
    let l := local_us d + n * us_per_day in
    if in_range l then Ok (mk_datetime l (utcoffset d))
    else Raise OverflowError.

(** Month and day of the proleptic Gregorian calendar, from the number
    of days since 0001-01-01. *)
Definition month_day (days : Z) : Z * Z :=
  let z := days + 306 in
  let doe := z mod 146097 in
  let yoe := (doe - doe / 1460 + doe / 36524 - doe / 146096) / 365 in
  let doy := doe - (365 * yoe + yoe / 4 - yoe / 100) in
  let mp := (5 * doy + 2) / 153 in
  let d := doy - (153 * mp + 2) / 5 + 1 in
  let m := if mp <? 10 then mp + 3 else mp - 9 in
  (m, d).

(** Days since 0001-01-01 of a calendar date. *)
Definition days_of_date (y m d : Z) : Z :=
  let y' := if m <=? 2 then y - 1 else y in
  let era := y' / 400 in
  let yoe := y' mod 400 in
  let mp := if 2 <? m then m - 3 else m + 9 in
  let doy := (153 * mp + 2) / 5 + d - 1 in
  era * 146097 + (yoe * 365 + yoe / 4 - yoe / 100 + doy) - 306.

(** [datetime(y, m, d, hh, mm)], naive. *)
Definition of_date (y m d hh mm : Z) : datetime :=
  mk_datetime (days_of_date y m d * us_per_day + (hh * 60 + mm) * 60000000) None.

(** [d.replace(tzinfo=timezone(timedelta(minutes=minutes)))] *)
Definition with_utcoffset (d : datetime) (minutes : Z) : datetime :=
  mk_datetime (local_us d) (Some (minutes * 60000000)).

Definition digit (n : Z) : string :=
  String (Ascii.ascii_of_N (48 + Z.to_N n)) EmptyString.

Definition two_digits (n : Z) : string :=
  digit (n / 10 mod 10) +:+ digit (n mod 10).

(** [d.strftime('%d/%m %H:%M')] *)
Definition strftime (d : datetime) : string :=
  let '(m, dd) := month_day (local_us d / us_per_day) in
  let secs := local_us d mod us_per_day / 1000000 in
  two_digits dd +:+ "/" +:+ two_digits m +:+ " "
    +:+ two_digits (secs / 3600) +:+ ":" +:+ two_digits (secs / 60 mod 60).

End PyDatetime.

(** [s.capitalize()] on ASCII text: first letter upper case, the rest
    lower case.  On a text with other characters Python applies the case
    mappings of Unicode, which are not modelled: the result below is that
    of Python for ASCII texts only, such as the "veiculo" and "motorista"
    that the endpoints pass. *)
Definition ascii_upper (c : Ascii.ascii) : Ascii.ascii :=
  let n := Ascii.N_of_ascii c in
  if ((97 <=? n) && (n <=? 122))%N then Ascii.ascii_of_N (n - 32) else c.

Definition ascii_lower (c : Ascii.ascii) : Ascii.ascii :=
  let n := Ascii.N_of_ascii c in
  if ((65 <=? n) && (n <=? 90))%N then Ascii.ascii_of_N (n + 32) else c.

Fixpoint str_lower (s : string) : string :=
  match s with
  | EmptyString => EmptyString
  | String c r => String (ascii_lower c) (str_lower r)
  end.

Definition capitalize (s : string) : string :=
  match s with
  | EmptyString => EmptyString
  | String c r => String (ascii_upper c) (str_lower r)
  end.

Import PyDatetime.

(** ** Data model *)

(** Settings, read from the environment when the service starts. *)
Module Settings.
Record t : Type := mk {
  PRECO_COMBUSTIVEL : float;
  SALARIO_MOTORISTA : float;
  VALOR_DIARIA_PADRAO : float;
  DIAS_UTEIS : Z;
  MARGEM_LUCRO : float
}.

Definition default : t :=
  {| PRECO_COMBUSTIVEL := 6.89;
     SALARIO_MOTORISTA := 2500.00;
     VALOR_DIARIA_PADRAO := 150.00;
     DIAS_UTEIS := 22;
     MARGEM_LUCRO := 0.30 |}.
End Settings.

(** An entry of [db_trucks]. *)
Module Truck.
Record t : Type := mk {
  id : string;
  nome : string;
  consumo : float;
  tanque : Z;
  placa : string;
  status : string
}.

Definition set_status (st : string) (v : t) : t :=
  {| id := id v; nome := nome v; consumo := consumo v; tanque := tanque v;
     placa := placa v; status := st |}.
End Truck.

(** An entry of [db_drivers]. *)
Module Driver.
Record t : Type := mk {
  id : string;
  nome : string;
  cnh : string;
  foto_url : string;
  status : string
}.

Definition set_status (st : string) (d : t) : t :=
  {| id := id d; nome := nome d; cnh := cnh d; foto_url := foto_url d;
     status := st |}.
End Driver.

(** The request body of a booking. *)
Module TripCreate.
Record t : Type := mk {
  origem : string;
  destino : string;
  distancia_km : float;
  preco_final : float;
  lucro : float;
  custo_motorista : float;
  veiculo_id : string;
  motorista_id : string;
  data_inicio : datetime;
  paradas_previstas : Z
}.
End TripCreate.

(** An entry of [db_trips]: the request's fields and those that [book_trip]
    adds.  The two dates are stored in ISO format and parsed back by
    [check_availability]; the record holds the value they denote. *)
Module Trip.
Record t : Type := mk {
  origem : string;
  destino : string;
  distancia_km : float;
  preco_final : float;
  lucro : float;
  custo_motorista : float;
  veiculo_id : string;
  motorista_id : string;
  data_inicio : datetime;
  paradas_previstas : Z;
  id : string;
  status : string;
  data_fim : datetime;
  dias_duracao : Z
}.
End Trip.

(** The in-memory database: the three module-level collections. *)
Record db : Type := mk_db {
  db_trucks : gmap string Truck.t;
  db_drivers : gmap string Driver.t;
  db_trips : list Trip.t
}.

Definition initial_trucks : gmap string Truck.t :=
  <["vuc-01" := Truck.mk "vuc-01" "VUC (Veículo Urbano)" 6.0 150 "ABC-1234" "Disponível"]>
  (<["carreta-01" := Truck.mk "carreta-01" "Carreta LS" 2.5 600 "GHI-9012" "Disponível"]> ∅).

Definition initial_drivers : gmap string Driver.t :=
  <["mot-01" := Driver.mk "mot-01" "Carlos Silva" "1234567890"
      "https://ui-avatars.com/api/?name=Carlos+Silva&background=0D8ABC&color=fff" "Disponível"]>
  (<["mot-02" := Driver.mk "mot-02" "Ana Pereira" "0987654321"
      "https://ui-avatars.com/api/?name=Ana+Pereira&background=random" "Disponível"]> ∅).

Definition initial_db : db := mk_db initial_trucks initial_drivers [].

(** ** Conflict logic *)

(** The resource of a trip that [resource_type] selects. *)
Definition trip_resource_id (resource_type : string) (trip : Trip.t) : string :=
  if String.eqb resource_type "veiculo" then Trip.veiculo_id trip
  else Trip.motorista_id trip.

(** [start < t_end and end > t_start], with Python's short-circuit. *)
Definition window_overlaps (start end_ : datetime) (trip : Trip.t) : result bool :=
  b ← dt_lt start (Trip.data_fim trip);
  if b : bool then dt_gt end_ (Trip.data_inicio trip) else Ok false.

Definition conflict_message (resource_type : string) (trip : Trip.t) : string :=
  capitalize resource_type +:+ " já reservado de " +:+ strftime (Trip.data_inicio trip)
    +:+ " até " +:+ strftime (Trip.data_fim trip).

(** The loop of [check_availability] over [db_trips]. *)
Fixpoint check_availability (trips : list Trip.t) (resource_id : string)
    (start end_ : datetime) (resource_type : string) : result (bool * string) :=
  match trips with
  | [] => Ok (true, "Disponível")
  | trip :: rest =>
      if String.eqb (trip_resource_id resource_type trip) resource_id then
        b ← window_overlaps start end_ trip;
        if b : bool then Ok (false, conflict_message resource_type trip)
        else check_availability rest resource_id start end_ resource_type
      else check_availability rest resource_id start end_ resource_type
  end.

(** ** Endpoints on the database *)

(** A handler runs on the database and leaves it as it was when an
    exception interrupts it. *)
Definition handler (A : Type) : Type := db -> result A * db.

#[global] Instance handler_ret : MRet handler := fun A a s => (Ok a, s).
#[global] Instance handler_bind : MBind handler := fun A B k m s =>
  match m s with
  | (Ok a, s') => k a s'
  | (Raise e, s') => (Raise e, s')
  end.

Definition raise {A : Type} (e : exc) : handler A := fun s => (Raise e, s).
Definition lift {A : Type} (r : result A) : handler A := fun s => (r, s).
Definition read {A : Type} (f : db -> A) : handler A := fun s => (Ok (f s), s).
Definition modify (f : db -> db) : handler unit := fun s => (Ok tt, f s).

Definition append_trip (trip : Trip.t) (s : db) : db :=
  mk_db (db_trucks s) (db_drivers s) (db_trips s ++ [trip]).

(** [if k in db_trucks: db_trucks[k]["status"] = st] *)
Definition book_truck (k st : string) (s : db) : db :=
  match db_trucks s !! k with
  | Some v => mk_db (<[k := Truck.set_status st v]> (db_trucks s)) (db_drivers s) (db_trips s)
  | None => s
  end.

(** [if k in db_drivers: db_drivers[k]["status"] = st] *)
Definition book_driver (k st : string) (s : db) : db :=
  match db_drivers s !! k with
  | Some d => mk_db (db_trucks s) (<[k := Driver.set_status st d]> (db_drivers s)) (db_trips s)
  | None => s
  end.

(** The duration of a booking, in days, and its end. *)
Definition booking_days (distancia_km : float) : result Z :=
  horas_totais ← PyNum.truediv_int distancia_km 70;
  per_day ← PyNum.truediv_int horas_totais 8;
  dias_necessarios ← PyNum.ceil per_day;
  Ok (if dias_necessarios <? 1 then 1 else dias_necessarios).

Module BookResponse.
Record t : Type := mk {
  msg : string;
  id : string;
  termino_estimado : datetime
}.
End BookResponse.

Definition trip_data (trip : TripCreate.t) (new_id : string)
    (data_fim : datetime) (dias_necessarios : Z) : Trip.t :=
  {| Trip.origem := TripCreate.origem trip;
     Trip.destino := TripCreate.destino trip;
     Trip.distancia_km := TripCreate.distancia_km trip;
     Trip.preco_final := TripCreate.preco_final trip;
     Trip.lucro := TripCreate.lucro trip;
     Trip.custo_motorista := TripCreate.custo_motorista trip;
     Trip.veiculo_id := TripCreate.veiculo_id trip;
     Trip.motorista_id := TripCreate.motorista_id trip;
     Trip.data_inicio := TripCreate.data_inicio trip;
     Trip.paradas_previstas := TripCreate.paradas_previstas trip;
     Trip.id := new_id;
     Trip.status := "Agendada";
     Trip.data_fim := data_fim;
     Trip.dias_duracao := dias_necessarios |}.

(** [POST /api/v1/trips/book].  [new_id] is the identifier that
    [str(uuid.uuid4())[:8]] draws. *)
Definition book_trip (trip : TripCreate.t) (new_id : string) : handler BookResponse.t :=
  dias_necessarios ← lift (booking_days (TripCreate.distancia_km trip));
  data_fim ← lift (add_days (TripCreate.data_inicio trip) dias_necessarios);
  trips ← read db_trips;
  '(truck_ok, truck_msg) ← lift (check_availability trips (TripCreate.veiculo_id trip)
                                   (TripCreate.data_inicio trip) data_fim "veiculo");
  if negb truck_ok then raise (HTTPException 409 ("Conflito: " +:+ truck_msg))
  else
    trips ← read db_trips;
    '(driver_ok, driver_msg) ← lift (check_availability trips (TripCreate.motorista_id trip)
                                       (TripCreate.data_inicio trip) data_fim "motorista");
    if negb driver_ok then raise (HTTPException 409 ("Conflito: " +:+ driver_msg))
    else
      _ ← modify (append_trip (trip_data trip new_id data_fim dias_necessarios));
      _ ← modify (book_truck (TripCreate.veiculo_id trip) "Agendado");
      _ ← modify (book_driver (TripCreate.motorista_id trip) "Agendado");
      mret (BookResponse.mk "Viagem reservada!" new_id data_fim).

(** ** Quotes *)

Definition coords : Type := float * float.

Module RouteRequest.
Record t : Type := mk {
  origem : string;
  destino : string;
  veiculo_id : string;
  ida_e_volta : bool;
  preco_diesel_personalizado : option float;
  valor_diaria_personalizado : option float
}.
End RouteRequest.

(** The fields that the model declares; the [custo_fixo_diario] argument
    that [calculate_quote] also passes is not one of them and is dropped. *)
Module FinancialBreakdown.
Record t : Type := mk {
  custo_combustivel : float;
  litros_combustivel : float;
  paradas_abastecimento : Z;
  custo_motorista_salario : float;
  custo_motorista_diarias : float;
  custo_motorista_total : float;
  custo_operacional_total : float;
  lucro_estimado : float
}.
End FinancialBreakdown.

Module RouteResponse.
Record t : Type := mk {
  distancia_km : float;
  tempo_estimado_horas : float;
  dias_viagem_estimados : Z;
  preco_final_frete : float;
  detalhes_financeiros : FinancialBreakdown.t;
  route_geometry : option (list (list float));
  coords_origem : coords;
  coords_destino : coords;
  veiculo_info : Truck.t
}.
End RouteResponse.

(** What [RoutingService.get_road_route] returns when the router answers. *)
Module RouteData.
Record t : Type := mk {
  dist_km : float;
  duration_h : float;
  geometry : list (list float)
}.
End RouteData.

(** [x or default] on an optional float: [None] and the zeros are falsy. *)
Definition or_default (x : option float) (default : float) : float :=
  match x with
  | Some v => if PyNum.truthy v then v else default
  | None => default
  end.

(** [x if x is not None else default] *)
Definition if_not_none (x : option float) (default : float) : float :=
  match x with
  | Some v => v
  | None => default
  end.

(** [math.ceil((litros_total - tanque) / tanque) if litros_total > tanque else 0] *)
Definition refuel_stops (litros_total : float) (tanque : Z) : result Z :=
  if PyNum.gt_int litros_total tanque then
    over ← PyNum.sub_int litros_total tanque;
    tanks ← PyNum.truediv_int over tanque;
    PyNum.ceil tanks
  else Ok 0.

(** [max(1, math.ceil(tempo_horas / 8))] *)
Definition trip_days (tempo_horas : float) : result Z :=
  per_day ← PyNum.truediv_int tempo_horas 8;
  n ← PyNum.ceil per_day;
  Ok (Z.max 1 n).

(** The local variables of [calculate_quote] once its costs are
    computed (lines 311 to 332): distance and duration after the round-trip
    doubling, days, fuel, stops and the costs, at full precision. *)
Module Costs.
Record t : Type := mk {
  distancia_km : float;
  tempo_horas : float;
  dias_viagem : Z;
  litros_total : float;
  paradas : Z;
  custo_combustivel : float;
  custo_salario_proporcional : float;
  custo_diarias : float;
  custo_motorista_total : float;
  custo_total : float
}.
End Costs.

(** The first half of the pricing: from the round-trip doubling to the
    total cost. *)
Definition quote_costs (settings : Settings.t) (payload : RouteRequest.t)
    (vehicle_data : Truck.t) (distancia_km tempo_horas : float) : result Costs.t :=
  '(distancia_km, tempo_horas) ←
    (if RouteRequest.ida_e_volta payload then
       d ← PyNum.mul_int distancia_km 2;
       h ← PyNum.mul_int tempo_horas 2;
       Ok (d, h)
     else Ok (distancia_km, tempo_horas));
  dias_viagem ← trip_days tempo_horas;
  litros_total ← PyNum.truediv distancia_km (Truck.consumo vehicle_data);
  let tanque := Truck.tanque vehicle_data in
  paradas ← refuel_stops litros_total tanque;
  let preco_diesel :=
    or_default (RouteRequest.preco_diesel_personalizado payload)
               (Settings.PRECO_COMBUSTIVEL settings) in
  let valor_diaria :=
    if_not_none (RouteRequest.valor_diaria_personalizado payload)
                (Settings.VALOR_DIARIA_PADRAO settings) in
  let custo_combustivel := (litros_total * preco_diesel)%float in
  salario_dia ← PyNum.truediv_int (Settings.SALARIO_MOTORISTA settings)
                                   (Settings.DIAS_UTEIS settings);
  custo_salario_proporcional ← PyNum.mul_int salario_dia dias_viagem;
  custo_diarias ← PyNum.mul_int valor_diaria dias_viagem;
  let custo_motorista_total := (custo_salario_proporcional + custo_diarias)%float in
  let custo_total := (custo_combustivel + custo_motorista_total)%float in
  Ok {| Costs.distancia_km := distancia_km;
        Costs.tempo_horas := tempo_horas;
        Costs.dias_viagem := dias_viagem;
        Costs.litros_total := litros_total;
        Costs.paradas := paradas;
        Costs.custo_combustivel := custo_combustivel;
        Costs.custo_salario_proporcional := custo_salario_proporcional;
        Costs.custo_diarias := custo_diarias;
        Costs.custo_motorista_total := custo_motorista_total;
        Costs.custo_total := custo_total |}.

(** The response built from the costs, the sale price and the profit,
    rounded at the boundary. *)
Definition quote_response (c : Costs.t) (preco_venda lucro : float)
    (vehicle_data : Truck.t) (geometry : option (list (list float)))
    (c_origem c_destino : coords) : RouteResponse.t :=
  {| RouteResponse.distancia_km := PyNum.round (Costs.distancia_km c) 2;
     RouteResponse.tempo_estimado_horas := PyNum.round (Costs.tempo_horas c) 1;
     RouteResponse.dias_viagem_estimados := Costs.dias_viagem c;
     RouteResponse.preco_final_frete := PyNum.round preco_venda 2;
     RouteResponse.route_geometry := geometry;
     RouteResponse.coords_origem := c_origem;
     RouteResponse.coords_destino := c_destino;
     RouteResponse.veiculo_info := vehicle_data;
     RouteResponse.detalhes_financeiros :=
       {| FinancialBreakdown.custo_combustivel := PyNum.round (Costs.custo_combustivel c) 2;
          FinancialBreakdown.litros_combustivel := PyNum.round (Costs.litros_total c) 2;
          FinancialBreakdown.paradas_abastecimento := Costs.paradas c;
          FinancialBreakdown.custo_motorista_salario :=
            PyNum.round (Costs.custo_salario_proporcional c) 2;
          FinancialBreakdown.custo_motorista_diarias := PyNum.round (Costs.custo_diarias c) 2;
          FinancialBreakdown.custo_motorista_total :=
            PyNum.round (Costs.custo_motorista_total c) 2;
          FinancialBreakdown.custo_operacional_total := PyNum.round (Costs.custo_total c) 2;
          FinancialBreakdown.lucro_estimado := PyNum.round lucro 2 |} |}.

(** The pricing of [calculate_quote], from the round-trip doubling on:
    what the endpoint computes once the route's distance, duration and
    geometry are known. *)
Definition compute_quote (settings : Settings.t) (payload : RouteRequest.t)
    (vehicle_data : Truck.t) (distancia_km tempo_horas : float)
    (geometry : option (list (list float))) (c_origem c_destino : coords)
    : result RouteResponse.t :=
  c ← quote_costs settings payload vehicle_data distancia_km tempo_horas;
  divisor ← PyNum.int_sub 1 (Settings.MARGEM_LUCRO settings);
  preco_venda ← PyNum.truediv (Costs.custo_total c) divisor;
  let lucro := (preco_venda - Costs.custo_total c)%float in
  Ok (quote_response c preco_venda lucro vehicle_data geometry c_origem c_destino).

Section Quote.

(** The external services: the geocoder ([None] when the place is
    unknown), the road router ([None] when it is unavailable), the
    great-circle distance in kilometres, and [str(e)] on an exception,
    whose text is the exception class's own. *)
Variable geocode : string -> result (option coords).
Variable get_road_route : coords -> coords -> option RouteData.t.
Variable great_circle_km : coords -> coords -> float.
Variable exc_str : exc -> string.

(** [GeoService.get_coords] *)
Definition get_coords (city : string) : result coords :=
  location ← geocode city;
  match location with
  | None => Raise (HTTPException 404 ("Localização não encontrada: " +:+ city))
  | Some c => Ok c
  end.

(** [try: ... except Exception as e: raise HTTPException(500, str(e))] *)
Definition reraise_500 {A : Type} (r : result A) : result A :=
  match r with
  | Ok a => Ok a
  | Raise e => Raise (HTTPException 500 (exc_str e))
  end.

(** [POST /api/v1/quote] *)
Definition calculate_quote (settings : Settings.t) (payload : RouteRequest.t)
    (s : db) : result RouteResponse.t :=
  match db_trucks s !! RouteRequest.veiculo_id payload with
  | None => Raise (HTTPException 400 "Veículo não encontrado.")
  | Some vehicle_data =>
      '(c_origem, c_destino) ←
        reraise_500 (c_origem ← get_coords (RouteRequest.origem payload);
                     c_destino ← get_coords (RouteRequest.destino payload);
                     Ok (c_origem, c_destino));
      '(distancia_km, tempo_horas, geometry) ←
        match get_road_route c_origem c_destino with
        | Some route_data =>
            Ok (RouteData.dist_km route_data, RouteData.duration_h route_data,
                Some (RouteData.geometry route_data))
        | None =>
            let distancia_km := (great_circle_km c_origem c_destino * 1.2)%float in
            tempo_horas ← PyNum.truediv_int distancia_km 70;
            Ok (distancia_km, tempo_horas, None)
        end;
      compute_quote settings payload vehicle_data distancia_km tempo_horas
                    geometry c_origem c_destino
  end.

End Quote.

(** ** Catalog endpoints *)

(** The request bodies of the catalog endpoints, as validated models. *)
Module TruckCreate.
Record t : Type := mk {
  nome : string;
  consumo : float;
  tanque : Z;
  placa : string
}.
End TruckCreate.

Module DriverCreate.
Record t : Type := mk {
  nome : string;
  cnh : string;
  foto_url : option string
}.
End DriverCreate.

(** [POST /api/v1/trucks].  [new_id] is the identifier that
    [str(uuid.uuid4())[:8]] draws; an entry already stored under it is
    overwritten. *)
Definition create_truck (truck : TruckCreate.t) (new_id : string) : handler Truck.t :=
  let new_truck :=
    {| Truck.id := new_id;
       Truck.nome := TruckCreate.nome truck;
       Truck.consumo := TruckCreate.consumo truck;
       Truck.tanque := TruckCreate.tanque truck;
       Truck.placa := TruckCreate.placa truck;
       Truck.status := "Disponível" |} in
  _ ← modify (fun s => mk_db (<[new_id := new_truck]> (db_trucks s)) (db_drivers s) (db_trips s));
  mret new_truck.

(** [DELETE /api/v1/trucks/{truck_id}]; the value returned is the [msg] of
    the answer. *)
Definition delete_truck (truck_id : string) : handler string :=
  trucks ← read db_trucks;
  match trucks !! truck_id with
  | Some _ =>
      _ ← modify (fun s => mk_db (delete truck_id (db_trucks s)) (db_drivers s) (db_trips s));
      mret "Removido"
  | None => raise (HTTPException 404 "Não encontrado")
  end.

(** [s.replace(' ', '+')] *)
Fixpoint replace_spaces (s : string) : string :=
  match s with
  | EmptyString => EmptyString
  | String c r =>
      String (if Ascii.eqb c (Ascii.ascii_of_N 32) then Ascii.ascii_of_N 43 else c)
        (replace_spaces r)
  end.

(** The photo of a driver created without one (with [None] or with the
    empty string): an avatar drawn from the name. *)
Definition default_foto_url (nome : string) : string :=
  "https://ui-avatars.com/api/?name=" +:+ replace_spaces nome +:+ "&background=random".

(** [POST /api/v1/drivers]; [new_id] as in [create_truck]. *)
Definition create_driver (driver : DriverCreate.t) (new_id : string) : handler Driver.t :=
  let foto_url :=
    match DriverCreate.foto_url driver with
    | Some (String c r) => String c r
    | Some EmptyString | None => default_foto_url (DriverCreate.nome driver)
    end in
  let d :=
    {| Driver.id := new_id;
       Driver.nome := DriverCreate.nome driver;
       Driver.cnh := DriverCreate.cnh driver;
       Driver.foto_url := foto_url;
       Driver.status := "Disponível" |} in
  _ ← modify (fun s => mk_db (db_trucks s) (<[new_id := d]> (db_drivers s)) (db_trips s));
  mret d.

(** [DELETE /api/v1/drivers/{driver_id}]; the value returned is the [msg]
    of the answer. *)
Definition delete_driver (driver_id : string) : handler string :=
  drivers ← read db_drivers;
  match drivers !! driver_id with
  | Some _ =>
      _ ← modify (fun s => mk_db (db_trucks s) (delete driver_id (db_drivers s)) (db_trips s));
      mret "Removido"
  | None => raise (HTTPException 404 "Motorista não encontrado")
  end.

(** ** The listing of trips *)

(** Year of the proleptic Gregorian calendar, from the number of days
    since 0001-01-01 (the companion of [month_day]). *)
Definition year_of_days (days : Z) : Z :=
  let z := days + 306 in
  let era := z / 146097 in
  let doe := z mod 146097 in
  let yoe := (doe - doe / 1460 + doe / 36524 - doe / 146096) / 365 in
  let doy := doe - (365 * yoe + yoe / 4 - yoe / 100) in
  let mp := (5 * doy + 2) / 153 in
  yoe + era * 400 + (if mp <? 10 then 0 else 1).

Definition four_digits (n : Z) : string :=
  two_digits (n / 100) +:+ two_digits n.

Definition six_digits (n : Z) : string :=
  two_digits (n / 10000) +:+ four_digits n.

(** The UTC offset in ISO format: [+HH:MM], with the seconds and the
    microseconds when they are not zero (offsets are within a day). *)
Definition format_offset (off : option Z) : string :=
  match off with
  | None => ""
  | Some off =>
      let a := Z.abs off in
      let rest := a mod 60000000 in
      (if off <? 0 then "-" else "+")
        +:+ two_digits (a / 3600000000) +:+ ":" +:+ two_digits (a mod 3600000000 / 60000000)
        +:+ (if rest =? 0 then ""
             else ":" +:+ two_digits (rest / 1000000)
                  +:+ (if rest mod 1000000 =? 0 then ""
                       else "." +:+ six_digits (rest mod 1000000)))
  end.

(** [d.isoformat()]: the text under which [book_trip] stores a date. *)
Definition isoformat (d : datetime) : string :=
  let days := local_us d / us_per_day in
  let '(m, dd) := month_day days in
  let secs := local_us d mod us_per_day / 1000000 in
  let us := local_us d mod 1000000 in
  four_digits (year_of_days days) +:+ "-" +:+ two_digits m +:+ "-" +:+ two_digits dd
    +:+ "T" +:+ two_digits (secs / 3600) +:+ ":" +:+ two_digits (secs / 60 mod 60)
    +:+ ":" +:+ two_digits (secs mod 60)
    +:+ (if us =? 0 then "" else "." +:+ six_digits us)
    +:+ format_offset (utcoffset d).

(** [sorted(l, key=key, reverse=True)]: the stable sort by decreasing key,
    in which the elements of equal keys keep their order; strings compare
    by code point. *)
Fixpoint insert_desc {A : Type} (key : A -> string) (x : A) (l : list A) : list A :=
  match l with
  | [] => [x]
  | y :: l' =>
      if String.ltb (key x) (key y) then y :: insert_desc key x l'
      else x :: y :: l'
  end.

Fixpoint sorted_desc {A : Type} (key : A -> string) (l : list A) : list A :=
  match l with
  | [] => []
  | x :: l' => insert_desc key x (sorted_desc key l')
  end.

(** A trip as [list_trips] returns it: the stored trip and the names that
    its identifiers resolve to. *)
Module ListedTrip.
Record t : Type := mk {
  trip : Trip.t;
  motorista_nome : string;
  motorista_foto : string;
  veiculo_nome : string;
  veiculo_placa : string
}.
End ListedTrip.

(** The body of the loop of [list_trips]. *)
Definition enhance (s : db) (t : Trip.t) : ListedTrip.t :=
  let driver := db_drivers s !! Trip.motorista_id t in
  let truck := db_trucks s !! Trip.veiculo_id t in
  {| ListedTrip.trip := t;
     ListedTrip.motorista_nome :=
       match driver with Some d => Driver.nome d | None => "Desconhecido" end;
     ListedTrip.motorista_foto :=
       match driver with Some d => Driver.foto_url d | None => "" end;
     ListedTrip.veiculo_nome :=
       match truck with Some v => Truck.nome v | None => "Desconhecido" end;
     ListedTrip.veiculo_placa :=
       match truck with Some v => Truck.placa v | None => "---" end |}.

Definition trip_key (t : Trip.t) : string := isoformat (Trip.data_inicio t).

(** [GET /api/v1/trips] *)
Definition list_trips (s : db) : list ListedTrip.t :=
  take 20 (enhance s <$> sorted_desc trip_key (db_trips s)).

(** ** Sequences of calls *)

(** A call of one of the endpoints that write to the database, with the
    identifier that it draws when it creates an entry. *)
Inductive api_call : Type :=
  | BookTrip (trip : TripCreate.t) (new_id : string)
  | CreateTruck (truck : TruckCreate.t) (new_id : string)
  | DeleteTruck (truck_id : string)
  | CreateDriver (driver : DriverCreate.t) (new_id : string)
  | DeleteDriver (driver_id : string).

(** The database after a call, whatever it answers. *)
Definition run_call (s : db) (c : api_call) : db :=
  match c with
  | BookTrip trip new_id => snd (book_trip trip new_id s)
  | CreateTruck truck new_id => snd (create_truck truck new_id s)
  | DeleteTruck truck_id => snd (delete_truck truck_id s)
  | CreateDriver driver new_id => snd (create_driver driver new_id s)
  | DeleteDriver driver_id => snd (delete_driver driver_id s)
  end.

Definition run_calls (s : db) (calls : list api_call) : db :=
  foldl run_call s calls.

(** * Properties *)

(** ** Vocabulary of the specification and sample data *)

(** A trip holds the resource [resource_id] of kind [resource_type]. *)
Definition uses_resource (resource_type resource_id : string) (trip : Trip.t) : Prop :=
  trip_resource_id resource_type trip = resource_id.

(** Half-open overlap of the proposed window with a stored one:
    [proposedStart < tripEnd AND proposedEnd > tripStart]. *)
Definition window_conflict (start end_ : datetime) (trip : Trip.t) : Prop :=
  instant start < instant (Trip.data_fim trip) /\
  instant end_ > instant (Trip.data_inicio trip).

Definition conflicting (resource_type resource_id : string)
    (start end_ : datetime) (trip : Trip.t) : Prop :=
  uses_resource resource_type resource_id trip /\ window_conflict start end_ trip.

(** The dates of the resource's trips can be ordered against the proposed
    window: all of them naive, or all of them aware. *)
Definition comparable_dates (resource_type resource_id : string)
    (start end_ : datetime) (trip : Trip.t) : bool :=
  if String.eqb (trip_resource_id resource_type trip) resource_id then
    comparable start (Trip.data_fim trip) && comparable end_ (Trip.data_inicio trip)
  else true.

(** The overlap semantics as the specification states it, for every
    resource, window and trip list: a conflict is reported exactly when
    some trip of the resource overlaps the window. *)
Definition overlap_semantics_claim : Prop :=
  forall (trips : list Trip.t) (resource_id : string) (start end_ : datetime)
         (resource_type : string),
    (exists msg,
       check_availability trips resource_id start end_ resource_type = Ok (false, msg)) <->
    (exists trip, trip ∈ trips /\ conflicting resource_type resource_id start end_ trip).

(** A text of ASCII characters, on which [capitalize] is Python's. *)
Fixpoint is_ascii (s : string) : bool :=
  match s with
  | EmptyString => true
  | String c r => (Ascii.N_of_ascii c <? 128)%N && is_ascii r
  end.

(** The message reports the window of the trip: after its first word
    (the capitalized kind of resource) it gives the trip's bounds. *)
Definition reports_window (msg : string) (trip : Trip.t) : Prop :=
  exists word,
    msg = word +:+ " já reservado de " +:+ strftime (Trip.data_inicio trip)
            +:+ " até " +:+ strftime (Trip.data_fim trip).

(** The state after a booking that passed both checks. *)
Definition booked (trip : TripCreate.t) (new_id : string) (data_fim : datetime)
    (dias_necessarios : Z) (s : db) : db :=
  book_driver (TripCreate.motorista_id trip) "Agendado"
    (book_truck (TripCreate.veiculo_id trip) "Agendado"
       (append_trip (trip_data trip new_id data_fim dias_necessarios) s)).

(** The outcomes of [book_trip], in the order in which the handler
    reaches them. *)
Inductive book_outcome (trip : TripCreate.t) (new_id : string) (s : db)
    : result BookResponse.t * db -> Prop :=
  | book_no_duration e :
      booking_days (TripCreate.distancia_km trip) = Raise e ->
      book_outcome trip new_id s (Raise e, s)
  | book_no_end dias e :
      booking_days (TripCreate.distancia_km trip) = Ok dias ->
      add_days (TripCreate.data_inicio trip) dias = Raise e ->
      book_outcome trip new_id s (Raise e, s)
  | book_truck_error dias data_fim e :
      booking_days (TripCreate.distancia_km trip) = Ok dias ->
      add_days (TripCreate.data_inicio trip) dias = Ok data_fim ->
      check_availability (db_trips s) (TripCreate.veiculo_id trip)
        (TripCreate.data_inicio trip) data_fim "veiculo" = Raise e ->
      book_outcome trip new_id s (Raise e, s)
  | book_truck_conflict dias data_fim truck_msg :
      booking_days (TripCreate.distancia_km trip) = Ok dias ->
      add_days (TripCreate.data_inicio trip) dias = Ok data_fim ->
      check_availability (db_trips s) (TripCreate.veiculo_id trip)
        (TripCreate.data_inicio trip) data_fim "veiculo" = Ok (false, truck_msg) ->
      book_outcome trip new_id s
        (Raise (HTTPException 409 ("Conflito: " +:+ truck_msg)), s)
  | book_driver_error dias data_fim truck_msg e :
      booking_days (TripCreate.distancia_km trip) = Ok dias ->
      add_days (TripCreate.data_inicio trip) dias = Ok data_fim ->
      check_availability (db_trips s) (TripCreate.veiculo_id trip)
        (TripCreate.data_inicio trip) data_fim "veiculo" = Ok (true, truck_msg) ->
      check_availability (db_trips s) (TripCreate.motorista_id trip)
        (TripCreate.data_inicio trip) data_fim "motorista" = Raise e ->
      book_outcome trip new_id s (Raise e, s)
  | book_driver_conflict dias data_fim truck_msg driver_msg :
      booking_days (TripCreate.distancia_km trip) = Ok dias ->
      add_days (TripCreate.data_inicio trip) dias = Ok data_fim ->
      check_availability (db_trips s) (TripCreate.veiculo_id trip)
        (TripCreate.data_inicio trip) data_fim "veiculo" = Ok (true, truck_msg) ->
      check_availability (db_trips s) (TripCreate.motorista_id trip)
        (TripCreate.data_inicio trip) data_fim "motorista" = Ok (false, driver_msg) ->
      book_outcome trip new_id s
        (Raise (HTTPException 409 ("Conflito: " +:+ driver_msg)), s)
  | book_done dias data_fim truck_msg driver_msg :
      booking_days (TripCreate.distancia_km trip) = Ok dias ->
      add_days (TripCreate.data_inicio trip) dias = Ok data_fim ->
      check_availability (db_trips s) (TripCreate.veiculo_id trip)
        (TripCreate.data_inicio trip) data_fim "veiculo" = Ok (true, truck_msg) ->
      check_availability (db_trips s) (TripCreate.motorista_id trip)
        (TripCreate.data_inicio trip) data_fim "motorista" = Ok (true, driver_msg) ->
      book_outcome trip new_id s
        (Ok (BookResponse.mk "Viagem reservada!" new_id data_fim),
         booked trip new_id data_fim dias s).

Ltac unfold_handler :=
  unfold mbind, handler_bind, result_bind, mret, handler_ret, lift, read, raise, modify;
  cbn.

(** Two trips hold a common resource. *)
Definition shares_resource (a b : Trip.t) : Prop :=
  Trip.veiculo_id a = Trip.veiculo_id b \/ Trip.motorista_id a = Trip.motorista_id b.

(** The half-open windows of two trips overlap. *)
Definition overlap (a b : Trip.t) : Prop :=
  instant (Trip.data_inicio a) < instant (Trip.data_fim b) /\
  instant (Trip.data_inicio b) < instant (Trip.data_fim a).

(** The instant [x] lies in the window [[start, end)] of a trip. *)
Definition in_window (t : Trip.t) (x : Z) : Prop :=
  instant (Trip.data_inicio t) <= x < instant (Trip.data_fim t).

(** A stored window ends after it starts, in the same timezone. *)
Definition well_formed_trip (t : Trip.t) : Prop :=
  utcoffset (Trip.data_fim t) = utcoffset (Trip.data_inicio t) /\
  local_us (Trip.data_inicio t) < local_us (Trip.data_fim t).

Definition trips_invariant (trips : list Trip.t) : Prop :=
  Forall well_formed_trip trips /\
  forall (i j : nat) (a b : Trip.t),
    (i < j)%nat -> trips !! i = Some a -> trips !! j = Some b ->
    shares_resource a b ->
    comparable (Trip.data_inicio a) (Trip.data_inicio b) = true /\ ~ overlap a b.

(** The states that bookings lead to from an empty trip list. *)
Inductive reachable : db -> Prop :=
  | reachable_empty trucks drivers : reachable (mk_db trucks drivers [])
  | reachable_book s trip new_id :
      reachable s -> reachable (snd (book_trip trip new_id s)).

(** Sample bookings on the initial database: 900 km from the first of
    May (two days), then 100 km from the third (one day), the second with
    the same vehicle and another driver. *)
Definition sample_request (veiculo_id motorista_id : string) (data_inicio : datetime)
    (distancia_km : float) : TripCreate.t :=
  TripCreate.mk "Curitiba" "Santos" distancia_km 2229.68 668.9 527.27
    veiculo_id motorista_id data_inicio 0.

Definition booked_once : db :=
  snd (book_trip (sample_request "vuc-01" "mot-01" (of_date 2024 5 1 8 0) 900)
         "0a1b2c3d" initial_db).

Definition booked_twice : db :=
  snd (book_trip (sample_request "vuc-01" "mot-02" (of_date 2024 5 3 8 0) 100)
         "4e5f6a7b" booked_once).

(** The request of a quote with its round-trip flag set to [b]. *)
Definition set_ida_e_volta (b : bool) (payload : RouteRequest.t) : RouteRequest.t :=
  {| RouteRequest.origem := RouteRequest.origem payload;
     RouteRequest.destino := RouteRequest.destino payload;
     RouteRequest.veiculo_id := RouteRequest.veiculo_id payload;
     RouteRequest.ida_e_volta := b;
     RouteRequest.preco_diesel_personalizado := RouteRequest.preco_diesel_personalizado payload;
     RouteRequest.valor_diaria_personalizado := RouteRequest.valor_diaria_personalizado payload |}.

(** Distance and duration after the doubling of a round trip. *)
Definition doubled (ida_e_volta : bool) (x : float) : float :=
  if ida_e_volta then (x * 2)%float else x.

(** Sample quote: the urban truck of the initial catalog, 6 km per litre
    and a tank of 150 litres. *)
Definition sample_truck : Truck.t :=
  Truck.mk "vuc-01" "VUC (Veículo Urbano)" 6.0 150 "ABC-1234" "Disponível".

Definition sample_quote_request (ida_e_volta : bool)
    (preco_diesel valor_diaria : option float) : RouteRequest.t :=
  RouteRequest.mk "Curitiba" "Santos" "vuc-01" ida_e_volta preco_diesel valor_diaria.

Definition sample_origin : coords := ((-25.43)%float, (-49.27)%float).
Definition sample_destination : coords := ((-23.96)%float, (-46.33)%float).

(** [tripDays = max(1, ceil(travelHours / 8))], on the exact value of the
    travel hours, in rational arithmetic. *)
Definition trip_days_spec (travel_hours : float) (days : Z) : Prop :=
  exists q, PyNum.float_value travel_hours = Some q /\
            days = Z.max 1 (Qceiling (q / 8)).

(** [refuelStops] is 0 when [fuelLiters <= tank], and
    [ceil((fuelLiters - tank) / tank)] when [fuelLiters > tank]: the two
    cases compare the exact values, the quotient is the float that the
    program computes, and the ceiling is that of its exact value. *)
Definition refuel_stops_spec (fuel_liters : float) (tank stops : Z) : Prop :=
  (PyNum.le_int fuel_liters tank = true -> stops = 0) /\
  (PyNum.gt_int fuel_liters tank = true ->
   exists over tanks q,
     PyNum.sub_int fuel_liters tank = Ok over /\
     PyNum.truediv_int over tank = Ok tanks /\
     PyNum.float_value tanks = Some q /\
     stops = Qceiling q).

(** The claim of a guard on the margin: a margin of 1 or more makes the
    quote fail instead of dividing. *)
Definition margin_guard_claim : Prop :=
  forall settings payload vehicle_data distancia_km tempo_horas geometry
         c_origem c_destino,
    PrimFloat.leb 1 (Settings.MARGEM_LUCRO settings) = true ->
    is_raise (compute_quote settings payload vehicle_data distancia_km tempo_horas
                geometry c_origem c_destino) = true.

Definition settings_with_margin (m : float) : Settings.t :=
  {| Settings.PRECO_COMBUSTIVEL := 6.89;
     Settings.SALARIO_MOTORISTA := 2500.00;
     Settings.VALOR_DIARIA_PADRAO := 150.00;
     Settings.DIAS_UTEIS := 22;
     Settings.MARGEM_LUCRO := m |}.

(** The claim on the errors of a quote: an unknown vehicle, and an origin
    or a destination that the geocoder does not resolve, each fail with a
    404 whose detail, for a place, ends with its name. *)
Definition quote_not_found_claim : Prop :=
  forall geocode get_road_route great_circle_km exc_str settings payload s,
    let answer :=
      calculate_quote geocode get_road_route great_circle_km exc_str settings payload s in
    (db_trucks s !! RouteRequest.veiculo_id payload = None ->
     exists detail, answer = Raise (HTTPException 404 detail)) /\
    (forall vehicle_data,
       db_trucks s !! RouteRequest.veiculo_id payload = Some vehicle_data ->
       geocode (RouteRequest.origem payload) = Ok None ->
       exists prefix,
         answer = Raise (HTTPException 404 (prefix +:+ RouteRequest.origem payload))) /\
    (forall vehicle_data c_origem,
       db_trucks s !! RouteRequest.veiculo_id payload = Some vehicle_data ->
       geocode (RouteRequest.origem payload) = Ok (Some c_origem) ->
       geocode (RouteRequest.destino payload) = Ok None ->
       exists prefix,
         answer = Raise (HTTPException 404 (prefix +:+ RouteRequest.destino payload))).

(** Sample services: a geocoder that knows Curitiba and Santos only, a
    router that is down, a fixed great-circle distance, and the text of an
    exception left empty. *)
Definition sample_geocode (city : string) : result (option coords) :=
  if String.eqb city "Curitiba" then Ok (Some sample_origin)
  else if String.eqb city "Santos" then Ok (Some sample_destination)
  else Ok None.

Definition router_down (a b : coords) : option RouteData.t := None.

Definition sample_great_circle (a b : coords) : float := 340%float.

Definition no_text (e : exc) : string := "".

(** After [booked_once], whose dates are naive, a booking of the other
    vehicle and the other driver with timezone-aware dates. *)
Definition mixed_bookings : db :=
  snd (book_trip (sample_request "carreta-01" "mot-02"
                    (with_utcoffset (of_date 2024 5 1 8 0) 0) 900)
         "1122aabb" booked_once).

(** The mantissa of 1, 2, 4, 8: [2 ^ 52]. *)
Definition two52 : positive := 4503599627370496.

(** A float of magnitude below 1 and of sign [s], as a division that
    underflows leaves it: a zero, or a mantissa of at most 53 bits at an
    exponent close to the least one. *)
Definition small_result (s : bool) (R : spec_float) : Prop :=
  R = S754_zero s \/
  exists m e, R = S754_finite s m e /\ -1074 <= e /\ Z.pos m * 2 ^ (e + 1074) <= 2 ^ 53.

(** ** Vocabulary of the catalog, the listing and the sequences of calls *)

(** The trips of a resource, in storage order. *)
Definition trips_of (resource_type resource_id : string) (trips : list Trip.t)
    : list Trip.t :=
  filter (fun trip => trip_resource_id resource_type trip = resource_id) trips.

(** What every stored trip satisfies: the status and the duration that
    [book_trip] writes, and an end that many days after the start. *)
Definition stored_trip (t : Trip.t) : Prop :=
  Trip.status t = "Agendada" /\
  booking_days (Trip.distancia_km t) = Ok (Trip.dias_duracao t) /\
  1 <= Trip.dias_duracao t /\
  add_days (Trip.data_inicio t) (Trip.dias_duracao t) = Ok (Trip.data_fim t).

(** A call to a catalog endpoint. *)
Definition catalog_call (c : api_call) : bool :=
  match c with
  | BookTrip _ _ => false
  | _ => true
  end.

(** Sample calls: a booking of the urban truck, its removal from the
    catalog, a new truck under the same identifier, and a second booking
    on the day after the first ends. *)
Definition sample_truck_create : TruckCreate.t :=
  TruckCreate.mk "Toco" 4.5 300 "JKL-3456".

Definition sample_calls : list api_call :=
  [ BookTrip (sample_request "vuc-01" "mot-01" (of_date 2024 5 1 8 0) 900) "0a1b2c3d";
    DeleteTruck "vuc-01";
    CreateTruck sample_truck_create "vuc-01";
    BookTrip (sample_request "vuc-01" "mot-02" (of_date 2024 5 3 8 0) 100) "4e5f6a7b" ].

(** What the catalogs satisfy after any calls: an entry is stored under
    its own identifier, its status is one of the two that the endpoints
    write, and a resource marked "Agendado" is that of a stored trip. *)
Definition truck_entry (s : db) (k : string) (v : Truck.t) : Prop :=
  Truck.id v = k /\
  (Truck.status v = "Disponível" \/
   Truck.status v = "Agendado" /\ exists t, t ∈ db_trips s /\ Trip.veiculo_id t = k).

Definition driver_entry (s : db) (k : string) (d : Driver.t) : Prop :=
  Driver.id d = k /\
  (Driver.status d = "Disponível" \/
   Driver.status d = "Agendado" /\ exists t, t ∈ db_trips s /\ Trip.motorista_id t = k).

Definition catalog_invariant (s : db) : Prop :=
  (forall k v, db_trucks s !! k = Some v -> truck_entry s k v) /\
  (forall k d, db_drivers s !! k = Some d -> driver_entry s k d).

(** A listed trip whose vehicle, or whose driver, is not in the catalog. *)
Definition unknown_vehicle (k : string) (l : ListedTrip.t) : ListedTrip.t :=
  if String.eqb (Trip.veiculo_id (ListedTrip.trip l)) k then
    {| ListedTrip.trip := ListedTrip.trip l;
       ListedTrip.motorista_nome := ListedTrip.motorista_nome l;
       ListedTrip.motorista_foto := ListedTrip.motorista_foto l;
       ListedTrip.veiculo_nome := "Desconhecido";
       ListedTrip.veiculo_placa := "---" |}
  else l.

Definition unknown_driver (k : string) (l : ListedTrip.t) : ListedTrip.t :=
  if String.eqb (Trip.motorista_id (ListedTrip.trip l)) k then
    {| ListedTrip.trip := ListedTrip.trip l;
       ListedTrip.motorista_nome := "Desconhecido";
       ListedTrip.motorista_foto := "";
       ListedTrip.veiculo_nome := ListedTrip.veiculo_nome l;
       ListedTrip.veiculo_placa := ListedTrip.veiculo_placa l |}
  else l.

(** A text without the space character. *)
Fixpoint no_space (s : string) : bool :=
  match s with
  | EmptyString => true
  | String c r => negb (Ascii.eqb c (Ascii.ascii_of_N 32)) && no_space r
  end.

Definition sample_driver_create (foto_url : option string) : DriverCreate.t :=
  DriverCreate.mk "Maria das Dores" "55667788990" foto_url.

(** Keys in non-increasing order, by code point. *)
Fixpoint descending {A : Type} (key : A -> string) (l : list A) : Prop :=
  match l with
  | [] => True
  | x :: l' => Forall (fun y => String.leb (key y) (key x) = true) l' /\ descending key l'
  end.

(** The trips of [sample_calls], the later start first. *)
Definition sample_listing : list ListedTrip.t :=
  list_trips (run_calls initial_db sample_calls).

(** A quote whose vehicle carries the status [st]. *)
Definition with_vehicle_status (st : string) (r : RouteResponse.t) : RouteResponse.t :=
  {| RouteResponse.distancia_km := RouteResponse.distancia_km r;
     RouteResponse.tempo_estimado_horas := RouteResponse.tempo_estimado_horas r;
     RouteResponse.dias_viagem_estimados := RouteResponse.dias_viagem_estimados r;
     RouteResponse.preco_final_frete := RouteResponse.preco_final_frete r;
     RouteResponse.detalhes_financeiros := RouteResponse.detalhes_financeiros r;
     RouteResponse.route_geometry := RouteResponse.route_geometry r;
     RouteResponse.coords_origem := RouteResponse.coords_origem r;
     RouteResponse.coords_destino := RouteResponse.coords_destino r;
     RouteResponse.veiculo_info := Truck.set_status st (RouteResponse.veiculo_info r) |}.

(** A geocoder whose lookups time out. *)
Definition geocoder_down (city : string) : result (option coords) :=
  Raise (GeocoderError "Service timed out").

(** [str(e)] for the exceptions of the geocoding client: their text. *)
Definition geocoder_text (e : exc) : string :=
  match e with
  | GeocoderError text => text
  | _ => ""
  end.

(** A vehicle registered with a consumption of zero. *)
Definition zero_consumption_truck : TruckCreate.t :=
  TruckCreate.mk "Guincho" 0 200 "MNO-7890".

(** * Proofs *)

(** ** The interval check *)

Section Availability.

Variables (resource_id : string) (start end_ : datetime) (resource_type : string).

Lemma window_overlaps_true trip :
  window_overlaps start end_ trip = Ok true -> window_conflict start end_ trip.
Proof.
  unfold window_overlaps, window_conflict, dt_lt, dt_gt; cbn.
  destruct (comparable start _); cbn; [|discriminate].
  destruct (Z.ltb_spec (instant start) (instant (Trip.data_fim trip))); cbn; [|discriminate].
  destruct (comparable end_ _); [|discriminate].
  destruct (Z.ltb_spec (instant (Trip.data_inicio trip)) (instant end_)); [|discriminate].
  intros _; lia.
Qed.

Lemma window_overlaps_false trip :
  window_overlaps start end_ trip = Ok false ->
  comparable start (Trip.data_fim trip) = true /\ ~ window_conflict start end_ trip.
Proof.
  unfold window_overlaps, window_conflict, dt_lt, dt_gt; cbn.
  destruct (comparable start _); cbn; [|discriminate].
  destruct (Z.ltb_spec (instant start) (instant (Trip.data_fim trip))); cbn.
  - destruct (comparable end_ _); [|discriminate].
    destruct (Z.ltb_spec (instant (Trip.data_inicio trip)) (instant end_)); [discriminate|].
    intros _; split; [reflexivity | lia].
  - intros _; split; [reflexivity | lia].
Qed.

Lemma window_overlaps_comparable trip :
  comparable start (Trip.data_fim trip) = true ->
  comparable end_ (Trip.data_inicio trip) = true ->
  window_overlaps start end_ trip =
    Ok ((instant start <? instant (Trip.data_fim trip))
        && (instant (Trip.data_inicio trip) <? instant end_)).
Proof.
  intros H1 H2. unfold window_overlaps, dt_lt, dt_gt; cbn.
  rewrite H1; cbn. rewrite H2. now destruct (instant start <? _).
Qed.

(** A passed check: every trip of the resource was compared with the
    window and none overlaps it. *)
Lemma check_availability_passed trips msg :
  check_availability trips resource_id start end_ resource_type = Ok (true, msg) ->
  msg = "Disponível" /\
  forall trip, trip ∈ trips -> uses_resource resource_type resource_id trip ->
    comparable start (Trip.data_fim trip) = true /\ ~ window_conflict start end_ trip.
Proof.
  induction trips as [|t rest IH]; cbn.
  - intros [= <-]. split; [reflexivity|]. intros trip H. inversion H.
  - destruct (String.eqb_spec (trip_resource_id resource_type t) resource_id) as [Heq|Hne].
    + destruct (window_overlaps start end_ t) as [[|]|e] eqn:Hw; cbn; try discriminate.
      intros H. destruct (IH H) as [-> IH']. split; [reflexivity|].
      intros trip Hin Hres. apply elem_of_cons in Hin as [->|Hin]; [|now apply IH'].
      now apply window_overlaps_false.
    + intros H. destruct (IH H) as [-> IH']. split; [reflexivity|].
      intros trip Hin Hres. apply elem_of_cons in Hin as [->|Hin]; [|now apply IH'].
      now elim Hne.
Qed.

(** The scan stops at the first trip of the resource that overlaps the
    window, when all of the resource's dates can be compared. *)
Lemma check_availability_first trips :
  forallb (comparable_dates resource_type resource_id start end_) trips = true ->
  (check_availability trips resource_id start end_ resource_type = Ok (true, "Disponível") /\
   Forall (fun t => ~ conflicting resource_type resource_id start end_ t) trips) \/
  (exists pre trip post,
     trips = pre ++ trip :: post /\
     Forall (fun t => ~ conflicting resource_type resource_id start end_ t) pre /\
     conflicting resource_type resource_id start end_ trip /\
     check_availability trips resource_id start end_ resource_type
       = Ok (false, conflict_message resource_type trip)).
Proof.
  induction trips as [|t rest IH]; cbn.
  - intros _. left. split; [reflexivity | constructor].
  - unfold comparable_dates at 1.
    intros [Hc Hrest]%andb_prop. specialize (IH Hrest).
    destruct (String.eqb_spec (trip_resource_id resource_type t) resource_id) as [Heq|Hne].
    + apply andb_prop in Hc as [Hc1 Hc2].
      rewrite (window_overlaps_comparable t Hc1 Hc2); cbn.
      destruct (Z.ltb_spec (instant start) (instant (Trip.data_fim t))) as [H1|H1];
        [destruct (Z.ltb_spec (instant (Trip.data_inicio t)) (instant end_)) as [H2|H2]|]; cbn.
      * right. exists [], t, rest. repeat split; auto. lia.
      * destruct IH as [[IH1 IH2]|(pre & trip & post & -> & Hpre & Hcf & IH)].
        -- left. split; [assumption|]. constructor; [|assumption].
           intros [_ [_ ?]]. lia.
        -- right. exists (t :: pre), trip, post. repeat split; try apply Hcf; auto.
           constructor; [|assumption]. intros [_ [_ ?]]. lia.
      * destruct IH as [[IH1 IH2]|(pre & trip & post & -> & Hpre & Hcf & IH)].
        -- left. split; [assumption|]. constructor; [|assumption].
           intros [_ [? _]]. lia.
        -- right. exists (t :: pre), trip, post. repeat split; try apply Hcf; auto.
           constructor; [|assumption]. intros [_ [? _]]. lia.
    + destruct IH as [[IH1 IH2]|(pre & trip & post & -> & Hpre & Hcf & IH)].
      * left. split; [assumption|]. constructor; [|assumption].
        intros [? _]. contradiction.
      * right. exists (t :: pre), trip, post. repeat split; try apply Hcf; auto.
        constructor; [|assumption]. intros [? _]. contradiction.
Qed.

(** A reported conflict is right, whatever the dates: it is that of the
    first trip in storage order that conflicts. *)
Lemma check_availability_reported trips msg :
  check_availability trips resource_id start end_ resource_type = Ok (false, msg) ->
  exists pre trip post,
    trips = pre ++ trip :: post /\
    Forall (fun t => ~ conflicting resource_type resource_id start end_ t) pre /\
    conflicting resource_type resource_id start end_ trip /\
    msg = conflict_message resource_type trip.
Proof.
  induction trips as [|t rest IH]; cbn; [discriminate|].
  destruct (String.eqb_spec (trip_resource_id resource_type t) resource_id) as [Heq|Hne].
  - destruct (window_overlaps start end_ t) as [[|]|e] eqn:Hw; cbn; [| |discriminate].
    + intros [= <-]. exists [], t, rest. repeat split; [constructor | exact Heq | |].
      * now apply window_overlaps_true in Hw as [H1 _].
      * now apply window_overlaps_true in Hw as [_ H2].
    + intros (pre & trip & post & -> & Hpre & Hcf & ->)%IH.
      exists (t :: pre), trip, post. repeat split; try apply Hcf.
      constructor; [|assumption].
      apply window_overlaps_false in Hw as [_ Hno]. now intros [_ ?].
  - intros (pre & trip & post & -> & Hpre & Hcf & ->)%IH.
    exists (t :: pre), trip, post. repeat split; try apply Hcf.
    constructor; [|assumption]. intros [? _]. contradiction.
Qed.

End Availability.

(** ** The booking endpoint, case by case *)

Lemma book_trip_outcome trip new_id s :
  book_outcome trip new_id s (book_trip trip new_id s).
Proof.
  unfold book_trip. unfold_handler.
  destruct (booking_days _) as [dias|e] eqn:Hd; [|now apply book_no_duration].
  destruct (add_days _ _) as [data_fim|e] eqn:He; [|eapply book_no_end; eassumption].
  destruct (check_availability _ (TripCreate.veiculo_id trip) _ _ _)
    as [[[|] truck_msg]|e] eqn:Hv; cbn;
    [| eapply book_truck_conflict; eassumption | eapply book_truck_error; eassumption].
  destruct (check_availability _ (TripCreate.motorista_id trip) _ _ _)
    as [[[|] driver_msg]|e] eqn:Hm; cbn;
    [| eapply book_driver_conflict; eassumption | eapply book_driver_error; eassumption].
  eapply book_done; eassumption.
Qed.

Lemma book_trip_raise_unchanged trip new_id s :
  is_raise (fst (book_trip trip new_id s)) = true ->
  snd (book_trip trip new_id s) = s.
Proof.
  destruct (book_trip_outcome trip new_id s); cbn; intros Hr;
    solve [reflexivity | discriminate Hr].
Qed.

Lemma book_trip_ok_inv trip new_id s resp :
  fst (book_trip trip new_id s) = Ok resp ->
  exists dias data_fim truck_msg driver_msg,
    booking_days (TripCreate.distancia_km trip) = Ok dias /\
    add_days (TripCreate.data_inicio trip) dias = Ok data_fim /\
    check_availability (db_trips s) (TripCreate.veiculo_id trip)
      (TripCreate.data_inicio trip) data_fim "veiculo" = Ok (true, truck_msg) /\
    check_availability (db_trips s) (TripCreate.motorista_id trip)
      (TripCreate.data_inicio trip) data_fim "motorista" = Ok (true, driver_msg) /\
    resp = BookResponse.mk "Viagem reservada!" new_id data_fim /\
    snd (book_trip trip new_id s) = booked trip new_id data_fim dias s.
Proof.
  destruct (book_trip_outcome trip new_id s); cbn; intros Hr; try discriminate Hr.
  injection Hr as <-. exists dias, data_fim, truck_msg, driver_msg. auto 10.
Qed.

Lemma booked_trips trip new_id data_fim dias s :
  db_trips (booked trip new_id data_fim dias s)
    = db_trips s ++ [trip_data trip new_id data_fim dias].
Proof.
  unfold booked, book_driver, book_truck.
  repeat (match goal with |- context [match ?x with _ => _ end] => destruct x end; cbn);
    reflexivity.
Qed.

Lemma booking_days_positive distancia_km dias :
  booking_days distancia_km = Ok dias -> 1 <= dias.
Proof.
  unfold booking_days.
  destruct (PyNum.truediv_int distancia_km 70) as [h|]; cbn; [|discriminate].
  destruct (PyNum.truediv_int h 8) as [p|]; cbn; [|discriminate].
  destruct (PyNum.ceil p) as [n|]; cbn; [|discriminate].
  intros [= <-]. destruct (Z.ltb_spec n 1); lia.
Qed.

Lemma add_days_inv d n d' :
  add_days d n = Ok d' ->
  utcoffset d' = utcoffset d /\ local_us d' = local_us d + n * us_per_day.
Proof.
  unfold add_days. destruct (_ <? _); [discriminate|].
  destruct (in_range _); [|discriminate].
  intros [= <-]. split; reflexivity.
Qed.

(** ** The no-overlap invariant *)

Lemma comparable_offsets a b a' b' :
  utcoffset a' = utcoffset a -> utcoffset b' = utcoffset b ->
  comparable a' b' = comparable a b.
Proof. unfold comparable. now intros -> ->. Qed.

Lemma comparable_sym a b : comparable a b = comparable b a.
Proof. unfold comparable. now destruct (utcoffset a), (utcoffset b). Qed.

Lemma well_formed_instant t :
  well_formed_trip t -> instant (Trip.data_inicio t) < instant (Trip.data_fim t).
Proof.
  unfold well_formed_trip, instant. intros [-> H].
  destruct (utcoffset (Trip.data_inicio t)); lia.
Qed.

Lemma trip_data_well_formed trip new_id data_fim dias :
  booking_days (TripCreate.distancia_km trip) = Ok dias ->
  add_days (TripCreate.data_inicio trip) dias = Ok data_fim ->
  well_formed_trip (trip_data trip new_id data_fim dias).
Proof.
  intros Hd%booking_days_positive [Ho Hl]%add_days_inv.
  unfold well_formed_trip; cbn. split; [assumption|].
  rewrite Hl. unfold us_per_day. lia.
Qed.

(** A trip that passed both checks keeps the invariant when appended. *)
Lemma trips_invariant_snoc trips trip new_id data_fim dias truck_msg driver_msg :
  trips_invariant trips ->
  booking_days (TripCreate.distancia_km trip) = Ok dias ->
  add_days (TripCreate.data_inicio trip) dias = Ok data_fim ->
  check_availability trips (TripCreate.veiculo_id trip)
    (TripCreate.data_inicio trip) data_fim "veiculo" = Ok (true, truck_msg) ->
  check_availability trips (TripCreate.motorista_id trip)
    (TripCreate.data_inicio trip) data_fim "motorista" = Ok (true, driver_msg) ->
  trips_invariant (trips ++ [trip_data trip new_id data_fim dias]).
Proof.
  intros [Hwf Hpair] Hd He Hv Hm.
  pose proof (trip_data_well_formed trip new_id data_fim dias Hd He) as Hnew.
  apply check_availability_passed in Hv as [_ Hv].
  apply check_availability_passed in Hm as [_ Hm].
  split.
  - apply Forall_app. split; [assumption|]. now constructor.
  - intros i j a b Hij Ha Hb Hshare.
    destruct (decide (j < length trips)%nat) as [Hj|Hj].
    + rewrite lookup_app_l in Ha by lia. rewrite lookup_app_l in Hb by lia.
      now apply (Hpair i j).
    + rewrite lookup_app_l in Ha
        by (apply lookup_lt_Some in Hb; rewrite length_app in Hb; cbn in Hb; lia).
      rewrite lookup_app_r in Hb by lia.
      destruct (j - length trips)%nat as [|k] eqn:Hk; cbn in Hb; [|discriminate].
      injection Hb as <-.
      assert (Hina : a ∈ trips) by (eapply list_elem_of_lookup_2; eassumption).
      assert (Hwfa : well_formed_trip a)
        by (rewrite Forall_forall in Hwf; now apply Hwf).
      assert (Hcheck : comparable (TripCreate.data_inicio trip) (Trip.data_fim a) = true /\
                ~ window_conflict (TripCreate.data_inicio trip) data_fim a).
      { destruct Hshare as [Hs|Hs]; cbn in Hs.
        - apply Hv; [assumption|]. exact Hs.
        - apply Hm; [assumption|]. exact Hs. }
      destruct Hcheck as [Hcmp Hno]. split.
      * cbn. rewrite comparable_sym.
        rewrite <- Hcmp. apply comparable_offsets; [reflexivity|].
        symmetry. apply Hwfa.
      * intros [H1 H2]. apply Hno. cbn in H1, H2. unfold window_conflict. lia.
Qed.

Lemma reachable_invariant s : reachable s -> trips_invariant (db_trips s).
Proof.
  induction 1 as [trucks drivers|s trip new_id Hs IH]; cbn.
  - split; [constructor|]. intros i j a b _ Ha. now rewrite lookup_nil in Ha.
  - destruct (book_trip_outcome trip new_id s); cbn; try assumption.
    rewrite booked_trips. eapply trips_invariant_snoc; eassumption.
Qed.

Lemma overlap_sym a b : overlap a b -> overlap b a.
Proof. unfold overlap. tauto. Qed.

Lemma common_instant_overlap a b x : in_window a x -> in_window b x -> overlap a b.
Proof. unfold in_window, overlap. lia. Qed.

Lemma reachable_no_overlap s i j a b :
  reachable s -> i <> j ->
  db_trips s !! i = Some a -> db_trips s !! j = Some b ->
  shares_resource a b -> ~ overlap a b.
Proof.
  intros [_ Hpair]%reachable_invariant Hij Ha Hb Hshare.
  destruct (Nat.lt_total i j) as [Hlt|[Heq|Hlt]]; [|contradiction|].
  - now apply (Hpair i j a b).
  - intros Ho%overlap_sym. revert Ho. apply (Hpair j i b a); try assumption.
    destruct Hshare; [left|right]; congruence.
Qed.

(** C1. No-overlap invariant: in every state that bookings reach from an
    empty trip list, two distinct stored trips of the same vehicle, or of
    the same driver, have windows [[start, end)] that do not overlap: no
    instant lies in both. *)
Theorem no_overlap_invariant (s : db) (i j : nat) (a b : Trip.t) :
  reachable s -> i <> j ->
  db_trips s !! i = Some a -> db_trips s !! j = Some b ->
  (forall veiculo_id, Trip.veiculo_id a = veiculo_id -> Trip.veiculo_id b = veiculo_id ->
     ~ overlap a b /\ forall x, ~ (in_window a x /\ in_window b x)) /\
  (forall motorista_id, Trip.motorista_id a = motorista_id -> Trip.motorista_id b = motorista_id ->
     ~ overlap a b /\ forall x, ~ (in_window a x /\ in_window b x)).
Proof.
  intros Hs Hij Ha Hb.
  assert (Hno : shares_resource a b -> ~ overlap a b)
    by (now apply (reachable_no_overlap s i j)).
  split; intros r Hra Hrb.
  - assert (Ho : ~ overlap a b) by (apply Hno; left; congruence).
    split; [assumption|]. intros x [Hxa Hxb]. apply Ho. now apply (common_instant_overlap a b x).
  - assert (Ho : ~ overlap a b) by (apply Hno; right; congruence).
    split; [assumption|]. intros x [Hxa Hxb]. apply Ho. now apply (common_instant_overlap a b x).
Qed.

Lemma no_overlap_invariant_witness :
  match db_trips booked_twice !! 0%nat, db_trips booked_twice !! 1%nat with
  | Some a, Some b =>
      Trip.veiculo_id a = "vuc-01" /\ Trip.veiculo_id b = "vuc-01" /\ ~ overlap a b
  | _, _ => False
  end.
Proof.
  destruct (db_trips booked_twice !! 0%nat) as [a|] eqn:Ha;
    [|vm_compute in Ha; discriminate Ha].
  destruct (db_trips booked_twice !! 1%nat) as [b|] eqn:Hb;
    [|vm_compute in Hb; discriminate Hb].
  assert (Hva : Trip.veiculo_id a = "vuc-01")
    by (vm_compute in Ha; injection Ha as <-; reflexivity).
  assert (Hvb : Trip.veiculo_id b = "vuc-01")
    by (vm_compute in Hb; injection Hb as <-; reflexivity).
  split; [assumption|]. split; [assumption|].
  refine (proj1 (proj1 (no_overlap_invariant booked_twice 0 1 a b _ _ Ha Hb) "vuc-01" Hva Hvb)).
  - unfold booked_twice, booked_once. do 2 apply reachable_book. apply reachable_empty.
  - discriminate.
Defined.

(** C2, counterexample. The first sample booking holds the driver mot-01
    from the first to the third of May, on naive dates; a window from the
    second to the fourth, on timezone-aware dates, overlaps it for that
    driver, and no conflict is reported: the comparison raises. *)
Lemma overlap_semantics_counterexample : ~ overlap_semantics_claim.
Proof.
  intros Hclaim.
  destruct (proj2 (Hclaim (db_trips mixed_bookings) "mot-01"
                     (with_utcoffset (of_date 2024 5 2 8 0) 0)
                     (with_utcoffset (of_date 2024 5 4 8 0) 0) "motorista"))
    as [msg Hmsg].
  - exists (trip_data (sample_request "vuc-01" "mot-01" (of_date 2024 5 1 8 0) 900)
              "0a1b2c3d" (of_date 2024 5 3 8 0) 2).
    split; [apply (list_elem_of_lookup_2 _ 0%nat); reflexivity|].
    split; [reflexivity|]. split; reflexivity.
  - vm_compute in Hmsg. discriminate Hmsg.
Qed.

(** C2, amended. Overlap semantics of the availability check, for every
    resource, window and trip list: a reported conflict is that of the
    first trip in storage order, of that resource (the vehicle for
    ["veiculo"], the driver otherwise), with [start < tripEnd] and
    [end > tripStart], and its message gives the bounds of that trip; a
    reported availability means that no trip of the resource overlaps the
    window; when the dates of the resource's trips can be ordered against
    the window (all naive, or all aware), the check answers, and a
    conflict is reported exactly when some trip of the resource overlaps;
    a window that only touches a trip's boundary does not conflict with
    it. *)
Theorem check_availability_overlap_semantics
    (trips : list Trip.t) (resource_id : string) (start end_ : datetime)
    (resource_type : string) :
  let answer := check_availability trips resource_id start end_ resource_type in
  (forall msg, answer = Ok (false, msg) ->
     exists pre trip post,
       trips = pre ++ trip :: post /\
       Forall (fun t => ~ conflicting resource_type resource_id start end_ t) pre /\
       conflicting resource_type resource_id start end_ trip /\
       reports_window msg trip /\
       (is_ascii resource_type = true -> msg = conflict_message resource_type trip)) /\
  (forall msg, answer = Ok (true, msg) ->
     msg = "Disponível" /\
     forall trip, trip ∈ trips -> ~ conflicting resource_type resource_id start end_ trip) /\
  (forallb (comparable_dates resource_type resource_id start end_) trips = true ->
   (exists ok msg, answer = Ok (ok, msg)) /\
   ((exists msg, answer = Ok (false, msg)) <->
    (exists trip, trip ∈ trips /\ conflicting resource_type resource_id start end_ trip)) /\
   (answer = Ok (true, "Disponível") <->
    (forall trip, trip ∈ trips -> ~ conflicting resource_type resource_id start end_ trip))) /\
  (forall trip msg,
     instant start = instant (Trip.data_fim trip) \/
     instant end_ = instant (Trip.data_inicio trip) ->
     ~ conflicting resource_type resource_id start end_ trip /\
     check_availability [trip] resource_id start end_ resource_type <> Ok (false, msg)) /\
  (forall trip,
     trip_resource_id "veiculo" trip = Trip.veiculo_id trip /\
     trip_resource_id "motorista" trip = Trip.motorista_id trip).
Proof.
  intros answer. split; [|split; [|split; [|split]]].
  - intros msg (pre & trip & post & Heq & Hpre & Hc & ->)%check_availability_reported.
    exists pre, trip, post. repeat split; try assumption; try apply Hc.
    now exists (capitalize resource_type).
  - intros msg [-> Hnone]%check_availability_passed. split; [reflexivity|].
    intros trip Hin [Hres Hcf]. now apply (Hnone trip Hin Hres).
  - intros Hcmp.
    pose proof (check_availability_first resource_id start end_ resource_type trips Hcmp)
      as Hfirst.
    fold answer in Hfirst. split; [|split; split].
    + destruct Hfirst as [[Hok _]|(pre & trip & post & _ & _ & _ & Hans)]; eauto.
    + intros [msg Hmsg].
      destruct Hfirst as [[Hok _]|(pre & trip & post & -> & _ & Hc & _)];
        [congruence|].
      exists trip. split; [|assumption]. apply elem_of_app. right. left.
    + intros (trip & Hin & Hc).
      destruct Hfirst as [[_ Hnone]|(pre & t & post & _ & _ & _ & Hans)].
      * rewrite Forall_forall in Hnone. now elim (Hnone trip Hin).
      * eauto.
    + intros Hans trip Hin.
      destruct Hfirst as [[_ Hnone]|(pre & t & post & _ & _ & _ & Hans')];
        [|congruence].
      rewrite Forall_forall in Hnone. now apply Hnone.
    + intros Hnone.
      destruct Hfirst as [[Hok _]|(pre & trip & post & -> & _ & Hc & _)];
        [assumption|].
      elim (Hnone trip); [|assumption]. apply elem_of_app. right. left.
  - intros trip msg Htouch. split.
    + intros [_ [H1 H2]]. lia.
    + cbn. destruct (String.eqb _ _); [|discriminate].
      destruct (window_overlaps start end_ trip) as [[|]|e] eqn:Hw; cbn; try discriminate.
      apply window_overlaps_true in Hw as [H1 H2]. lia.
  - intros trip. split; reflexivity.
Qed.

Lemma check_availability_overlap_witness :
  check_availability (db_trips booked_twice) "vuc-01"
    (of_date 2024 5 2 8 0) (of_date 2024 5 4 8 0) "veiculo"
  = Ok (false, "Veiculo já reservado de 01/05 08:00 até 03/05 08:00") /\
  (exists trip, trip ∈ db_trips booked_twice /\
     conflicting "veiculo" "vuc-01" (of_date 2024 5 2 8 0) (of_date 2024 5 4 8 0) trip) /\
  (exists pre trip post,
     db_trips booked_twice = pre ++ trip :: post /\
     Forall (fun t => ~ conflicting "veiculo" "vuc-01"
                          (of_date 2024 5 2 8 0) (of_date 2024 5 4 8 0) t) pre /\
     conflicting "veiculo" "vuc-01" (of_date 2024 5 2 8 0) (of_date 2024 5 4 8 0) trip /\
     reports_window "Veiculo já reservado de 01/05 08:00 até 03/05 08:00" trip /\
     (is_ascii "veiculo" = true ->
      "Veiculo já reservado de 01/05 08:00 até 03/05 08:00"
        = conflict_message "veiculo" trip)).
Proof.
  pose proof (check_availability_overlap_semantics (db_trips booked_twice) "vuc-01"
                (of_date 2024 5 2 8 0) (of_date 2024 5 4 8 0) "veiculo")
    as (Hreported & _ & Hordered & _).
  split; [vm_compute; reflexivity|]. split.
  - apply (proj1 (proj1 (proj2 (Hordered eq_refl)))).
    eexists. vm_compute. reflexivity.
  - apply Hreported. vm_compute. reflexivity.
Defined.

(** ** Bookings: order of the checks, atomicity, unknown identifiers *)

Lemma booked_trucks trip new_id data_fim dias s :
  db_trucks (booked trip new_id data_fim dias s) =
    match db_trucks s !! TripCreate.veiculo_id trip with
    | Some v => <[TripCreate.veiculo_id trip := Truck.set_status "Agendado" v]> (db_trucks s)
    | None => db_trucks s
    end.
Proof.
  unfold booked, book_driver, book_truck; cbn.
  destruct (db_trucks s !! TripCreate.veiculo_id trip); cbn;
    destruct (db_drivers s !! TripCreate.motorista_id trip); reflexivity.
Qed.

Lemma booked_drivers trip new_id data_fim dias s :
  db_drivers (booked trip new_id data_fim dias s) =
    match db_drivers s !! TripCreate.motorista_id trip with
    | Some d => <[TripCreate.motorista_id trip := Driver.set_status "Agendado" d]> (db_drivers s)
    | None => db_drivers s
    end.
Proof.
  unfold booked, book_driver, book_truck; cbn.
  destruct (db_trucks s !! TripCreate.veiculo_id trip); cbn;
    destruct (db_drivers s !! TripCreate.motorista_id trip); reflexivity.
Qed.

(** C4. Atomicity and order of the checks of a booking: a call that raises
    leaves trips, vehicles and drivers as they were; a vehicle conflict is
    reported as a 409 whatever the driver's check would answer; a driver
    conflict is reported once the vehicle has passed; and the trip is
    stored, with both resources set to "Agendado", only when both checks
    passed. *)
Theorem book_trip_checks_then_writes (trip : TripCreate.t) (new_id : string) (s : db) :
  let start := TripCreate.data_inicio trip in
  let r := book_trip trip new_id s in
  (is_raise (fst r) = true -> snd r = s) /\
  (forall dias data_fim,
     booking_days (TripCreate.distancia_km trip) = Ok dias ->
     add_days start dias = Ok data_fim ->
     (forall truck_msg,
        check_availability (db_trips s) (TripCreate.veiculo_id trip) start data_fim "veiculo"
          = Ok (false, truck_msg) ->
        r = (Raise (HTTPException 409 ("Conflito: " +:+ truck_msg)), s)) /\
     (forall truck_msg driver_msg,
        check_availability (db_trips s) (TripCreate.veiculo_id trip) start data_fim "veiculo"
          = Ok (true, truck_msg) ->
        check_availability (db_trips s) (TripCreate.motorista_id trip) start data_fim "motorista"
          = Ok (false, driver_msg) ->
        r = (Raise (HTTPException 409 ("Conflito: " +:+ driver_msg)), s)) /\
     (forall truck_msg driver_msg,
        check_availability (db_trips s) (TripCreate.veiculo_id trip) start data_fim "veiculo"
          = Ok (true, truck_msg) ->
        check_availability (db_trips s) (TripCreate.motorista_id trip) start data_fim "motorista"
          = Ok (true, driver_msg) ->
        r = (Ok (BookResponse.mk "Viagem reservada!" new_id data_fim),
             booked trip new_id data_fim dias s))) /\
  (forall resp,
     fst r = Ok resp ->
     exists dias data_fim truck_msg driver_msg,
       booking_days (TripCreate.distancia_km trip) = Ok dias /\
       add_days start dias = Ok data_fim /\
       check_availability (db_trips s) (TripCreate.veiculo_id trip) start data_fim "veiculo"
         = Ok (true, truck_msg) /\
       check_availability (db_trips s) (TripCreate.motorista_id trip) start data_fim "motorista"
         = Ok (true, driver_msg) /\
       db_trips (snd r) = db_trips s ++ [trip_data trip new_id data_fim dias] /\
       db_trucks (snd r) !! TripCreate.veiculo_id trip
         = Truck.set_status "Agendado" <$> db_trucks s !! TripCreate.veiculo_id trip /\
       db_drivers (snd r) !! TripCreate.motorista_id trip
         = Driver.set_status "Agendado" <$> db_drivers s !! TripCreate.motorista_id trip).
Proof.
  intros start r. subst start r. split; [apply book_trip_raise_unchanged|]. split.
  - intros dias data_fim Hd He.
    pose proof (book_trip_outcome trip new_id s) as Hout.
    repeat split.
    + intros truck_msg Hv. inversion Hout; congruence.
    + intros truck_msg driver_msg Hv Hm. inversion Hout; congruence.
    + intros truck_msg driver_msg Hv Hm. inversion Hout; congruence.
  - intros resp Hresp.
    destruct (book_trip_ok_inv trip new_id s resp Hresp)
      as (dias & data_fim & truck_msg & driver_msg & Hd & He & Hv & Hm & _ & Hs).
    exists dias, data_fim, truck_msg, driver_msg.
    rewrite Hs, booked_trips, booked_trucks, booked_drivers.
    repeat split; try assumption.
    + destruct (db_trucks s !! TripCreate.veiculo_id trip) eqn:Hl; cbn.
      * apply lookup_insert_eq.
      * assumption.
    + destruct (db_drivers s !! TripCreate.motorista_id trip) eqn:Hl; cbn.
      * apply lookup_insert_eq.
      * assumption.
Qed.

(** The booked vehicle with the driver of the naive trip, on aware dates:
    the vehicle's conflict is reported, and the driver's check, which
    could only raise [TypeError], is not run. *)
Lemma book_trip_checks_then_writes_witness :
  book_trip (sample_request "carreta-01" "mot-01"
               (with_utcoffset (of_date 2024 5 2 8 0) 0) 900) "3344ccdd" mixed_bookings
    = (Raise (HTTPException 409
                "Conflito: Veiculo já reservado de 01/05 08:00 até 03/05 08:00"),
       mixed_bookings) /\
  check_availability (db_trips mixed_bookings) "mot-01"
    (with_utcoffset (of_date 2024 5 2 8 0) 0) (with_utcoffset (of_date 2024 5 4 8 0) 0)
    "motorista" = Raise TypeError.
Proof.
  split; [|vm_compute; reflexivity].
  apply (proj1 (proj1 (proj2 (book_trip_checks_then_writes
                                (sample_request "carreta-01" "mot-01"
                                   (with_utcoffset (of_date 2024 5 2 8 0) 0) 900)
                                "3344ccdd" mixed_bookings))
                 2 (with_utcoffset (of_date 2024 5 4 8 0) 0) eq_refl eq_refl)
         "Veiculo já reservado de 01/05 08:00 até 03/05 08:00").
  vm_compute. reflexivity.
Defined.



(** ** Facts on binary64 arithmetic *)

(** Rounding a non-zero mantissa at an exponent of at least [emin]
    never gives a zero; the lemmas follow the definitions of [SpecFloat]. *)
Lemma digits2_pos_size p : digits2_pos p = Pos.size p.
Proof. induction p; cbn; congruence. Qed.

Lemma digits2_pos_bounds p :
  2 ^ (Z.pos (digits2_pos p) - 1) <= Z.pos p < 2 ^ Z.pos (digits2_pos p).
Proof.
  rewrite digits2_pos_size. split.
  - pose proof (Pos.size_le p) as H.
    assert (Hz : (2 ^ Z.pos (Pos.size p) <= 2 * Z.pos p)).
    { change 2 with (Z.pos 2) at 1. rewrite <- Pos2Z.inj_pow. lia. }
    replace (Z.pos (Pos.size p)) with (Z.succ (Z.pos (Pos.size p) - 1)) in Hz by lia.
    rewrite Z.pow_succ_r in Hz by lia. lia.
  - pose proof (Pos.size_gt p) as H.
    change 2 with (Z.pos 2). rewrite <- Pos2Z.inj_pow. lia.
Qed.

Lemma shr_1_m mrs : 0 <= shr_m mrs -> shr_m (shr_1 mrs) = shr_m mrs / 2.
Proof.
  destruct mrs as [m r s]; cbn. intros Hm.
  destruct m as [|[p|p|]|p]; cbn; try reflexivity; try lia.
  - rewrite Pos2Z.inj_xI. apply Z.div_unique with 1; lia.
  - rewrite Pos2Z.inj_xO. apply Z.div_unique with 0; lia.
Qed.

Lemma iter_shr_1_m p : forall mrs,
  0 <= shr_m mrs -> shr_m (SpecFloat.iter_pos shr_1 p mrs) = shr_m mrs / 2 ^ Z.pos p.
Proof.
  induction p as [p IH|p IH|]; intros mrs Hm; cbn [SpecFloat.iter_pos].
  - assert (H1 : 0 <= shr_m (shr_1 mrs)) by (rewrite shr_1_m by lia; apply Z.div_pos; lia).
    assert (H2 : 0 <= shr_m (SpecFloat.iter_pos shr_1 p (shr_1 mrs)))
      by (rewrite IH by lia; apply Z.div_pos; lia).
    rewrite IH, IH, shr_1_m by lia.
    rewrite !Z.div_div by lia. f_equal.
    replace (Z.pos p~1) with (1 + Z.pos p + Z.pos p) by lia.
    rewrite !Z.pow_add_r by lia. change (2 ^ 1) with 2. lia.
  - assert (H2 : 0 <= shr_m (SpecFloat.iter_pos shr_1 p mrs))
      by (rewrite IH by lia; apply Z.div_pos; lia).
    rewrite IH, IH by lia. rewrite Z.div_div by lia. f_equal.
    replace (Z.pos p~0) with (Z.pos p + Z.pos p) by lia.
    rewrite Z.pow_add_r by lia. reflexivity.
  - rewrite shr_1_m by lia. reflexivity.
Qed.

Lemma shr_record_of_loc_m m l : shr_m (shr_record_of_loc m l) = m.
Proof. now destruct l as [|[| |]]. Qed.

Lemma fexp_value e : fexp prec emax e = Z.max (e - 53) (-1074).
Proof. reflexivity. Qed.

Lemma Zdigits2_bounds m :
  0 < m -> 0 < Zdigits2 m /\ 2 ^ (Zdigits2 m - 1) <= m.
Proof.
  destruct m as [|p|p]; try lia. intros _. cbn. split; [lia|]. apply digits2_pos_bounds.
Qed.

Lemma shr_fexp_positive m e l :
  0 < m -> -1074 <= e ->
  0 < shr_m (fst (shr_fexp prec emax m e l)) /\ -1074 <= snd (shr_fexp prec emax m e l).
Proof.
  intros Hm He. unfold shr_fexp, shr. rewrite fexp_value.
  destruct (Zdigits2_bounds m Hm) as [Hd Hpow].
  destruct (Z.max (Zdigits2 m + e - 53) (-1074) - e) as [|p|p] eqn:Hn; cbn [fst snd].
  - rewrite shr_record_of_loc_m. lia.
  - rewrite iter_shr_1_m by (rewrite shr_record_of_loc_m; lia).
    rewrite shr_record_of_loc_m. split; [|lia].
    assert (Hp : Z.pos p = Zdigits2 m - 53) by lia.
    apply Z.div_str_pos. split; [apply Z.pow_pos_nonneg; lia|].
    transitivity (2 ^ (Zdigits2 m - 1)); [|assumption].
    apply Z.pow_le_mono_r; lia.
  - rewrite shr_record_of_loc_m. lia.
Qed.

Lemma round_nearest_even_ge m l : m <= round_nearest_even m l.
Proof. destruct l as [|[| |]]; cbn; try lia. destruct (Z.even m); lia. Qed.

Lemma binary_round_aux_not_zero sx mx ex lx s :
  0 < mx -> -1074 <= ex -> binary_round_aux prec emax sx mx ex lx <> S754_zero s.
Proof.
  intros Hm He. unfold binary_round_aux.
  pose proof (shr_fexp_positive mx ex lx Hm He) as [H1 H1e].
  destruct (shr_fexp prec emax mx ex lx) as [mrs' e']. cbn [fst snd] in H1, H1e.
  pose proof (round_nearest_even_ge (shr_m mrs') (loc_of_shr_record mrs')) as Hr.
  pose proof (shr_fexp_positive (round_nearest_even (shr_m mrs') (loc_of_shr_record mrs'))
                e' loc_Exact ltac:(lia) H1e) as [H2 _].
  destruct (shr_fexp prec emax _ e' loc_Exact) as [mrs'' e'']. cbn [fst] in H2.
  destruct (shr_m mrs''); try lia. now destruct (_ <=? _).
Qed.

Lemma binary_round_not_zero sx mx ex s :
  -1074 <= ex -> binary_round prec emax sx mx ex <> S754_zero s.
Proof.
  intros He. unfold binary_round, shl_align. rewrite fexp_value.
  destruct (Z.max (Z.pos (digits2_pos mx) + ex - 53) (-1074) - ex) eqn:Hn;
    apply binary_round_aux_not_zero; lia.
Qed.

Lemma valid_finite_bounds s m e :
  valid_binary (S754_finite s m e) = true ->
  Z.max (Z.pos (digits2_pos m) + e - 53) (-1074) = e.
Proof.
  cbn. unfold bounded, canonical_mantissa. rewrite fexp_value.
  intros [H _]%andb_prop. now apply Z.eqb_eq in H.
Qed.

Lemma pos_iter_xO m d : Z.pos (Pos.iter xO m d) = Z.pos m * 2 ^ Z.pos d.
Proof.
  revert m. induction d using Pos.peano_ind; intros m.
  - cbn. lia.
  - rewrite Pos.iter_succ, Pos2Z.inj_xO, IHd, Pos2Z.inj_succ, Z.pow_succ_r by lia. lia.
Qed.

Lemma SFeqb_zero_false x :
  (forall s, x <> S754_zero s) -> SFeqb x (S754_zero false) = false.
Proof.
  intros H. destruct x as [s|s| |s m e]; try reflexivity.
  - now elim (H s).
  - now destruct s.
  - now destruct s.
Qed.

Lemma binary_normalize_zero_iff d e :
  -1074 <= e ->
  SFeqb (binary_normalize prec emax d e false) (S754_zero false) = (d =? 0).
Proof.
  intros He. destruct d as [|p|p]; cbn [binary_normalize]; [reflexivity| |];
    apply SFeqb_zero_false; intros s; now apply binary_round_not_zero.
Qed.

Lemma compare_cont_Eq_iff p q : PosDef.Pos.compare_cont Eq p q = Eq <-> p = q.
Proof. apply Pos.compare_eq_iff. Qed.

(** [1 - m] is a zero exactly when [m] is 1. *)
Lemma one_minus_zero_iff (m : float) :
  PrimFloat.eqb (1 - m) 0 = PrimFloat.eqb m 1.
Proof.
  rewrite !FloatAxioms.eqb_spec, FloatAxioms.sub_spec.
  pose proof (Prim2SF_valid m) as Hvalid.
  change (Prim2SF 1) with (S754_finite false 4503599627370496 (-52)).
  change (Prim2SF 0) with (S754_zero false).
  destruct (Prim2SF m) as [s|s| |s mm e]; try (destruct s; reflexivity); try reflexivity.
  pose proof (valid_finite_bounds s mm e Hvalid) as Hcanon.
  pose proof (digits2_pos_bounds mm) as Hdig.
  unfold SF64sub, SFsub.
  rewrite binary_normalize_zero_iff by lia.
  unfold shl_align.
  assert (H52 : 2 ^ 52 = 4503599627370496) by reflexivity.
  destruct s; cbn [cond_Zopp].
  - (* a negative [m] *)
    transitivity false; [|reflexivity]. apply Z.eqb_neq.
    destruct (Z.min (-52) e - -52); destruct (Z.min (-52) e - e); cbn [fst]; lia.
  - destruct (Z.compare_spec e (-52)) as [He|He|He].
    + subst e. change (IntDef.Z.min (-52) (-52) - -52) with 0. cbv iota. cbn [fst].
      unfold SFeqb, SFcompare. rewrite Z.compare_refl.
      destruct (Pos.eq_dec mm 4503599627370496%positive) as [->|Hne].
      * rewrite Z.sub_diag, (proj2 (compare_cont_Eq_iff _ _) eq_refl). reflexivity.
      * destruct (PosDef.Pos.compare_cont Eq mm 4503599627370496) eqn:Hc;
          [now apply compare_cont_Eq_iff in Hc | |]; apply Z.eqb_neq; lia.
    + replace (Z.min (-52) e) with e by lia. rewrite Z.sub_diag. cbn [fst].
      assert (Hcmp : SFeqb (S754_finite false mm e) (S754_finite false 4503599627370496 (-52))
                     = false).
      { unfold SFeqb, SFcompare. apply Z.compare_lt_iff in He. now rewrite He. }
      rewrite Hcmp. apply Z.eqb_neq.
      destruct (e - -52) as [|d|d] eqn:Hd; try lia. cbn [fst].
      rewrite pos_iter_xO.
      assert (Hmm : Z.pos mm < 2 ^ 53).
      { eapply Z.lt_le_trans; [apply Hdig|]. apply Z.pow_le_mono_r; lia. }
      assert (2 ^ 1 <= 2 ^ Z.pos d) by (apply Z.pow_le_mono_r; lia).
      change (2 ^ 53) with 9007199254740992 in Hmm. change (2 ^ 1) with 2 in *. nia.
    + replace (Z.min (-52) e) with (-52) by lia. rewrite Z.sub_diag. cbn [fst].
      assert (Hcmp : SFeqb (S754_finite false mm e) (S754_finite false 4503599627370496 (-52))
                     = false).
      { unfold SFeqb, SFcompare. apply Z.compare_gt_iff in He. now rewrite He. }
      rewrite Hcmp. apply Z.eqb_neq.
      destruct (-52 - e) as [|d|d] eqn:Hd; try lia. cbn [fst].
      rewrite pos_iter_xO.
      assert (Hd53 : Z.pos (digits2_pos mm) = 53) by lia.
      rewrite Hd53 in Hdig. change (2 ^ (53 - 1)) with 4503599627370496 in Hdig.
      assert (2 ^ 1 <= 2 ^ Z.pos d) by (apply Z.pow_le_mono_r; lia).
      change (2 ^ 1) with 2 in *. nia.
Qed.

(** *** Division by 8 *)

Lemma valid_finite_cases s m e :
  valid_binary (S754_finite s m e) = true ->
  e <= 971 /\ Z.pos (digits2_pos m) <= 53 /\
  (Z.pos (digits2_pos m) = 53 /\ -1074 <= e \/ e = -1074).
Proof.
  intros H. pose proof (valid_finite_bounds s m e H) as Hc.
  cbn in H. unfold bounded in H. apply andb_prop in H as [_ H%Z.leb_le].
  change (emax - prec) with 971 in H. lia.
Qed.

Lemma div_eucl_pow2 m k j :
  0 <= j <= k -> Z.div_eucl (Z.pos m * 2 ^ k) (2 ^ j) = (Z.pos m * 2 ^ (k - j), 0).
Proof.
  intros Hj.
  assert (Hpos : 0 < 2 ^ j) by (apply Z.pow_pos_nonneg; lia).
  assert (Heq : Z.pos m * 2 ^ k = 2 ^ j * (Z.pos m * 2 ^ (k - j)) + 0).
  { replace k with (j + (k - j)) at 1 by lia. rewrite Z.pow_add_r by lia. lia. }
  pose proof (Z.div_eucl_eq (Z.pos m * 2 ^ k) (2 ^ j) ltac:(lia)) as Hd.
  pose proof (Z.mod_pos_bound (Z.pos m * 2 ^ k) (2 ^ j) Hpos) as Hm.
  unfold Z.modulo in Hm.
  destruct (Z.div_eucl (Z.pos m * 2 ^ k) (2 ^ j)) as [q r].
  assert (r = 0 /\ q = Z.pos m * 2 ^ (k - j)) as [-> ->]; [|reflexivity].
  assert (Hr : 2 ^ j * (Z.pos m * 2 ^ (k - j) - q) = r) by lia.
  assert (Z.pos m * 2 ^ (k - j) - q = 0) by nia. lia.
Qed.

Lemma two52_value : Z.pos two52 = 2 ^ 52.
Proof. reflexivity. Qed.

Lemma two52_digits : Zdigits2 (Z.pos two52) = 53.
Proof. reflexivity. Qed.

Lemma new_location_exact : new_location (Z.pos two52) 0 = loc_Exact.
Proof. reflexivity. Qed.

(** The core of a division by 8: the quotient of the mantissa shifted
    left by [shift] bits by [2 ^ 52]. *)
Lemma div_core_8 m e :
  let e' := Z.min (Z.max (Z.pos (digits2_pos m) + e - 57) (-1074)) (e + 49) in
  0 < e + 49 - e' ->
  SFdiv_core_binary prec emax (Z.pos m) e (Z.pos two52) (-49) =
    let '(q, r) := Z.div_eucl (Z.pos m * 2 ^ (e + 49 - e')) (2 ^ 52) in
    (q, e', new_location (Z.pos two52) r).
Proof.
  intros e' Hs. unfold SFdiv_core_binary.
  rewrite two52_digits, fexp_value. cbn [Zdigits2].
  replace (Z.pos (digits2_pos m) + e - (53 + -49) - 53)
    with (Z.pos (digits2_pos m) + e - 57) by lia.
  replace (e - -49) with (e + 49) by lia. fold e'.
  destruct (e + 49 - e') as [|p|p] eqn:Hp; try lia.
  rewrite Z.shiftl_mul_pow2 by lia. rewrite two52_value. reflexivity.
Qed.

Lemma shr_fexp_exact_1 m e :
  Z.pos (digits2_pos m) = 53 -> -1074 <= e + 1 ->
  shr_fexp prec emax (Z.pos m~0) e loc_Exact = (Build_shr_record (Z.pos m) false false, e + 1).
Proof.
  intros Hd He. unfold shr_fexp, shr. rewrite fexp_value. cbn [Zdigits2 digits2_pos].
  rewrite Pos2Z.inj_succ, Hd.
  replace (Z.max (Z.succ 53 + e - 53) (-1074) - e) with 1 by lia.
  reflexivity.
Qed.

Lemma shr_fexp_exact_0 m e l :
  Z.pos (digits2_pos m) <= 53 -> Z.pos (digits2_pos m) = 53 /\ -1074 <= e \/ e = -1074 ->
  shr_fexp prec emax (Z.pos m) e l = (shr_record_of_loc (Z.pos m) l, e).
Proof.
  intros Hd He. unfold shr_fexp, shr. rewrite fexp_value. cbn [Zdigits2].
  replace (Z.max (Z.pos (digits2_pos m) + e - 53) (-1074) - e) with 0 by lia.
  reflexivity.
Qed.

Lemma SFdiv8_exact s m e :
  Z.pos (digits2_pos m) = 53 -> -1070 <= e <= 971 ->
  SFdiv prec emax (S754_finite s m e) (S754_finite false two52 (-49))
    = S754_finite s m (e - 3).
Proof.
  intros Hd He. unfold SFdiv. rewrite xorb_false_r.
  pose proof (div_core_8 m e) as Hcore. cbv zeta in Hcore. rewrite Hd in Hcore.
  replace (Z.min (Z.max (53 + e - 57) (-1074)) (e + 49)) with (e - 4) in Hcore by lia.
  replace (e + 49 - (e - 4)) with 53 in Hcore by lia.
  rewrite (div_eucl_pow2 m 53 52) in Hcore by lia.
  rewrite Hcore by lia. rewrite new_location_exact.
  replace (Z.pos m * 2 ^ (53 - 52)) with (Z.pos m~0) by (change (2 ^ (53 - 52)) with 2; lia).
  unfold binary_round_aux.
  rewrite shr_fexp_exact_1 by lia. cbn [shr_m loc_of_shr_record round_nearest_even].
  replace (e - 4 + 1) with (e - 3) by lia.
  rewrite shr_fexp_exact_0 by lia. cbn [shr_m shr_record_of_loc].
  change (emax - prec) with 971.
  destruct (Z.leb_spec (e - 3) 971); [reflexivity | lia].
Qed.

Lemma loc_of_shr_record_of_loc m l : loc_of_shr_record (shr_record_of_loc m l) = l.
Proof. now destruct l as [|[| |]]. Qed.

Lemma round_nearest_even_le m l : round_nearest_even m l <= m + 1.
Proof. destruct l as [|[| |]]; cbn; try lia. destruct (Z.even m); lia. Qed.

Lemma Zdigits2_le_53 q : 0 <= q < 2 ^ 53 -> Zdigits2 q <= 53.
Proof.
  destruct q as [|p|p]; cbn; try lia. intros [_ Hq].
  pose proof (digits2_pos_bounds p) as [Hlow _].
  destruct (Z_le_gt_dec (Z.pos (digits2_pos p)) 53) as [|Hgt]; [assumption|].
  assert (2 ^ 53 <= 2 ^ (Z.pos (digits2_pos p) - 1)) by (apply Z.pow_le_mono_r; lia).
  lia.
Qed.

Lemma shr_fexp_subnormal q l :
  0 <= q < 2 ^ 53 ->
  shr_fexp prec emax q (-1074) l = (shr_record_of_loc q l, -1074).
Proof.
  intros Hq. pose proof (Zdigits2_le_53 q Hq) as Hd.
  assert (0 <= Zdigits2 q) by (destruct q; cbn; lia).
  unfold shr_fexp, shr. rewrite fexp_value.
  replace (Z.max (Zdigits2 q + -1074 - 53) (-1074) - -1074) with 0 by lia.
  reflexivity.
Qed.

Lemma binary_round_aux_small s q l :
  0 <= q < 2 ^ 53 -> small_result s (binary_round_aux prec emax s q (-1074) l).
Proof.
  intros Hq. unfold binary_round_aux.
  rewrite shr_fexp_subnormal by assumption.
  rewrite shr_record_of_loc_m, loc_of_shr_record_of_loc.
  pose proof (round_nearest_even_ge q l) as Hge.
  pose proof (round_nearest_even_le q l) as Hle.
  destruct (Z_lt_le_dec (round_nearest_even q l) (2 ^ 53)) as [Hlt|Hbig].
  - rewrite shr_fexp_subnormal by lia. rewrite shr_record_of_loc_m.
    destruct (round_nearest_even q l) as [|p|p] eqn:Hr; try lia.
    + now left.
    + right. exists p, (-1074). repeat split; try lia.
  - assert (Hr : round_nearest_even q l = 2 ^ 53) by lia.
    rewrite Hr. right. exists two52, (-1073).
    split; [reflexivity|]. split; [lia|]. vm_compute. discriminate.
Qed.

Lemma SFdiv8_small s m e :
  Z.pos (digits2_pos m) <= 53 -> -1074 <= e <= -1071 ->
  small_result s (SFdiv prec emax (S754_finite s m e) (S754_finite false two52 (-49))).
Proof.
  intros Hd He. unfold SFdiv. rewrite xorb_false_r.
  pose proof (div_core_8 m e) as Hcore. cbv zeta in Hcore.
  assert (Hd0 : 0 < Z.pos (digits2_pos m)) by lia.
  replace (Z.min (Z.max (Z.pos (digits2_pos m) + e - 57) (-1074)) (e + 49))
    with (-1074) in Hcore by lia.
  rewrite Hcore by lia. clear Hcore.
  pose proof (digits2_pos_bounds m) as [_ Hm].
  assert (Hm53 : Z.pos m < 2 ^ 53).
  { eapply Z.lt_le_trans; [exact Hm|]. apply Z.pow_le_mono_r; lia. }
  assert (Hs : 2 ^ (e + 49 - -1074) <= 2 ^ 52) by (apply Z.pow_le_mono_r; lia).
  assert (Hs0 : 0 < 2 ^ (e + 49 - -1074)) by (apply Z.pow_pos_nonneg; lia).
  assert (Hq : 0 <= (Z.pos m * 2 ^ (e + 49 - -1074)) / 2 ^ 52 < 2 ^ 53).
  { split.
    - apply Z.div_pos; [|reflexivity]. apply Z.mul_nonneg_nonneg; lia.
    - apply Z.div_lt_upper_bound; [reflexivity|].
      generalize dependent (2 ^ (e + 49 - -1074)). intros x Hx Hx0.
      change (2 ^ 52) with 4503599627370496 in *.
      change (2 ^ 53) with 9007199254740992 in *. nia. }
  unfold Z.div in Hq.
  destruct (Z.div_eucl (Z.pos m * 2 ^ (e + 49 - -1074)) (2 ^ 52)) as [q r].
  now apply binary_round_aux_small.
Qed.

Lemma Qceiling_unit_pos q : (0 < q)%Q -> (q <= 1)%Q -> Qceiling q = 1.
Proof.
  intros Hpos Hle.
  pose proof (Qle_ceiling q) as Hup. pose proof (Qceiling_lt q) as Hlow.
  assert (H1 : (inject_Z 0 < inject_Z (Qceiling q))%Q) by (eapply Qlt_le_trans; eassumption).
  assert (H2 : (inject_Z (Qceiling q - 1) < inject_Z 1)%Q) by (eapply Qlt_le_trans; eassumption).
  rewrite <- Zlt_Qlt in H1, H2. lia.
Qed.

Lemma Qceiling_unit_neg q : (- (1) < q)%Q -> (q <= 0)%Q -> Qceiling q = 0.
Proof.
  intros Hlow Hle.
  pose proof (Qle_ceiling q) as Hup. pose proof (Qceiling_lt q) as Hlt.
  assert (H1 : (inject_Z (-1) < inject_Z (Qceiling q))%Q) by (eapply Qlt_le_trans; eassumption).
  assert (H2 : (inject_Z (Qceiling q - 1) < inject_Z 0)%Q) by (eapply Qlt_le_trans; eassumption).
  rewrite <- Zlt_Qlt in H1, H2. lia.
Qed.

(** A power of two with a negative exponent. *)
Lemma Qpower_2_neg e : e <= 0 -> (Qpower (2 # 1) e == / inject_Z (2 ^ (- e)))%Q.
Proof.
  intros He. replace e with (- (- e)) at 1 by lia.
  rewrite Qpower_opp. apply Qinv_comp.
  rewrite Zpower_Qpower by lia. reflexivity.
Qed.

(** The magnitude of a value with a negative exponent. *)
Lemma sf_value_pos_bounds m e :
  e <= 0 -> Z.pos m < 2 ^ (- e) ->
  (0 < PyNum.sf_value false m e)%Q /\ (PyNum.sf_value false m e < 1)%Q.
Proof.
  intros He Hm. unfold PyNum.sf_value. cbn [cond_Zopp].
  assert (Hp : 0 < 2 ^ (- e)) by (apply Z.pow_pos_nonneg; lia).
  assert (Hq : (0 < inject_Z (2 ^ (- e)))%Q) by (rewrite <- (Zlt_Qlt 0); exact Hp).
  rewrite Qpower_2_neg by assumption. split.
  - apply Qmult_lt_0_compat; [rewrite <- (Zlt_Qlt 0); lia|].
    now apply Qinv_lt_0_compat.
  - apply Qlt_shift_div_r; [assumption|].
    rewrite Qmult_1_l, <- Zlt_Qlt. assumption.
Qed.

Lemma sf_value_opp m e : (PyNum.sf_value true m e == - PyNum.sf_value false m e)%Q.
Proof. unfold PyNum.sf_value. cbn [cond_Zopp]. rewrite inject_Z_opp. ring. Qed.

(** A value of magnitude below 1 counts for one day at most. *)
Lemma sf_value_unit_ceiling s m e :
  e <= 0 -> Z.pos m < 2 ^ (- e) -> Z.max 1 (Qceiling (PyNum.sf_value s m e)) = 1.
Proof.
  intros He Hm.
  destruct (sf_value_pos_bounds m e He Hm) as [Hpos Hlt].
  destruct s.
  - rewrite sf_value_opp. rewrite Qceiling_unit_neg; [reflexivity| |].
    + now apply Qopp_lt_compat.
    + apply (Qopp_le_compat 0). now apply Qlt_le_weak.
  - rewrite Qceiling_unit_pos; [reflexivity|assumption|now apply Qlt_le_weak].
Qed.

Lemma sf_value_div_8 s m e : (PyNum.sf_value s m (e - 3) == PyNum.sf_value s m e / inject_Z 8)%Q.
Proof.
  unfold PyNum.sf_value. replace (e - 3) with (e + -3) by lia.
  rewrite Qpower_plus by discriminate.
  change (Qpower (2 # 1) (-3)) with (1 # 8)%Q. unfold Qdiv.
  change (/ inject_Z 8)%Q with (1 # 8)%Q. ring.
Qed.

Lemma sf_value_div_8_unit s m e :
  e <= -1071 -> Z.pos (digits2_pos m) <= 53 ->
  Z.max 1 (Qceiling (PyNum.sf_value s m e / inject_Z 8)) = 1.
Proof.
  intros He Hd. rewrite <- sf_value_div_8.
  apply sf_value_unit_ceiling; [lia|].
  pose proof (digits2_pos_bounds m) as [_ Hm].
  eapply Z.lt_le_trans; [exact Hm|]. apply Z.pow_le_mono_r; lia.
Qed.

(** A margin above 1 is not 1. *)
Lemma above_one_not_one (m : float) :
  PrimFloat.ltb 1 m = true -> PrimFloat.eqb m 1 = false.
Proof.
  rewrite FloatAxioms.ltb_spec, FloatAxioms.eqb_spec.
  change (Prim2SF 1) with (S754_finite false 4503599627370496 (-52)).
  unfold SFltb, SFeqb.
  destruct (Prim2SF m) as [s|s| |s mm e]; try (destruct s; reflexivity); try reflexivity.
  unfold SFcompare. destruct s; [reflexivity|].
  rewrite (Z.compare_antisym e (-52)).
  destruct (e ?= -52) eqn:He; cbn [CompOpp]; try reflexivity.
  destruct (PosDef.Pos.compare_cont Eq mm 4503599627370496) eqn:Hc; try reflexivity.
  apply compare_cont_Eq_iff in Hc as ->.
  rewrite (proj2 (compare_cont_Eq_iff _ _) eq_refl). discriminate.
Qed.

(** ** Quotes: the arithmetic *)

Lemma mul_int_2 x : PyNum.mul_int x 2 = Ok (x * 2)%float.
Proof. reflexivity. Qed.

Lemma truediv_int_8 x : PyNum.truediv_int x 8 = Ok (x / 8)%float.
Proof. reflexivity. Qed.

Lemma truediv_int_70 x : PyNum.truediv_int x 70 = Ok (x / 70)%float.
Proof. reflexivity. Qed.

(** [math.ceil] returns the ceiling of the exact value. *)
Lemma ceil_value x n :
  PyNum.ceil x = Ok n <-> exists q, PyNum.float_value x = Some q /\ n = Qceiling q.
Proof.
  unfold PyNum.ceil, PyNum.float_value. destruct (Prim2SF x); split.
  - intros [= <-]. exists 0%Q. split; reflexivity.
  - intros (q & [= <-] & ->). reflexivity.
  - discriminate.
  - intros (q & [=] & _).
  - discriminate.
  - intros (q & [=] & _).
  - intros [= <-]. eexists. split; reflexivity.
  - intros (q & [= <-] & ->). reflexivity.
Qed.

Lemma le_int_not_gt x n : PyNum.le_int x n = true -> PyNum.gt_int x n = false.
Proof.
  unfold PyNum.le_int, PyNum.gt_int. now destruct (PyNum.compare_int x n) as [[| |]|].
Qed.

Lemma quote_costs_inv settings payload vehicle_data distancia_km tempo_horas c :
  quote_costs settings payload vehicle_data distancia_km tempo_horas = Ok c ->
  Costs.distancia_km c = doubled (RouteRequest.ida_e_volta payload) distancia_km /\
  Costs.tempo_horas c = doubled (RouteRequest.ida_e_volta payload) tempo_horas /\
  trip_days (Costs.tempo_horas c) = Ok (Costs.dias_viagem c) /\
  PyNum.truediv (Costs.distancia_km c) (Truck.consumo vehicle_data)
    = Ok (Costs.litros_total c) /\
  refuel_stops (Costs.litros_total c) (Truck.tanque vehicle_data) = Ok (Costs.paradas c) /\
  Costs.custo_combustivel c =
    (Costs.litros_total c *
     or_default (RouteRequest.preco_diesel_personalizado payload)
                (Settings.PRECO_COMBUSTIVEL settings))%float /\
  (exists salario_dia,
     PyNum.truediv_int (Settings.SALARIO_MOTORISTA settings) (Settings.DIAS_UTEIS settings)
       = Ok salario_dia /\
     PyNum.mul_int salario_dia (Costs.dias_viagem c)
       = Ok (Costs.custo_salario_proporcional c)) /\
  PyNum.mul_int (if_not_none (RouteRequest.valor_diaria_personalizado payload)
                             (Settings.VALOR_DIARIA_PADRAO settings))
                (Costs.dias_viagem c) = Ok (Costs.custo_diarias c) /\
  Costs.custo_motorista_total c =
    (Costs.custo_salario_proporcional c + Costs.custo_diarias c)%float /\
  Costs.custo_total c = (Costs.custo_combustivel c + Costs.custo_motorista_total c)%float.
Proof.
  unfold quote_costs, doubled.
  assert (Hdouble :
    (if RouteRequest.ida_e_volta payload
     then d ← PyNum.mul_int distancia_km 2; h ← PyNum.mul_int tempo_horas 2; Ok (d, h)
     else Ok (distancia_km, tempo_horas))
    = Ok (if RouteRequest.ida_e_volta payload then (distancia_km * 2)%float else distancia_km,
          if RouteRequest.ida_e_volta payload then (tempo_horas * 2)%float else tempo_horas))
    by (destruct (RouteRequest.ida_e_volta payload); reflexivity).
  rewrite Hdouble; clear Hdouble. cbn -[trip_days refuel_stops].
  destruct (trip_days _) as [dias|] eqn:Hdias; cbn -[refuel_stops]; [|discriminate].
  destruct (PyNum.truediv _ _) as [litros|] eqn:Hlitros; cbn -[refuel_stops]; [|discriminate].
  destruct (refuel_stops _ _) as [paradas|] eqn:Hparadas; cbn; [|discriminate].
  destruct (PyNum.truediv_int _ _) as [salario_dia|] eqn:Hsal; cbn; [|discriminate].
  destruct (PyNum.mul_int salario_dia dias) as [custo_sal|] eqn:Hcs; cbn; [|discriminate].
  destruct (PyNum.mul_int (if_not_none _ _) dias) as [custo_diarias|] eqn:Hcd; cbn;
    [|discriminate].
  intros [= <-]; cbn. repeat split; try assumption. eauto.
Qed.

Lemma compute_quote_inv settings payload vehicle_data distancia_km tempo_horas
    geometry c_origem c_destino r :
  compute_quote settings payload vehicle_data distancia_km tempo_horas
    geometry c_origem c_destino = Ok r ->
  exists c divisor preco_venda,
    quote_costs settings payload vehicle_data distancia_km tempo_horas = Ok c /\
    PyNum.int_sub 1 (Settings.MARGEM_LUCRO settings) = Ok divisor /\
    PyNum.truediv (Costs.custo_total c) divisor = Ok preco_venda /\
    r = quote_response c preco_venda (preco_venda - Costs.custo_total c)%float
          vehicle_data geometry c_origem c_destino.
Proof.
  unfold compute_quote.
  destruct (quote_costs _ _ _ _ _) as [c|]; cbn; [|discriminate].
  destruct (PyNum.int_sub _ _) as [divisor|]; cbn; [|discriminate].
  destruct (PyNum.truediv _ _) as [preco_venda|] eqn:Hp; cbn; [|discriminate].
  intros [= <-]. exists c, divisor, preco_venda. repeat split. exact Hp.
Qed.

(** Dividing by 8 and taking the ceiling, as the program does on floats,
    gives the days of the exact quotient: the division is exact unless it
    underflows, and then both ceilings are at most 1. *)
Lemma ceil_div_8 (h : float) :
  match PyNum.float_value h with
  | Some q =>
      exists k, PyNum.ceil (h / 8) = Ok k /\
                Z.max 1 k = Z.max 1 (Qceiling (q / 8))
  | None => exists e, PyNum.ceil (h / 8) = Raise e
  end.
Proof.
  unfold PyNum.ceil, PyNum.float_value. rewrite FloatAxioms.div_spec.
  change (Prim2SF 8) with (S754_finite false two52 (-49)).
  pose proof (Prim2SF_valid h) as Hvalid.
  destruct (Prim2SF h) as [s|s| |s m e].
  - exists 0. split; [now destruct s | reflexivity].
  - eexists. reflexivity.
  - eexists. reflexivity.
  - apply valid_finite_cases in Hvalid as (Hmax & Hd & Hcase).
    unfold SF64div. destruct (Z_le_gt_dec (-1070) e) as [He|He].
    + rewrite SFdiv8_exact by lia. eexists. split; [reflexivity|].
      now rewrite sf_value_div_8.
    + assert (Hunit : Z.max 1 (Qceiling (PyNum.sf_value s m e / 8)) = 1)
        by (apply sf_value_div_8_unit; lia).
      rewrite Hunit.
      destruct (SFdiv8_small s m e Hd ltac:(lia)) as [->|(m' & e' & -> & He' & Hm')].
      * exists 0. split; reflexivity.
      * eexists. split; [reflexivity|].
        assert (Hpow : 0 < 2 ^ (e' + 1074)) by (apply Z.pow_pos_nonneg; lia).
        assert (He53 : e' + 1074 <= 53).
        { destruct (Z_le_gt_dec (e' + 1074) 53) as [|Hgt]; [assumption|].
          assert (2 ^ 54 <= 2 ^ (e' + 1074)) by (apply Z.pow_le_mono_r; lia).
          change (2 ^ 54) with (2 * 2 ^ 53) in *. nia. }
        apply sf_value_unit_ceiling; [lia|].
        assert (2 ^ 54 <= 2 ^ (- e')) by (apply Z.pow_le_mono_r; lia).
        change (2 ^ 54) with (2 * 2 ^ 53) in *. nia.
Qed.

Lemma trip_days_iff tempo_horas n :
  trip_days tempo_horas = Ok n <-> trip_days_spec tempo_horas n.
Proof.
  unfold trip_days, trip_days_spec. rewrite truediv_int_8. cbn.
  pose proof (ceil_div_8 tempo_horas) as Hceil.
  destruct (PyNum.float_value tempo_horas) as [q|].
  - destruct Hceil as (k & -> & Hk). cbn. rewrite Hk. split.
    + intros [= <-]. eauto.
    + now intros (q' & [= <-] & ->).
  - destruct Hceil as (e & ->). cbn. split; [discriminate|].
    now intros (q & [=] & _).
Qed.


Lemma refuel_stops_meets_spec litros_total tanque paradas :
  refuel_stops litros_total tanque = Ok paradas ->
  refuel_stops_spec litros_total tanque paradas.
Proof.
  unfold refuel_stops, refuel_stops_spec. intros H. split.
  - intros Hle%le_int_not_gt. rewrite Hle in H. congruence.
  - intros Hgt. rewrite Hgt in H.
    destruct (PyNum.sub_int _ _) as [over|]; cbn in H; [|discriminate].
    destruct (PyNum.truediv_int _ _) as [tanks|] eqn:Ht; cbn in H; [|discriminate].
    apply ceil_value in H as (q & Hq & ->).
    exists over, tanks, q. repeat split; assumption.
Qed.

(** ** Quotes: the claims *)

(** C5. Round-trip doubling: a round-trip quote on distance [D] and
    duration [H] is the one-way quote on [2D] and [2H]; the days, the fuel
    and the refuelling stops are derived from the doubled values. *)
Theorem round_trip_doubling (settings : Settings.t) (payload : RouteRequest.t)
    (vehicle_data : Truck.t) (distancia_km tempo_horas : float)
    (geometry : option (list (list float))) (c_origem c_destino : coords) :
  compute_quote settings (set_ida_e_volta true payload) vehicle_data
      distancia_km tempo_horas geometry c_origem c_destino
    = compute_quote settings (set_ida_e_volta false payload) vehicle_data
        (distancia_km * 2)%float (tempo_horas * 2)%float geometry c_origem c_destino /\
  (forall c,
     quote_costs settings (set_ida_e_volta true payload) vehicle_data
       distancia_km tempo_horas = Ok c ->
     trip_days (tempo_horas * 2)%float = Ok (Costs.dias_viagem c) /\
     PyNum.truediv (distancia_km * 2)%float (Truck.consumo vehicle_data)
       = Ok (Costs.litros_total c) /\
     refuel_stops (Costs.litros_total c) (Truck.tanque vehicle_data)
       = Ok (Costs.paradas c)).
Proof.
  split; [reflexivity|].
  intros c (Hd & Hh & Hdias & Hlitros & Hparadas & _)%quote_costs_inv.
  cbn in Hd, Hh. rewrite Hd in Hlitros. rewrite Hh in Hdias. auto.
Qed.

(** C6. Refuelling stops: when a quote is produced, with
    [fuelLiters = distanceKm / consumption], its count of stops is 0 when
    [fuelLiters <= tank] and [ceil((fuelLiters - tank) / tank)] when
    [fuelLiters > tank], the subtraction and the division being those of
    the floats and the ceiling that of the exact quotient; with a tank of
    150, 151 litres give 1 stop, 300 give 1 and 301 give 2. *)
Theorem refuel_stop_count (settings : Settings.t) (payload : RouteRequest.t)
    (vehicle_data : Truck.t) (distancia_km tempo_horas : float)
    (geometry : option (list (list float))) (c_origem c_destino : coords)
    (r : RouteResponse.t) :
  compute_quote settings payload vehicle_data distancia_km tempo_horas
    geometry c_origem c_destino = Ok r ->
  (exists fuel_liters,
     PyNum.truediv (doubled (RouteRequest.ida_e_volta payload) distancia_km)
                   (Truck.consumo vehicle_data) = Ok fuel_liters /\
     refuel_stops_spec fuel_liters (Truck.tanque vehicle_data)
       (FinancialBreakdown.paradas_abastecimento (RouteResponse.detalhes_financeiros r))) /\
  refuel_stops 151 150 = Ok 1 /\
  refuel_stops 300 150 = Ok 1 /\
  refuel_stops 301 150 = Ok 2.
Proof.
  intros (c & divisor & preco_venda & Hc & _ & _ & ->)%compute_quote_inv.
  apply quote_costs_inv in Hc as (Hd & _ & _ & Hlitros & Hparadas & _).
  split; [|repeat split; reflexivity].
  exists (Costs.litros_total c). rewrite <- Hd. split; [assumption|].
  cbn. now apply refuel_stops_meets_spec.
Qed.

Lemma refuel_stop_count_witness :
  exists r,
    compute_quote Settings.default (sample_quote_request false None None) sample_truck
      1806 24 None sample_origin sample_destination = Ok r /\
    FinancialBreakdown.paradas_abastecimento (RouteResponse.detalhes_financeiros r) = 2 /\
    refuel_stops_spec 301 150 2.
Proof.
  eexists. split; [vm_compute; reflexivity|]. split; [reflexivity|].
  destruct (refuel_stop_count Settings.default (sample_quote_request false None None)
              sample_truck 1806 24 None sample_origin sample_destination _ eq_refl)
    as [(fuel_liters & Hf & Hspec) _].
  vm_compute in Hf. injection Hf as <-. exact Hspec.
Defined.


(** The override of the fuel price is read with [or], that of the daily
    allowance with [is not None]. *)
Lemma or_default_truthy v default :
  PyNum.truthy v = true -> or_default (Some v) default = v.
Proof. unfold or_default. now intros ->. Qed.

Lemma or_default_zero default : or_default (Some 0%float) default = default.
Proof. reflexivity. Qed.

Lemma if_not_none_some v default : if_not_none (Some v) default = v.
Proof. reflexivity. Qed.

(** C8. Overrides of a quote, at a fuel price of 0: the daily allowance
    given as 0 is used (no allowance is charged), while the fuel price
    given as 0 is replaced by the configured 6.89, so that 150 litres cost
    1033.50 as they do with no override at all. *)
Theorem fuel_override_zero_is_replaced :
  exists c c',
    quote_costs Settings.default (sample_quote_request false (Some 0%float) (Some 0%float))
      sample_truck 900 12 = Ok c /\
    quote_costs Settings.default (sample_quote_request false None (Some 0%float))
      sample_truck 900 12 = Ok c' /\
    Costs.custo_diarias c = 0%float /\
    Costs.litros_total c = 150%float /\
    Costs.custo_combustivel c = 1033.5%float /\
    Costs.custo_combustivel c' = 1033.5%float.
Proof.
  do 2 eexists. split; [vm_compute; reflexivity|]. split; [vm_compute; reflexivity|].
  cbn. repeat split; reflexivity.
Qed.

(** ** The margin *)

Lemma int_sub_1 m : PyNum.int_sub 1 m = Ok (1 - m)%float.
Proof. reflexivity. Qed.

(** C3, counterexample. With a margin of 1.5 the division is carried out:
    costs of 1560.77 are sold at -3121.55. *)
Lemma margin_guard_counterexample : ~ margin_guard_claim.
Proof.
  intros Hclaim.
  specialize (Hclaim (settings_with_margin 1.5) (sample_quote_request false None None)
                sample_truck 900%float 12%float None sample_origin sample_destination
                eq_refl).
  vm_compute in Hclaim. discriminate Hclaim.
Qed.

(** C3, amended. The margin is not guarded: once the costs are computed,
    the sale price is [custo_total / (1 - MARGEM_LUCRO)] for every margin
    other than 1, the margins above 1 included; a margin of 1 makes the
    division raise [ZeroDivisionError]. *)
Theorem margin_division_unguarded (settings : Settings.t) (payload : RouteRequest.t)
    (vehicle_data : Truck.t) (distancia_km tempo_horas : float)
    (geometry : option (list (list float))) (c_origem c_destino : coords)
    (c : Costs.t) :
  quote_costs settings payload vehicle_data distancia_km tempo_horas = Ok c ->
  let margem := Settings.MARGEM_LUCRO settings in
  let preco_venda := (Costs.custo_total c / (1 - margem))%float in
  let answer :=
    compute_quote settings payload vehicle_data distancia_km tempo_horas
      geometry c_origem c_destino in
  let divided :=
    Ok (quote_response c preco_venda (preco_venda - Costs.custo_total c)%float
          vehicle_data geometry c_origem c_destino) in
  (PrimFloat.eqb margem 1 = true -> answer = Raise ZeroDivisionError) /\
  (PrimFloat.eqb margem 1 = false -> answer = divided) /\
  (PrimFloat.ltb 1 margem = true -> answer = divided).
Proof.
  intros Hc margem preco_venda answer divided.
  assert (Hanswer : answer = if PrimFloat.eqb margem 1 then Raise ZeroDivisionError
                             else divided).
  { unfold answer, compute_quote. rewrite Hc, int_sub_1. cbn.
    unfold PyNum.truediv. fold margem. rewrite one_minus_zero_iff.
    now destruct (PrimFloat.eqb margem 1). }
  rewrite Hanswer. repeat split.
  - now intros ->.
  - now intros ->.
  - now intros ->%above_one_not_one.
Qed.

Lemma margin_division_unguarded_witness :
  exists r,
    compute_quote (settings_with_margin 1.5) (sample_quote_request false None None)
      sample_truck 900 12 None sample_origin sample_destination = Ok r /\
    RouteResponse.preco_final_frete r = (-3121.55)%float.
Proof.
  destruct (margin_division_unguarded (settings_with_margin 1.5)
              (sample_quote_request false None None) sample_truck 900 12 None
              sample_origin sample_destination _ eq_refl) as (_ & _ & Hdiv).
  eexists. split; [apply Hdiv; reflexivity|]. vm_compute. reflexivity.
Defined.

(** ** Errors of a quote *)

(** C9, counterexample. An unknown vehicle is answered with status 400. *)
Lemma quote_not_found_counterexample : ~ quote_not_found_claim.
Proof.
  intros Hclaim.
  destruct (Hclaim sample_geocode router_down sample_great_circle no_text Settings.default
              (RouteRequest.mk "Curitiba" "Santos" "fantasma" false None None) initial_db)
    as [Hvehicle _].
  destruct (Hvehicle eq_refl) as [detail Hdetail].
  vm_compute in Hdetail. discriminate Hdetail.
Qed.

Section QuoteErrors.

Variable geocode : string -> result (option coords).
Variable get_road_route : coords -> coords -> option RouteData.t.
Variable great_circle_km : coords -> coords -> float.
Variable exc_str : exc -> string.
Variables (settings : Settings.t) (payload : RouteRequest.t) (s : db).

Lemma get_coords_unresolved city :
  geocode city = Ok None ->
  get_coords geocode city = Raise (HTTPException 404 ("Localização não encontrada: " +:+ city)).
Proof. unfold get_coords. now intros ->. Qed.

Lemma get_coords_resolved city c :
  geocode city = Ok (Some c) -> get_coords geocode city = Ok c.
Proof. unfold get_coords. now intros ->. Qed.

(** What the endpoint answers when the geocoder's lookup raises: a 500
    whose detail is the text of the exception raised inside. *)
Lemma calculate_quote_geocoding_error vehicle_data e :
  db_trucks s !! RouteRequest.veiculo_id payload = Some vehicle_data ->
  (c_origem ← get_coords geocode (RouteRequest.origem payload);
   c_destino ← get_coords geocode (RouteRequest.destino payload);
   Ok (c_origem, c_destino)) = Raise e ->
  calculate_quote geocode get_road_route great_circle_km exc_str settings payload s
    = Raise (HTTPException 500 (exc_str e)).
Proof.
  intros Hv He. unfold calculate_quote. rewrite Hv, He. reflexivity.
Qed.

(** C9, amended. An unknown vehicle fails the quote with status 400 and
    the detail "Veículo não encontrado.", before any geocoding; an origin
    or a destination that the geocoder does not resolve makes its lookup
    raise a 404 that names the place, and the quote fails. *)
Theorem quote_failures :
  (db_trucks s !! RouteRequest.veiculo_id payload = None ->
   calculate_quote geocode get_road_route great_circle_km exc_str settings payload s
     = Raise (HTTPException 400 "Veículo não encontrado.")) /\
  (forall vehicle_data,
     db_trucks s !! RouteRequest.veiculo_id payload = Some vehicle_data ->
     geocode (RouteRequest.origem payload) = Ok None ->
     get_coords geocode (RouteRequest.origem payload)
       = Raise (HTTPException 404
                  ("Localização não encontrada: " +:+ RouteRequest.origem payload)) /\
     is_raise (calculate_quote geocode get_road_route great_circle_km exc_str
                 settings payload s) = true) /\
  (forall vehicle_data c_origem,
     db_trucks s !! RouteRequest.veiculo_id payload = Some vehicle_data ->
     geocode (RouteRequest.origem payload) = Ok (Some c_origem) ->
     geocode (RouteRequest.destino payload) = Ok None ->
     get_coords geocode (RouteRequest.destino payload)
       = Raise (HTTPException 404
                  ("Localização não encontrada: " +:+ RouteRequest.destino payload)) /\
     is_raise (calculate_quote geocode get_road_route great_circle_km exc_str
                 settings payload s) = true).
Proof.
  split; [|split].
  - intros Hv. unfold calculate_quote. now rewrite Hv.
  - intros vehicle_data Hv Ho. split; [now apply get_coords_unresolved|].
    erewrite calculate_quote_geocoding_error; [reflexivity | eassumption |].
    rewrite (get_coords_unresolved _ Ho). reflexivity.
  - intros vehicle_data c_origem Hv Ho Hd. split; [now apply get_coords_unresolved|].
    erewrite calculate_quote_geocoding_error; [reflexivity | eassumption |].
    rewrite (get_coords_resolved _ _ Ho), (get_coords_unresolved _ Hd). reflexivity.
Qed.

End QuoteErrors.

(** ** The interval check: order of the scan and exceptions *)

(** X1. The scan of a concatenation: the second list is reached only when
    the first passes; a conflict or an exception of the first is the
    answer. *)
Theorem check_availability_app
    (trips1 trips2 : list Trip.t) (resource_id : string) (start end_ : datetime)
    (resource_type : string) :
  check_availability (trips1 ++ trips2) resource_id start end_ resource_type =
  match check_availability trips1 resource_id start end_ resource_type with
  | Ok (true, _) => check_availability trips2 resource_id start end_ resource_type
  | answer => answer
  end.
Proof.
  induction trips1 as [|t rest IH]; cbn; [reflexivity|].
  destruct (String.eqb _ resource_id); [|exact IH].
  destruct (window_overlaps start end_ t) as [[|]|e]; cbn; [reflexivity | exact IH | reflexivity].
Qed.

Lemma check_availability_snoc trips trip resource_id start end_ resource_type msg :
  check_availability trips resource_id start end_ resource_type = Ok (true, msg) ->
  check_availability (trips ++ [trip]) resource_id start end_ resource_type
    = check_availability [trip] resource_id start end_ resource_type.
Proof.
  induction trips as [|t rest IH]; cbn; [reflexivity|].
  destruct (String.eqb _ resource_id); [|exact IH].
  destruct (window_overlaps start end_ t) as [[|]|e]; cbn; [discriminate | exact IH | discriminate].
Qed.

(** X2. The answer depends on the trips of the resource only: the trips
    of other vehicles (or drivers) are skipped, and their dates are
    never compared. *)
Theorem check_availability_own_trips
    (trips : list Trip.t) (resource_id : string) (start end_ : datetime)
    (resource_type : string) :
  check_availability trips resource_id start end_ resource_type =
  check_availability (trips_of resource_type resource_id trips)
    resource_id start end_ resource_type.
Proof.
  unfold trips_of. induction trips as [|t rest IH]; [reflexivity|].
  rewrite filter_cons. cbn.
  destruct (decide (trip_resource_id resource_type t = resource_id)) as [Heq|Hne]; cbn.
  - rewrite Heq, String.eqb_refl.
    destruct (window_overlaps start end_ t) as [[|]|e]; cbn; [reflexivity | exact IH | reflexivity].
  - apply String.eqb_neq in Hne. rewrite Hne. exact IH.
Qed.

(** X3. The only exception of the check is the [TypeError] of a
    comparison between a naive and an aware date, and it comes from a trip
    of the resource. *)
Theorem check_availability_raises
    (trips : list Trip.t) (resource_id : string) (start end_ : datetime)
    (resource_type : string) (e : exc) :
  check_availability trips resource_id start end_ resource_type = Raise e ->
  e = TypeError /\
  exists trip, trip ∈ trips /\ uses_resource resource_type resource_id trip /\
    (comparable start (Trip.data_fim trip) = false \/
     comparable end_ (Trip.data_inicio trip) = false).
Proof.
  induction trips as [|t rest IH]; cbn; [discriminate|].
  assert (Hrest : check_availability rest resource_id start end_ resource_type = Raise e ->
    e = TypeError /\
    exists trip, trip ∈ t :: rest /\ uses_resource resource_type resource_id trip /\
      (comparable start (Trip.data_fim trip) = false \/
       comparable end_ (Trip.data_inicio trip) = false)).
  { intros (He & trip & Hin & Hrest)%IH. split; [assumption|].
    exists trip. split; [now right | assumption]. }
  destruct (String.eqb_spec (trip_resource_id resource_type t) resource_id) as [Heq|Hne];
    [|assumption].
  destruct (window_overlaps start end_ t) as [[|]|e'] eqn:Hw; cbn;
    [discriminate | assumption |].
  intros [= <-]. revert Hw. unfold window_overlaps, dt_lt, dt_gt.
  destruct (comparable start (Trip.data_fim t)) eqn:H1; cbn.
  - destruct (instant start <? _); [|discriminate].
    destruct (comparable end_ (Trip.data_inicio t)) eqn:H2; [discriminate|].
    intros [= <-]. split; [reflexivity|]. exists t. split; [left|]. split; [exact Heq|now right].
  - intros [= <-]. split; [reflexivity|]. exists t. split; [left|]. split; [exact Heq|now left].
Qed.

Lemma check_availability_raises_witness :
  check_availability (db_trips mixed_bookings) "mot-01"
    (with_utcoffset (of_date 2024 5 2 8 0) 0) (with_utcoffset (of_date 2024 5 4 8 0) 0)
    "motorista" = Raise TypeError /\
  exists trip, trip ∈ db_trips mixed_bookings /\ uses_resource "motorista" "mot-01" trip /\
    (comparable (with_utcoffset (of_date 2024 5 2 8 0) 0) (Trip.data_fim trip) = false \/
     comparable (with_utcoffset (of_date 2024 5 4 8 0) 0) (Trip.data_inicio trip) = false).
Proof.
  split; [vm_compute; reflexivity|].
  apply (proj2 (check_availability_raises (db_trips mixed_bookings) "mot-01"
                  (with_utcoffset (of_date 2024 5 2 8 0) 0)
                  (with_utcoffset (of_date 2024 5 4 8 0) 0) "motorista" TypeError eq_refl)).
Defined.

(** ** Bookings: what they read and what they leave *)

Lemma comparable_same_offset a b : utcoffset a = utcoffset b -> comparable a b = true.
Proof. unfold comparable. intros ->. now destruct (utcoffset b). Qed.

(** A booking overlaps its own window. *)
Lemma own_window_overlaps trip new_id data_fim dias :
  booking_days (TripCreate.distancia_km trip) = Ok dias ->
  add_days (TripCreate.data_inicio trip) dias = Ok data_fim ->
  window_overlaps (TripCreate.data_inicio trip) data_fim (trip_data trip new_id data_fim dias)
    = Ok true.
Proof.
  intros Hd He.
  pose proof (trip_data_well_formed trip new_id data_fim dias Hd He) as Hwf.
  pose proof (well_formed_instant _ Hwf) as Hlt. destruct Hwf as [Ho _]. cbn in Ho, Hlt.
  rewrite window_overlaps_comparable; cbn.
  - apply Z.ltb_lt in Hlt. now rewrite Hlt.
  - now apply comparable_same_offset.
  - now apply comparable_same_offset.
Qed.

(** X4. A booking that succeeded cannot be repeated: the same request is
    then refused with the 409 of the vehicle, which names the trip just
    stored, and nothing is written. *)
Theorem book_trip_again
    (trip : TripCreate.t) (new_id new_id' : string) (s : db) (resp : BookResponse.t) :
  fst (book_trip trip new_id s) = Ok resp ->
  exists stored,
    last (db_trips (snd (book_trip trip new_id s))) = Some stored /\
    Trip.id stored = new_id /\
    book_trip trip new_id' (snd (book_trip trip new_id s))
      = (Raise (HTTPException 409 ("Conflito: " +:+ conflict_message "veiculo" stored)),
         snd (book_trip trip new_id s)).
Proof.
  intros (dias & data_fim & truck_msg & driver_msg & Hd & He & Hv & _ & _ & ->)%book_trip_ok_inv.
  exists (trip_data trip new_id data_fim dias).
  rewrite booked_trips, last_snoc. split; [reflexivity|]. split; [reflexivity|].
  set (s' := booked trip new_id data_fim dias s).
  assert (Hv' : check_availability (db_trips s') (TripCreate.veiculo_id trip)
                  (TripCreate.data_inicio trip) data_fim "veiculo"
                = Ok (false, conflict_message "veiculo" (trip_data trip new_id data_fim dias))).
  { unfold s'. rewrite booked_trips, (check_availability_snoc _ _ _ _ _ _ _ Hv). cbn.
    rewrite String.eqb_refl, (own_window_overlaps trip new_id data_fim dias Hd He).
    reflexivity. }
  destruct (book_trip_outcome trip new_id' s'); congruence.
Qed.

Lemma book_trip_again_witness :
  fst (book_trip (sample_request "vuc-01" "mot-01" (of_date 2024 5 1 8 0) 900)
         "0a1b2c3d" initial_db)
    = Ok (BookResponse.mk "Viagem reservada!" "0a1b2c3d" (of_date 2024 5 3 8 0)) /\
  exists stored,
    last (db_trips booked_once) = Some stored /\
    Trip.id stored = "0a1b2c3d" /\
    book_trip (sample_request "vuc-01" "mot-01" (of_date 2024 5 1 8 0) 900)
      "7788aabb" booked_once
      = (Raise (HTTPException 409 ("Conflito: " +:+ conflict_message "veiculo" stored)),
         booked_once).
Proof.
  split; [vm_compute; reflexivity|].
  exact (book_trip_again (sample_request "vuc-01" "mot-01" (of_date 2024 5 1 8 0) 900)
           "0a1b2c3d" "7788aabb" initial_db _ eq_refl).
Defined.

(** X5. The answer of a booking is read from the stored trips alone: on
    two databases with the same trips it is the same, whatever their
    catalogs hold and whatever the status of the vehicle and the driver;
    and the trips after the call are the same too. *)
Theorem book_trip_reads_trips_only
    (trip : TripCreate.t) (new_id : string) (s s' : db) :
  db_trips s = db_trips s' ->
  fst (book_trip trip new_id s) = fst (book_trip trip new_id s') /\
  db_trips (snd (book_trip trip new_id s)) = db_trips (snd (book_trip trip new_id s')).
Proof.
  intros Htrips.
  destruct (book_trip_outcome trip new_id s) as
    [e Hd|dias e Hd He|dias data_fim e Hd He Hv|dias data_fim truck_msg Hd He Hv
    |dias data_fim truck_msg e Hd He Hv Hm|dias data_fim truck_msg driver_msg Hd He Hv Hm
    |dias data_fim truck_msg driver_msg Hd He Hv Hm];
    rewrite ?Htrips in *;
    destruct (book_trip_outcome trip new_id s'); cbn; rewrite ?booked_trips;
    try (split; congruence).
Qed.

Lemma book_trip_reads_trips_only_witness :
  db_trucks (snd (delete_truck "vuc-01" booked_once)) !! "vuc-01" = None /\
  fst (book_trip (sample_request "vuc-01" "mot-02" (of_date 2024 5 2 8 0) 100) "7788aabb"
         (snd (delete_truck "vuc-01" booked_once)))
    = Raise (HTTPException 409
               "Conflito: Veiculo já reservado de 01/05 08:00 até 03/05 08:00").
Proof.
  split; [vm_compute; reflexivity|].
  rewrite <- (proj1 (book_trip_reads_trips_only
                       (sample_request "vuc-01" "mot-02" (of_date 2024 5 2 8 0) 100)
                       "7788aabb" booked_once (snd (delete_truck "vuc-01" booked_once))
                       eq_refl)).
  vm_compute. reflexivity.
Defined.

(** X6. A booking adds no entry to a catalog and removes none: when it
    succeeds, the entry of its vehicle and that of its driver, where they
    exist, change their status to "Agendado" and nothing else; every other
    entry is left as it was. *)
Theorem book_trip_catalogs (trip : TripCreate.t) (new_id : string) (s : db) (k : string) :
  db_trucks (snd (book_trip trip new_id s)) !! k =
    (if decide (is_raise (fst (book_trip trip new_id s)) = false /\
                k = TripCreate.veiculo_id trip)
     then Truck.set_status "Agendado" <$> db_trucks s !! k
     else db_trucks s !! k) /\
  db_drivers (snd (book_trip trip new_id s)) !! k =
    (if decide (is_raise (fst (book_trip trip new_id s)) = false /\
                k = TripCreate.motorista_id trip)
     then Driver.set_status "Agendado" <$> db_drivers s !! k
     else db_drivers s !! k).
Proof.
  destruct (book_trip_outcome trip new_id s); cbn [fst snd is_raise];
    try (rewrite !decide_False by (intros [[=] _]); split; reflexivity).
  rewrite booked_trucks, booked_drivers. split.
  - destruct (decide (k = TripCreate.veiculo_id trip)) as [->|Hne].
    + rewrite decide_True by (split; reflexivity).
      destruct (db_trucks s !! TripCreate.veiculo_id trip) as [v|] eqn:Hv; cbn.
      * apply lookup_insert_eq.
      * exact Hv.
    + rewrite decide_False by (intros [_ ?]; contradiction).
      destruct (db_trucks s !! TripCreate.veiculo_id trip); [|reflexivity].
      apply lookup_insert_ne. congruence.
  - destruct (decide (k = TripCreate.motorista_id trip)) as [->|Hne].
    + rewrite decide_True by (split; reflexivity).
      destruct (db_drivers s !! TripCreate.motorista_id trip) as [d|] eqn:Hd; cbn.
      * apply lookup_insert_eq.
      * exact Hd.
    + rewrite decide_False by (intros [_ ?]; contradiction).
      destruct (db_drivers s !! TripCreate.motorista_id trip); [|reflexivity].
      apply lookup_insert_ne. congruence.
Qed.

(** ** Bookings: distances that are not numbers *)

Lemma booking_days_non_finite d :
  PyNum.float_value d = None ->
  booking_days d = Raise (match Prim2SF d with
                          | S754_nan => ValueError
                          | _ => OverflowError
                          end).
Proof.
  unfold PyNum.float_value, booking_days. rewrite truediv_int_70. cbn.
  rewrite truediv_int_8. cbn. unfold PyNum.ceil. rewrite !FloatAxioms.div_spec.
  destruct (Prim2SF d); try discriminate; reflexivity.
Qed.

(** X7. A booking whose distance is not a finite number is not stored:
    a NaN makes the ceiling raise [ValueError], an infinity
    [OverflowError], before any check, and the database is left as it
    was. *)
Theorem book_trip_non_finite_distance
    (trip : TripCreate.t) (new_id : string) (s : db) :
  PyNum.float_value (TripCreate.distancia_km trip) = None ->
  book_trip trip new_id s
    = (Raise (match Prim2SF (TripCreate.distancia_km trip) with
              | S754_nan => ValueError
              | _ => OverflowError
              end), s).
Proof.
  intros Hd%booking_days_non_finite.
  destruct (book_trip_outcome trip new_id s); congruence.
Qed.

Lemma book_trip_non_finite_distance_witness :
  book_trip (sample_request "vuc-01" "mot-01" (of_date 2024 5 1 8 0) infinity)
    "0a1b2c3d" initial_db = (Raise OverflowError, initial_db) /\
  book_trip (sample_request "vuc-01" "mot-01" (of_date 2024 5 1 8 0) nan)
    "0a1b2c3d" initial_db = (Raise ValueError, initial_db).
Proof.
  split.
  - exact (book_trip_non_finite_distance
             (sample_request "vuc-01" "mot-01" (of_date 2024 5 1 8 0) infinity)
             "0a1b2c3d" initial_db eq_refl).
  - exact (book_trip_non_finite_distance
             (sample_request "vuc-01" "mot-01" (of_date 2024 5 1 8 0) nan)
             "0a1b2c3d" initial_db eq_refl).
Defined.

(** ** Sequences of calls: the stored trips *)

Lemma run_calls_cons s c calls : run_calls s (c :: calls) = run_calls (run_call s c) calls.
Proof. reflexivity. Qed.

Lemma run_calls_snoc s calls c : run_calls s (calls ++ [c]) = run_call (run_calls s calls) c.
Proof. unfold run_calls. now rewrite foldl_app. Qed.

Lemma delete_truck_state truck_id s :
  snd (delete_truck truck_id s) =
    match db_trucks s !! truck_id with
    | Some _ => mk_db (delete truck_id (db_trucks s)) (db_drivers s) (db_trips s)
    | None => s
    end.
Proof. unfold delete_truck. unfold_handler. now destruct (db_trucks s !! truck_id). Qed.

Lemma delete_driver_state driver_id s :
  snd (delete_driver driver_id s) =
    match db_drivers s !! driver_id with
    | Some _ => mk_db (db_trucks s) (delete driver_id (db_drivers s)) (db_trips s)
    | None => s
    end.
Proof. unfold delete_driver. unfold_handler. now destruct (db_drivers s !! driver_id). Qed.

Lemma create_truck_run truck new_id s :
  exists v,
    create_truck truck new_id s
      = (Ok v, mk_db (<[new_id := v]> (db_trucks s)) (db_drivers s) (db_trips s)) /\
    v = Truck.mk new_id (TruckCreate.nome truck) (TruckCreate.consumo truck)
          (TruckCreate.tanque truck) (TruckCreate.placa truck) "Disponível".
Proof. eexists. split; reflexivity. Qed.

Lemma create_driver_run driver new_id s :
  exists d,
    create_driver driver new_id s
      = (Ok d, mk_db (db_trucks s) (<[new_id := d]> (db_drivers s)) (db_trips s)) /\
    Driver.id d = new_id /\ Driver.status d = "Disponível" /\
    Driver.nome d = DriverCreate.nome driver /\ Driver.cnh d = DriverCreate.cnh driver /\
    Driver.foto_url d =
      match DriverCreate.foto_url driver with
      | Some (String c r) => String c r
      | _ => default_foto_url (DriverCreate.nome driver)
      end.
Proof.
  eexists. split; [reflexivity|]. cbn. repeat split.
Qed.

Lemma catalog_call_trips s c :
  catalog_call c = true -> db_trips (run_call s c) = db_trips s.
Proof.
  destruct c as [trip new_id|truck new_id|truck_id|driver new_id|driver_id]; cbn;
    [discriminate| | | |]; intros _.
  - now destruct (create_truck_run truck new_id s) as (v & -> & _).
  - rewrite delete_truck_state. now destruct (db_trucks s !! truck_id).
  - now destruct (create_driver_run driver new_id s) as (d & -> & _).
  - rewrite delete_driver_state. now destruct (db_drivers s !! driver_id).
Qed.

(** A call leaves the trips as they are, or it is a booking that passed
    both checks and appends its trip. *)
Lemma run_call_trips s c :
  db_trips (run_call s c) = db_trips s \/
  exists trip new_id data_fim dias truck_msg driver_msg,
    c = BookTrip trip new_id /\
    booking_days (TripCreate.distancia_km trip) = Ok dias /\
    add_days (TripCreate.data_inicio trip) dias = Ok data_fim /\
    check_availability (db_trips s) (TripCreate.veiculo_id trip)
      (TripCreate.data_inicio trip) data_fim "veiculo" = Ok (true, truck_msg) /\
    check_availability (db_trips s) (TripCreate.motorista_id trip)
      (TripCreate.data_inicio trip) data_fim "motorista" = Ok (true, driver_msg) /\
    run_call s c = booked trip new_id data_fim dias s.
Proof.
  destruct (catalog_call c) eqn:Hc; [left; now apply catalog_call_trips|].
  destruct c as [trip new_id| | | |]; try discriminate Hc. cbn.
  destruct (book_trip_outcome trip new_id s); cbn; try (now left).
  right. exists trip, new_id, data_fim, dias, truck_msg, driver_msg. auto 10.
Qed.

(** X8. No endpoint removes or rewrites a stored trip: after any calls
    the trips begin with those stored before, and calls to the catalog
    endpoints alone leave them as they are. *)
Theorem trips_append_only (s : db) (calls : list api_call) :
  db_trips s `prefix_of` db_trips (run_calls s calls) /\
  (forallb catalog_call calls = true -> db_trips (run_calls s calls) = db_trips s).
Proof.
  revert s. induction calls as [|c calls IH]; intros s.
  - split; [reflexivity|]. now intros _.
  - rewrite run_calls_cons. destruct (IH (run_call s c)) as [IH1 IH2]. split.
    + etransitivity; [|exact IH1].
      destruct (run_call_trips s c) as [->|(trip & new_id & data_fim & dias & _ & _ & _ & _ & _ & _ & _ & ->)].
      * reflexivity.
      * rewrite booked_trips. now apply prefix_app_r.
    + cbn. intros [Hc Hcalls]%andb_prop. rewrite (IH2 Hcalls). now apply catalog_call_trips.
Qed.

Lemma trip_data_stored trip new_id data_fim dias :
  booking_days (TripCreate.distancia_km trip) = Ok dias ->
  add_days (TripCreate.data_inicio trip) dias = Ok data_fim ->
  stored_trip (trip_data trip new_id data_fim dias).
Proof.
  intros Hd He. unfold stored_trip; cbn. repeat split; try assumption.
  now apply booking_days_positive in Hd.
Qed.

Lemma run_calls_invariant (P : list Trip.t -> Prop) :
  (forall trips trip new_id data_fim dias truck_msg driver_msg,
     P trips ->
     booking_days (TripCreate.distancia_km trip) = Ok dias ->
     add_days (TripCreate.data_inicio trip) dias = Ok data_fim ->
     check_availability trips (TripCreate.veiculo_id trip)
       (TripCreate.data_inicio trip) data_fim "veiculo" = Ok (true, truck_msg) ->
     check_availability trips (TripCreate.motorista_id trip)
       (TripCreate.data_inicio trip) data_fim "motorista" = Ok (true, driver_msg) ->
     P (trips ++ [trip_data trip new_id data_fim dias])) ->
  forall calls s, P (db_trips s) -> P (db_trips (run_calls s calls)).
Proof.
  intros Hstep. induction calls as [|c calls IH]; intros s Hs; [exact Hs|].
  rewrite run_calls_cons. apply IH.
  destruct (run_call_trips s c)
    as [->|(trip & new_id & data_fim & dias & truck_msg & driver_msg & _ & Hd & He & Hv & Hm & ->)];
    [exact Hs|].
  rewrite booked_trips. eapply Hstep; eassumption.
Qed.

(** X9. Every stored trip, after any calls from the initial database, has
    the status "Agendada", the duration that [book_trip] derives from its
    distance, of one day at least, and an end that many days after its
    start. *)
Theorem stored_trips_shape (calls : list api_call) :
  Forall stored_trip (db_trips (run_calls initial_db calls)).
Proof.
  apply (run_calls_invariant (Forall stored_trip)); [|constructor].
  intros trips trip new_id data_fim dias _ _ Htrips Hd He _ _.
  apply Forall_app. split; [assumption|]. constructor; [|constructor].
  now apply trip_data_stored.
Qed.

(** X10. No double booking, whatever the calls: after any bookings,
    creations and removals from the initial database, two distinct stored
    trips with the same vehicle or the same driver never overlap; removing
    a vehicle or creating one under a used identifier does not free its
    windows. *)
Theorem no_double_booking (calls : list api_call) (i j : nat) (a b : Trip.t) :
  i <> j ->
  db_trips (run_calls initial_db calls) !! i = Some a ->
  db_trips (run_calls initial_db calls) !! j = Some b ->
  shares_resource a b ->
  ~ overlap a b.
Proof.
  assert (Hinv : trips_invariant (db_trips (run_calls initial_db calls))).
  { apply (run_calls_invariant trips_invariant).
    - intros trips trip new_id data_fim dias truck_msg driver_msg.
      apply trips_invariant_snoc.
    - change (trips_invariant []). split; [constructor|].
      intros i' j' a' b' _ Ha. now rewrite lookup_nil in Ha. }
  destruct Hinv as [_ Hpair]. intros Hij Ha Hb Hshare.
  destruct (Nat.lt_total i j) as [Hlt|[Heq|Hlt]]; [|contradiction|].
  - now apply (Hpair i j a b).
  - intros Ho%overlap_sym. revert Ho. apply (Hpair j i b a); try assumption.
    destruct Hshare; [left|right]; congruence.
Qed.

Lemma no_double_booking_witness :
  db_trucks (run_calls initial_db sample_calls) !! "vuc-01"
    = Some (Truck.mk "vuc-01" "Toco" 4.5 300 "JKL-3456" "Agendado") /\
  match db_trips (run_calls initial_db sample_calls) !! 0%nat,
        db_trips (run_calls initial_db sample_calls) !! 1%nat with
  | Some a, Some b =>
      Trip.veiculo_id a = "vuc-01" /\ Trip.veiculo_id b = "vuc-01" /\ ~ overlap a b
  | _, _ => False
  end.
Proof.
  split; [vm_compute; reflexivity|].
  destruct (db_trips (run_calls initial_db sample_calls) !! 0%nat) as [a|] eqn:Ha;
    [|vm_compute in Ha; discriminate Ha].
  destruct (db_trips (run_calls initial_db sample_calls) !! 1%nat) as [b|] eqn:Hb;
    [|vm_compute in Hb; discriminate Hb].
  assert (Hva : Trip.veiculo_id a = "vuc-01")
    by (vm_compute in Ha; injection Ha as <-; reflexivity).
  assert (Hvb : Trip.veiculo_id b = "vuc-01")
    by (vm_compute in Hb; injection Hb as <-; reflexivity).
  split; [assumption|]. split; [assumption|].
  apply (no_double_booking sample_calls 0 1 a b); [discriminate | assumption | assumption |].
  left. congruence.
Defined.

(** ** Sequences of calls: the catalogs *)

Lemma truck_entry_mono s s' k v :
  (forall t, t ∈ db_trips s -> t ∈ db_trips s') -> truck_entry s k v -> truck_entry s' k v.
Proof.
  intros Hsub [Hid [Hst|(Hst & t & Hin & Ht)]]; (split; [assumption|]);
    [now left | right; eauto].
Qed.

Lemma driver_entry_mono s s' k d :
  (forall t, t ∈ db_trips s -> t ∈ db_trips s') -> driver_entry s k d -> driver_entry s' k d.
Proof.
  intros Hsub [Hid [Hst|(Hst & t & Hin & Ht)]]; (split; [assumption|]);
    [now left | right; eauto].
Qed.

Lemma catalog_invariant_initial : catalog_invariant initial_db.
Proof.
  split; intros k v; cbn; unfold initial_trucks, initial_drivers; intros H;
    repeat (apply lookup_insert_Some in H as [[<- <-]|[_ H]];
            [split; [reflexivity | left; reflexivity]|]);
    now rewrite lookup_empty in H.
Qed.

Lemma catalog_invariant_booked trip new_id data_fim dias s :
  catalog_invariant s -> catalog_invariant (booked trip new_id data_fim dias s).
Proof.
  intros [Ht Hd].
  assert (Hsub : forall t, t ∈ db_trips s -> t ∈ db_trips (booked trip new_id data_fim dias s))
    by (intros t Hin; rewrite booked_trips; apply elem_of_app; now left).
  assert (Hnew : trip_data trip new_id data_fim dias
                   ∈ db_trips (booked trip new_id data_fim dias s))
    by (rewrite booked_trips; apply elem_of_app; right; left).
  split.
  - intros k v. rewrite booked_trucks.
    destruct (db_trucks s !! TripCreate.veiculo_id trip) as [v0|] eqn:Hv0.
    + intros [[<- <-]|[_ H]]%lookup_insert_Some.
      * split; [apply (Ht _ _ Hv0)|]. right. split; [reflexivity|].
        exists (trip_data trip new_id data_fim dias). now split.
      * eapply truck_entry_mono; [exact Hsub | now apply Ht].
    + intros H. eapply truck_entry_mono; [exact Hsub | now apply Ht].
  - intros k d. rewrite booked_drivers.
    destruct (db_drivers s !! TripCreate.motorista_id trip) as [d0|] eqn:Hd0.
    + intros [[<- <-]|[_ H]]%lookup_insert_Some.
      * split; [apply (Hd _ _ Hd0)|]. right. split; [reflexivity|].
        exists (trip_data trip new_id data_fim dias). now split.
      * eapply driver_entry_mono; [exact Hsub | now apply Hd].
    + intros H. eapply driver_entry_mono; [exact Hsub | now apply Hd].
Qed.

Lemma catalog_invariant_step s c : catalog_invariant s -> catalog_invariant (run_call s c).
Proof.
  intros Hs. pose proof Hs as [Ht Hd].
  destruct c as [trip new_id|truck new_id|truck_id|driver new_id|driver_id]; cbn.
  - destruct (book_trip_outcome trip new_id s); cbn; try assumption.
    now apply catalog_invariant_booked.
  - destruct (create_truck_run truck new_id s) as (v0 & -> & ->).
    split; [|exact Hd]. intros k v H. cbn in H.
    apply lookup_insert_Some in H as [[<- <-]|[_ H]].
    + split; [reflexivity | left; reflexivity].
    + now apply Ht.
  - rewrite delete_truck_state. destruct (db_trucks s !! truck_id); [|assumption].
    split; [|exact Hd]. intros k v H. cbn in H.
    apply lookup_delete_Some in H as [_ H]. now apply Ht.
  - destruct (create_driver_run driver new_id s) as (d0 & -> & Hid & Hst & _).
    split; [exact Ht|]. intros k d H. cbn in H.
    apply lookup_insert_Some in H as [[<- <-]|[_ H]].
    + split; [exact Hid | left; exact Hst].
    + now apply Hd.
  - rewrite delete_driver_state. destruct (db_drivers s !! driver_id); [|assumption].
    split; [exact Ht|]. intros k d H. cbn in H.
    apply lookup_delete_Some in H as [_ H]. now apply Hd.
Qed.

(** X11. The catalogs after any calls from the initial database: every
    vehicle and every driver is stored under its own identifier, with the
    status "Disponível" or "Agendado", and one marked "Agendado" is the
    vehicle, or the driver, of a stored trip. *)
Theorem catalog_statuses (calls : list api_call) :
  catalog_invariant (run_calls initial_db calls).
Proof.
  induction calls as [|c calls IH] using rev_ind.
  - exact catalog_invariant_initial.
  - rewrite run_calls_snoc. now apply catalog_invariant_step.
Qed.

(** ** The catalog endpoints *)

Lemma delete_truck_trucks k s : db_trucks (snd (delete_truck k s)) = delete k (db_trucks s).
Proof.
  rewrite delete_truck_state. destruct (db_trucks s !! k) eqn:Hk; [reflexivity|].
  symmetry. now apply delete_id.
Qed.

Lemma delete_truck_others k s :
  db_drivers (snd (delete_truck k s)) = db_drivers s /\
  db_trips (snd (delete_truck k s)) = db_trips s.
Proof. rewrite delete_truck_state. now destruct (db_trucks s !! k). Qed.

Lemma delete_driver_drivers k s :
  db_drivers (snd (delete_driver k s)) = delete k (db_drivers s).
Proof.
  rewrite delete_driver_state. destruct (db_drivers s !! k) eqn:Hk; [reflexivity|].
  symmetry. now apply delete_id.
Qed.

Lemma delete_driver_others k s :
  db_trucks (snd (delete_driver k s)) = db_trucks s /\
  db_trips (snd (delete_driver k s)) = db_trips s.
Proof. rewrite delete_driver_state. now destruct (db_drivers s !! k). Qed.

(** X12. Removals: after the call the identifier is in no entry of its
    catalog, the other entries, the other catalog and the trips are as
    before (no trip is removed with its vehicle or its driver); the call
    raises its 404 exactly when the identifier was absent; and a second
    removal always raises it, without any change. *)
Theorem delete_effects (k : string) (s : db) :
  (db_trucks (snd (delete_truck k s)) = delete k (db_trucks s) /\
   db_drivers (snd (delete_truck k s)) = db_drivers s /\
   db_trips (snd (delete_truck k s)) = db_trips s /\
   fst (delete_truck k s)
     = (if decide (is_Some (db_trucks s !! k)) then Ok "Removido"
        else Raise (HTTPException 404 "Não encontrado")) /\
   delete_truck k (snd (delete_truck k s))
     = (Raise (HTTPException 404 "Não encontrado"), snd (delete_truck k s))) /\
  (db_drivers (snd (delete_driver k s)) = delete k (db_drivers s) /\
   db_trucks (snd (delete_driver k s)) = db_trucks s /\
   db_trips (snd (delete_driver k s)) = db_trips s /\
   fst (delete_driver k s)
     = (if decide (is_Some (db_drivers s !! k)) then Ok "Removido"
        else Raise (HTTPException 404 "Motorista não encontrado")) /\
   delete_driver k (snd (delete_driver k s))
     = (Raise (HTTPException 404 "Motorista não encontrado"), snd (delete_driver k s))).
Proof.
  split.
  - pose proof (delete_truck_trucks k s) as Hgone.
    destruct (delete_truck_others k s) as [Hd Ht].
    repeat split; try assumption.
    + unfold delete_truck. unfold_handler. destruct (db_trucks s !! k) eqn:Hk.
      * rewrite decide_True by eauto. reflexivity.
      * rewrite decide_False by (intros [? [=]]). reflexivity.
    + unfold delete_truck at 1. unfold_handler. rewrite Hgone, lookup_delete_eq. reflexivity.
  - pose proof (delete_driver_drivers k s) as Hgone.
    destruct (delete_driver_others k s) as [Hd Ht].
    repeat split; try assumption.
    + unfold delete_driver. unfold_handler. destruct (db_drivers s !! k) eqn:Hk.
      * rewrite decide_True by eauto. reflexivity.
      * rewrite decide_False by (intros [? [=]]). reflexivity.
    + unfold delete_driver at 1. unfold_handler. rewrite Hgone, lookup_delete_eq. reflexivity.
Qed.

Lemma db_eta s : mk_db (db_trucks s) (db_drivers s) (db_trips s) = s.
Proof. now destruct s. Qed.

(** X13. Creation then removal: an entry created under a fresh identifier
    and removed again leaves the database as it was; under an identifier
    already in use the creation replaces the entry, which is then lost. *)
Theorem create_then_delete
    (truck : TruckCreate.t) (driver : DriverCreate.t) (new_id : string) (s : db) :
  delete_truck new_id (snd (create_truck truck new_id s))
    = (Ok "Removido", mk_db (delete new_id (db_trucks s)) (db_drivers s) (db_trips s)) /\
  delete_driver new_id (snd (create_driver driver new_id s))
    = (Ok "Removido", mk_db (db_trucks s) (delete new_id (db_drivers s)) (db_trips s)) /\
  (db_trucks s !! new_id = None ->
   delete_truck new_id (snd (create_truck truck new_id s)) = (Ok "Removido", s)) /\
  (db_drivers s !! new_id = None ->
   delete_driver new_id (snd (create_driver driver new_id s)) = (Ok "Removido", s)).
Proof.
  assert (Ht : delete_truck new_id (snd (create_truck truck new_id s))
    = (Ok "Removido", mk_db (delete new_id (db_trucks s)) (db_drivers s) (db_trips s))).
  { destruct (create_truck_run truck new_id s) as (v & -> & _).
    unfold delete_truck. unfold_handler. rewrite lookup_insert_eq. cbn.
    now rewrite delete_insert_eq. }
  assert (Hd : delete_driver new_id (snd (create_driver driver new_id s))
    = (Ok "Removido", mk_db (db_trucks s) (delete new_id (db_drivers s)) (db_trips s))).
  { destruct (create_driver_run driver new_id s) as (d & -> & _).
    unfold delete_driver. unfold_handler. rewrite lookup_insert_eq. cbn.
    now rewrite delete_insert_eq. }
  repeat split; try assumption.
  - intros Hfresh. rewrite Ht, (delete_id _ _ Hfresh), db_eta. reflexivity.
  - intros Hfresh. rewrite Hd, (delete_id _ _ Hfresh), db_eta. reflexivity.
Qed.

Lemma replace_spaces_no_space s : no_space (replace_spaces s) = true.
Proof.
  induction s as [|c r IH]; [reflexivity|]. cbn [replace_spaces no_space].
  rewrite IH, andb_true_r.
  destruct (Ascii.eqb_spec c (Ascii.ascii_of_N 32)); [reflexivity|].
  now apply negb_true_iff, Ascii.eqb_neq.
Qed.

Lemma no_space_app a b : no_space (a +:+ b) = no_space a && no_space b.
Proof.
  induction a as [|c r IH]; [reflexivity|].
  change (String c r +:+ b) with (String c (r +:+ b)). cbn [no_space].
  now rewrite IH, andb_assoc.
Qed.


(** X14. The photo of a new driver: a creation always succeeds, with the
    status "Disponível"; a photo given and not empty is kept as it is;
    without one ([None] or the empty text) the photo is the avatar
    address built from the name, which holds no space; the stored photo
    is never empty. *)
Theorem create_driver_photo (driver : DriverCreate.t) (new_id : string) (s : db) :
  exists d,
    fst (create_driver driver new_id s) = Ok d /\
    db_drivers (snd (create_driver driver new_id s)) !! new_id = Some d /\
    Driver.status d = "Disponível" /\
    Driver.foto_url d <> "" /\
    (forall url, DriverCreate.foto_url driver = Some url -> url <> "" ->
       Driver.foto_url d = url) /\
    (DriverCreate.foto_url driver = None \/ DriverCreate.foto_url driver = Some "" ->
       Driver.foto_url d = default_foto_url (DriverCreate.nome driver) /\
       no_space (Driver.foto_url d) = true).
Proof.
  destruct (create_driver_run driver new_id s) as (d & -> & _ & Hst & _ & _ & Hfoto).
  assert (Hdef : no_space (default_foto_url (DriverCreate.nome driver)) = true).
  { unfold default_foto_url. rewrite !no_space_app, replace_spaces_no_space. reflexivity. }
  exists d. cbn [fst snd db_drivers]. rewrite lookup_insert_eq, Hfoto.
  split; [reflexivity|]. split; [reflexivity|]. split; [exact Hst|]. split; [|split].
  - now destruct (DriverCreate.foto_url driver) as [[|c r]|].
  - intros url -> Hne. now destruct url.
  - intros [-> | ->]; now split.
Qed.

(** ** The listing of trips *)

Lemma ascii_compare_lt_trans a b c :
  Ascii.compare a b = Lt -> Ascii.compare b c = Lt -> Ascii.compare a c = Lt.
Proof. unfold Ascii.compare. rewrite !N.compare_lt_iff. apply N.lt_trans. Qed.

Lemma string_compare_lt_trans a : forall b c,
  String.compare a b = Lt -> String.compare b c = Lt -> String.compare a c = Lt.
Proof.
  induction a as [|x a IH]; intros [|y b] [|z c]; cbn; try discriminate; try reflexivity.
  destruct (Ascii.compare x y) eqn:Hxy; try discriminate.
  - apply Ascii.compare_eq_iff in Hxy as ->.
    destruct (Ascii.compare y z); try discriminate; [apply IH | reflexivity].
  - intros _. destruct (Ascii.compare y z) eqn:Hyz; try discriminate.
    + apply Ascii.compare_eq_iff in Hyz as <-. now rewrite Hxy.
    + now rewrite (ascii_compare_lt_trans _ _ _ Hxy Hyz).
Qed.

Lemma string_compare_refl a : String.compare a a = Eq.
Proof.
  induction a as [|x a IH]; [reflexivity|]. cbn.
  unfold Ascii.compare. now rewrite N.compare_refl.
Qed.

Lemma string_leb_refl a : String.leb a a = true.
Proof. unfold String.leb. now rewrite string_compare_refl. Qed.

Lemma string_leb_trans a b c :
  String.leb a b = true -> String.leb b c = true -> String.leb a c = true.
Proof.
  unfold String.leb.
  destruct (String.compare a b) eqn:Hab; [|intros _|discriminate].
  - apply String.compare_eq_iff in Hab as ->. auto.
  - destruct (String.compare b c) eqn:Hbc; [| |discriminate]; intros _.
    + apply String.compare_eq_iff in Hbc as <-. now rewrite Hab.
    + now rewrite (string_compare_lt_trans _ _ _ Hab Hbc).
Qed.

Lemma string_ltb_leb a b : String.ltb a b = true -> String.leb a b = true.
Proof. unfold String.ltb, String.leb. now destruct (String.compare a b). Qed.

Lemma string_not_ltb_leb a b : String.ltb a b = false -> String.leb b a = true.
Proof.
  unfold String.ltb, String.leb. rewrite (String.compare_antisym b a).
  now destruct (String.compare a b).
Qed.

Section Sorting.

Context {A : Type} (key : A -> string).

Lemma insert_desc_perm x l : insert_desc key x l ≡ₚ x :: l.
Proof.
  induction l as [|y l IH]; cbn; [reflexivity|].
  destruct (String.ltb (key x) (key y)); [|reflexivity].
  rewrite IH. apply Permutation_swap.
Qed.

Lemma sorted_desc_perm l : sorted_desc key l ≡ₚ l.
Proof.
  induction l as [|x l IH]; cbn; [reflexivity|].
  now rewrite insert_desc_perm, IH.
Qed.

Lemma insert_desc_descending x l :
  descending key l -> descending key (insert_desc key x l).
Proof.
  induction l as [|y l IH]; cbn.
  - intros _. split; [constructor | exact I].
  - intros [Hy Hl]. destruct (String.ltb (key x) (key y)) eqn:Hxy; cbn.
    + split; [|now apply IH].
      rewrite insert_desc_perm. constructor; [now apply string_ltb_leb | assumption].
    + apply string_not_ltb_leb in Hxy. split; [|now split].
      constructor; [assumption|].
      eapply Forall_impl; [exact Hy|]. cbn. intros z Hz.
      now apply (string_leb_trans _ (key y)).
Qed.

Lemma sorted_desc_descending l : descending key (sorted_desc key l).
Proof.
  induction l as [|x l IH]; cbn; [exact I|]. now apply insert_desc_descending.
Qed.

Lemma descending_lookup l i j a b :
  descending key l -> (i < j)%nat -> l !! i = Some a -> l !! j = Some b ->
  String.leb (key b) (key a) = true.
Proof.
  revert i j. induction l as [|x l IH]; intros i j; [now rewrite lookup_nil|].
  intros [Hx Hl] Hij Ha Hb. destruct j as [|j]; [lia|]. cbn in Hb.
  destruct i as [|i]; cbn in Ha.
  - injection Ha as <-. rewrite Forall_forall in Hx. apply Hx.
    now apply list_elem_of_lookup_2 in Hb.
  - apply (IH i j); [assumption | lia | assumption | assumption].
Qed.

(** The sort is stable: the elements of one key keep their order. *)
Lemma insert_desc_filter k x l :
  filter (fun y => key y = k) (insert_desc key x l) = filter (fun y => key y = k) (x :: l).
Proof.
  induction l as [|y l IH]; cbn; [reflexivity|].
  destruct (String.ltb (key x) (key y)) eqn:Hxy; [|reflexivity].
  rewrite (filter_cons _ y (insert_desc key x l)), IH, !filter_cons.
  destruct (decide (key x = k)) as [Hx|Hx], (decide (key y = k)) as [Hy|Hy]; try reflexivity.
  exfalso. rewrite Hx, Hy in Hxy. unfold String.ltb in Hxy.
  now rewrite string_compare_refl in Hxy.
Qed.

Lemma sorted_desc_filter k l :
  filter (fun y => key y = k) (sorted_desc key l) = filter (fun y => key y = k) l.
Proof.
  induction l as [|x l IH]; cbn; [reflexivity|].
  now rewrite insert_desc_filter, !filter_cons, IH.
Qed.

End Sorting.

Lemma filter_fmap_trip s k (l : list Trip.t) :
  filter (fun x => trip_key (ListedTrip.trip x) = k) (enhance s <$> l)
    = enhance s <$> filter (fun t => trip_key t = k) l.
Proof.
  induction l as [|t l IH]; [reflexivity|].
  rewrite fmap_cons, !filter_cons, IH.
  change (ListedTrip.trip (enhance s t)) with t.
  destruct (decide (trip_key t = k)); reflexivity.
Qed.

Lemma list_trips_trips s :
  ListedTrip.trip <$> list_trips s = take 20 (sorted_desc trip_key (db_trips s)).
Proof.
  unfold list_trips. rewrite fmap_take, <- list_fmap_compose.
  f_equal. now rewrite list_fmap_id.
Qed.

Lemma list_trips_descending s i j a b :
  (i < j)%nat -> list_trips s !! i = Some a -> list_trips s !! j = Some b ->
  String.leb (trip_key (ListedTrip.trip b)) (trip_key (ListedTrip.trip a)) = true.
Proof.
  intros Hij Ha Hb.
  assert (Hi : (ListedTrip.trip <$> list_trips s) !! i = Some (ListedTrip.trip a))
    by (now rewrite list_lookup_fmap, Ha).
  assert (Hj : (ListedTrip.trip <$> list_trips s) !! j = Some (ListedTrip.trip b))
    by (now rewrite list_lookup_fmap, Hb).
  rewrite list_trips_trips in Hi, Hj.
  apply lookup_take_Some in Hi as [Hi _]. apply lookup_take_Some in Hj as [Hj _].
  apply (descending_lookup trip_key (sorted_desc trip_key (db_trips s)) i j);
    [apply sorted_desc_descending | assumption | assumption | assumption].
Qed.

(** X15. The listing holds the 20 trips of greatest start text, greatest
    first: it has [min 20 n] entries for [n] stored trips; each entry is
    a stored trip; the start texts never increase along it; and a stored
    trip that is not listed starts no later, in that order, than every
    listed one. *)
Theorem list_trips_order (s : db) :
  length (list_trips s) = Nat.min 20 (length (db_trips s)) /\
  (forall l, l ∈ list_trips s -> ListedTrip.trip l ∈ db_trips s /\ l = enhance s (ListedTrip.trip l)) /\
  (forall i j a b, (i < j)%nat ->
     list_trips s !! i = Some a -> list_trips s !! j = Some b ->
     String.leb (trip_key (ListedTrip.trip b)) (trip_key (ListedTrip.trip a)) = true) /\
  (forall t, t ∈ db_trips s ->
     t ∈ ListedTrip.trip <$> list_trips s \/
     length (list_trips s) = 20%nat /\
     forall l, l ∈ list_trips s ->
       String.leb (trip_key t) (trip_key (ListedTrip.trip l)) = true).
Proof.
  pose proof (sorted_desc_perm trip_key (db_trips s)) as Hperm.
  pose proof (sorted_desc_descending trip_key (db_trips s)) as Hdesc.
  assert (Hlen : length (list_trips s) = Nat.min 20 (length (db_trips s))).
  { unfold list_trips. now rewrite length_take, length_fmap, Hperm. }
  split; [exact Hlen|]. split; [|split].
  - intros l [i [Hi _]]%elem_of_take.
    apply list_lookup_fmap_Some in Hi as (t & -> & Ht). cbn.
    split; [|reflexivity]. rewrite <- Hperm. now apply list_elem_of_lookup_2 in Ht.
  - apply list_trips_descending.
  - intros t Ht. rewrite <- Hperm in Ht.
    apply list_elem_of_lookup_1 in Ht as [j Hj].
    destruct (decide (j < 20)%nat) as [Hlt|Hge].
    + left. rewrite list_trips_trips. apply elem_of_take. eauto.
    + right. split.
      * rewrite Hlen, <- Hperm. apply lookup_lt_Some in Hj. lia.
      * intros l [i [Hi Hi20]]%elem_of_take.
        apply list_lookup_fmap_Some in Hi as (t' & -> & Ht'). cbn.
        apply (descending_lookup trip_key (sorted_desc trip_key (db_trips s)) i j);
          [assumption | lia | assumption | assumption].
Qed.

(** X16. Trips of the same start are listed in the order of their
    booking: the listed trips of one start text are the first of the
    stored trips of that text, in storage order, and all of them when no
    more than 20 trips are stored. *)
Theorem list_trips_stable (s : db) (k : string) :
  filter (fun l => trip_key (ListedTrip.trip l) = k) (list_trips s)
    `prefix_of` (enhance s <$> filter (fun t => trip_key t = k) (db_trips s)) /\
  ((length (db_trips s) <= 20)%nat ->
   filter (fun l => trip_key (ListedTrip.trip l) = k) (list_trips s)
     = enhance s <$> filter (fun t => trip_key t = k) (db_trips s)).
Proof.
  rewrite <- (sorted_desc_filter trip_key k (db_trips s)), <- filter_fmap_trip.
  unfold list_trips. split.
  - destruct (prefix_take (enhance s <$> sorted_desc trip_key (db_trips s)) 20) as [r Hr].
    rewrite Hr at 2. rewrite filter_app. now apply prefix_app_r.
  - intros Hlen. rewrite take_ge; [reflexivity|].
    now rewrite length_fmap, (sorted_desc_perm trip_key).
Qed.

Lemma enhance_deleted_truck k s t :
  enhance (snd (delete_truck k s)) t = unknown_vehicle k (enhance s t).
Proof.
  unfold enhance, unknown_vehicle. cbn [ListedTrip.trip].
  rewrite delete_truck_trucks, (proj1 (delete_truck_others k s)).
  destruct (String.eqb_spec (Trip.veiculo_id t) k) as [->|Hne].
  - now rewrite lookup_delete_eq.
  - rewrite lookup_delete_ne by congruence. reflexivity.
Qed.

Lemma enhance_deleted_driver k s t :
  enhance (snd (delete_driver k s)) t = unknown_driver k (enhance s t).
Proof.
  unfold enhance, unknown_driver. cbn [ListedTrip.trip].
  rewrite delete_driver_drivers, (proj1 (delete_driver_others k s)).
  destruct (String.eqb_spec (Trip.motorista_id t) k) as [->|Hne].
  - now rewrite lookup_delete_eq.
  - rewrite lookup_delete_ne by congruence. reflexivity.
Qed.

(** X17. A removal does not take the trips of its vehicle, or of its
    driver, out of the listing: the same trips are listed in the same
    order, those of the removed vehicle under the name "Desconhecido" and
    the plate "---", those of the removed driver under the name
    "Desconhecido" and an empty photo. *)
Theorem list_trips_after_delete (k : string) (s : db) :
  list_trips (snd (delete_truck k s)) = unknown_vehicle k <$> list_trips s /\
  list_trips (snd (delete_driver k s)) = unknown_driver k <$> list_trips s.
Proof.
  unfold list_trips. split.
  - rewrite (proj2 (delete_truck_others k s)), fmap_take, <- list_fmap_compose.
    f_equal. apply list_fmap_ext. intros i t _. apply enhance_deleted_truck.
  - rewrite (proj2 (delete_driver_others k s)), fmap_take, <- list_fmap_compose.
    f_equal. apply list_fmap_ext. intros i t _. apply enhance_deleted_driver.
Qed.

(** ** The order of the start texts *)

Lemma string_app_assoc a b c : (a +:+ b) +:+ c = a +:+ (b +:+ c).
Proof.
  induction a as [|x a IH]; [reflexivity|].
  change ((String x a +:+ b) +:+ c) with (String x ((a +:+ b) +:+ c)).
  change (String x a +:+ (b +:+ c)) with (String x (a +:+ (b +:+ c))).
  now rewrite IH.
Qed.

Lemma string_compare_prefix p r1 r2 :
  String.compare (p +:+ r1) (p +:+ r2) = String.compare r1 r2.
Proof.
  induction p as [|x p IH]; [reflexivity|].
  change (String x p +:+ r1) with (String x (p +:+ r1)).
  change (String x p +:+ r2) with (String x (p +:+ r2)).
  cbn [String.compare]. unfold Ascii.compare. now rewrite N.compare_refl.
Qed.

Lemma digit_compare x y :
  0 <= x <= 9 -> 0 <= y <= 9 ->
  Ascii.compare (Ascii.ascii_of_N (48 + Z.to_N x)) (Ascii.ascii_of_N (48 + Z.to_N y))
    = (x ?= y).
Proof.
  intros Hx Hy. unfold Ascii.compare.
  rewrite !Ascii.N_ascii_embedding by lia.
  destruct (Z.compare_spec x y) as [Heq|Hlt|Hgt].
  - subst. apply N.compare_refl.
  - apply N.compare_lt_iff. lia.
  - apply N.compare_gt_iff. lia.
Qed.

Lemma two_digits_app a r :
  two_digits a +:+ r =
    String (Ascii.ascii_of_N (48 + Z.to_N (a / 10 mod 10)))
      (String (Ascii.ascii_of_N (48 + Z.to_N (a mod 10))) r).
Proof. reflexivity. Qed.

(** Two digits in front of a text compare as their number does. *)
Lemma two_digits_lt a b r1 r2 :
  a mod 100 < b mod 100 \/ a mod 100 = b mod 100 /\ String.compare r1 r2 = Lt ->
  String.compare (two_digits a +:+ r1) (two_digits b +:+ r2) = Lt.
Proof.
  intros H. rewrite !two_digits_app. cbn [String.compare].
  rewrite !digit_compare by (Z.div_mod_to_equations; lia).
  destruct (Z.compare_spec (a / 10 mod 10) (b / 10 mod 10)) as [Heq|Hlt|Hgt].
  - destruct (Z.compare_spec (a mod 10) (b mod 10)) as [Heq'|Hlt'|Hgt'].
    + destruct H as [H|[_ H]]; [|exact H]. exfalso. Z.div_mod_to_equations. lia.
    + reflexivity.
    + exfalso. Z.div_mod_to_equations. lia.
  - reflexivity.
  - exfalso. Z.div_mod_to_equations. lia.
Qed.

Lemma four_digits_lt a b r1 r2 :
  0 <= a < 10000 -> 0 <= b < 10000 ->
  a < b \/ a = b /\ String.compare r1 r2 = Lt ->
  String.compare (four_digits a +:+ r1) (four_digits b +:+ r2) = Lt.
Proof.
  intros Ha Hb H. unfold four_digits. rewrite !string_app_assoc.
  apply two_digits_lt.
  destruct (Z.lt_trichotomy ((a / 100) mod 100) ((b / 100) mod 100)) as [Hlt|[Heq|Hgt]];
    [now left | right; split; [exact Heq|] | exfalso; Z.div_mod_to_equations; lia].
  apply two_digits_lt.
  destruct (Z.lt_trichotomy (a mod 100) (b mod 100)) as [Hlt|[Heq'|Hgt]];
    [now left | right; split; [exact Heq'|] | exfalso; Z.div_mod_to_equations; lia].
  destruct H as [H|[_ H]]; [|exact H]. exfalso. Z.div_mod_to_equations. lia.
Qed.

Lemma six_digits_lt a b r1 r2 :
  0 <= a < 1000000 -> 0 <= b < 1000000 ->
  a < b \/ a = b /\ String.compare r1 r2 = Lt ->
  String.compare (six_digits a +:+ r1) (six_digits b +:+ r2) = Lt.
Proof.
  intros Ha Hb H. unfold six_digits, four_digits. rewrite !string_app_assoc.
  apply two_digits_lt.
  destruct (Z.lt_trichotomy ((a / 10000) mod 100) ((b / 10000) mod 100)) as [Hlt|[Heq|Hgt]];
    [now left | right; split; [exact Heq|] | exfalso; Z.div_mod_to_equations; lia].
  apply two_digits_lt.
  destruct (Z.lt_trichotomy ((a / 100) mod 100) ((b / 100) mod 100)) as [Hlt|[Heq'|Hgt]];
    [now left | right; split; [exact Heq'|] | exfalso; Z.div_mod_to_equations; lia].
  apply two_digits_lt.
  destruct (Z.lt_trichotomy (a mod 100) (b mod 100)) as [Hlt|[Heq''|Hgt]];
    [now left | right; split; [exact Heq''|] | exfalso; Z.div_mod_to_equations; lia].
  destruct H as [H|[_ H]]; [|exact H]. exfalso. Z.div_mod_to_equations. lia.
Qed.

Lemma separator_lt (sep r1 r2 : string) :
  String.compare r1 r2 = Lt -> String.compare (sep +:+ r1) (sep +:+ r2) = Lt.
Proof. now rewrite string_compare_prefix. Qed.

(** The calendar: months and days in range, and dates in the order of
    their days. *)
Lemma civil_ranges a :
  0 <= a -> 1 <= fst (month_day a) <= 12 /\ 1 <= snd (month_day a) <= 31.
Proof.
  intros Ha. unfold month_day; cbv zeta; cbn [fst snd].
  set (doe := (a + 306) mod 146097).
  set (yoe := (doe - doe / 1460 + doe / 36524 - doe / 146096) / 365).
  set (doy := doe - (365 * yoe + yoe / 4 - yoe / 100)).
  set (mp := (5 * doy + 2) / 153).
  assert (Hdoe : 0 <= doe < 146097) by (subst doe; apply Z.mod_pos_bound; lia).
  assert (Hdoy : 0 <= doy <= 365)
    by (subst doy yoe; clearbody doe; Z.div_mod_to_equations; lia).
  assert (Hmp : 0 <= mp <= 11) by (subst mp; clearbody doy; Z.div_mod_to_equations; lia).
  destruct (Z.ltb_spec mp 10); subst mp; clearbody doy; Z.div_mod_to_equations; lia.
Qed.

Lemma civil_order a b :
  0 <= a < b ->
  year_of_days a < year_of_days b \/
  year_of_days a = year_of_days b /\
  (fst (month_day a) < fst (month_day b) \/
   fst (month_day a) = fst (month_day b) /\ snd (month_day a) < snd (month_day b)).
Proof.
  intros Hab. unfold month_day, year_of_days; cbv zeta; cbn [fst snd].
  set (era1 := (a + 306) / 146097). set (era2 := (b + 306) / 146097).
  set (doe1 := (a + 306) mod 146097). set (doe2 := (b + 306) mod 146097).
  set (yoe1 := (doe1 - doe1 / 1460 + doe1 / 36524 - doe1 / 146096) / 365).
  set (yoe2 := (doe2 - doe2 / 1460 + doe2 / 36524 - doe2 / 146096) / 365).
  set (doy1 := doe1 - (365 * yoe1 + yoe1 / 4 - yoe1 / 100)).
  set (doy2 := doe2 - (365 * yoe2 + yoe2 / 4 - yoe2 / 100)).
  set (mp1 := (5 * doy1 + 2) / 153). set (mp2 := (5 * doy2 + 2) / 153).
  assert (Hdoe1 : 0 <= doe1 < 146097) by (subst doe1; apply Z.mod_pos_bound; lia).
  assert (Hdoe2 : 0 <= doe2 < 146097) by (subst doe2; apply Z.mod_pos_bound; lia).
  assert (Hera : era1 < era2 \/ era1 = era2 /\ doe1 < doe2)
    by (subst era1 era2 doe1 doe2; Z.div_mod_to_equations; lia).
  assert (Hdoy1 : 0 <= doy1 <= 365)
    by (subst doy1 yoe1; clearbody doe1; Z.div_mod_to_equations; lia).
  assert (Hdoy2 : 0 <= doy2 <= 365)
    by (subst doy2 yoe2; clearbody doe2; Z.div_mod_to_equations; lia).
  assert (Hyoe1 : 0 <= yoe1 <= 399)
    by (subst yoe1; clearbody doe1; Z.div_mod_to_equations; lia).
  assert (Hyoe2 : 0 <= yoe2 <= 399)
    by (subst yoe2; clearbody doe2; Z.div_mod_to_equations; lia).
  assert (Hyear : era1 = era2 -> doe1 < doe2 -> yoe1 < yoe2 \/ yoe1 = yoe2 /\ doy1 < doy2).
  { intros _ Hlt. subst doy1 doy2 yoe1 yoe2. clearbody doe1 doe2. clear - Hlt Hdoe1 Hdoe2.
    Z.div_mod_to_equations. lia. }
  assert (Hmonth : doy1 < doy2 ->
            mp1 < mp2 \/ mp1 = mp2 /\
            doy1 - (153 * mp1 + 2) / 5 + 1 < doy2 - (153 * mp2 + 2) / 5 + 1).
  { intros Hlt. subst mp1 mp2. clearbody doy1 doy2. clear - Hlt Hdoy1 Hdoy2.
    Z.div_mod_to_equations. lia. }
  assert (Hmp1 : 0 <= mp1 <= 11)
    by (subst mp1; clearbody doy1; Z.div_mod_to_equations; lia).
  assert (Hmp2 : 0 <= mp2 <= 11)
    by (subst mp2; clearbody doy2; Z.div_mod_to_equations; lia).
  clearbody mp1 mp2 doy1 doy2 yoe1 yoe2 era1 era2 doe1 doe2.
  destruct (Z.ltb_spec mp1 10), (Z.ltb_spec mp2 10); lia.
Qed.

Lemma year_range a : 0 <= a < 3652059 -> 1 <= year_of_days a <= 9999.
Proof.
  intros Ha. split.
  - destruct (Z.eq_dec a 0) as [->|Hne]; [vm_compute; discriminate|].
    pose proof (civil_order 0 a ltac:(lia)) as H.
    change (year_of_days 0) with 1 in H. lia.
  - destruct (Z.eq_dec a 3652058) as [->|Hne]; [vm_compute; discriminate|].
    pose proof (civil_order a 3652058 ltac:(lia)) as H.
    change (year_of_days 3652058) with 9999 in H. lia.
Qed.

Lemma iso_date_lt a b r1 r2 :
  0 <= a < b -> b < 3652059 ->
  String.compare
    (four_digits (year_of_days a) +:+ "-" +:+ two_digits (fst (month_day a)) +:+ "-"
       +:+ two_digits (snd (month_day a)) +:+ r1)
    (four_digits (year_of_days b) +:+ "-" +:+ two_digits (fst (month_day b)) +:+ "-"
       +:+ two_digits (snd (month_day b)) +:+ r2) = Lt.
Proof.
  intros Hab Hb.
  pose proof (civil_order a b Hab) as Hord.
  pose proof (year_range a ltac:(lia)) as Hya. pose proof (year_range b ltac:(lia)) as Hyb.
  pose proof (civil_ranges a ltac:(lia)) as [Hma Hda].
  pose proof (civil_ranges b ltac:(lia)) as [Hmb Hdb].
  apply four_digits_lt; [lia | lia |].
  destruct Hord as [Hlt|[Hy Hord]]; [now left | right; split; [exact Hy|]].
  apply separator_lt, two_digits_lt.
  rewrite !Z.mod_small by lia.
  destruct Hord as [Hlt|[Hm Hd]]; [now left | right; split; [exact Hm|]].
  apply separator_lt, two_digits_lt.
  rewrite !Z.mod_small by lia. now left.
Qed.

Lemma iso_time_lt s1 s2 r1 r2 :
  0 <= s1 < s2 -> s2 < 86400 ->
  String.compare
    (two_digits (s1 / 3600) +:+ ":" +:+ two_digits (s1 / 60 mod 60) +:+ ":"
       +:+ two_digits (s1 mod 60) +:+ r1)
    (two_digits (s2 / 3600) +:+ ":" +:+ two_digits (s2 / 60 mod 60) +:+ ":"
       +:+ two_digits (s2 mod 60) +:+ r2) = Lt.
Proof.
  intros H1 H2.
  apply two_digits_lt.
  destruct (Z.lt_trichotomy ((s1 / 3600) mod 100) ((s2 / 3600) mod 100)) as [Hlt|[Heq|Hgt]];
    [now left | right; split; [exact Heq|] | exfalso; Z.div_mod_to_equations; lia].
  apply separator_lt, two_digits_lt.
  destruct (Z.lt_trichotomy ((s1 / 60 mod 60) mod 100) ((s2 / 60 mod 60) mod 100))
    as [Hlt|[Heq'|Hgt]];
    [now left | right; split; [exact Heq'|] | exfalso; Z.div_mod_to_equations; lia].
  apply separator_lt, two_digits_lt.
  left. Z.div_mod_to_equations. lia.
Qed.

Lemma iso_fraction_lt u1 u2 off :
  0 <= u1 < u2 -> u2 < 1000000 ->
  String.compare
    ((if u1 =? 0 then "" else "." +:+ six_digits u1) +:+ format_offset off)
    ((if u2 =? 0 then "" else "." +:+ six_digits u2) +:+ format_offset off) = Lt.
Proof.
  intros H1 H2.
  destruct (Z.eqb_spec u2 0) as [|_]; [lia|].
  destruct (Z.eqb_spec u1 0) as [_|Hne].
  - change ("" +:+ format_offset off) with (format_offset off).
    destruct off as [z|]; [|reflexivity].
    unfold format_offset. now destruct (z <? 0).
  - rewrite !string_app_assoc. apply separator_lt, six_digits_lt; [lia | lia | now left].
Qed.

(** Of two dates with the same UTC offset, the later has the greater
    ISO text. *)
Lemma isoformat_lt a b :
  utcoffset a = utcoffset b ->
  0 <= local_us a < local_us b -> local_us b < max_us ->
  String.compare (isoformat a) (isoformat b) = Lt.
Proof.
  intros Hoff Hab Hb. unfold isoformat. cbv zeta. rewrite Hoff.
  rewrite (surjective_pairing (month_day (local_us a / us_per_day))).
  rewrite (surjective_pairing (month_day (local_us b / us_per_day))).
  unfold max_us, us_per_day in *.
  set (la := local_us a) in *. set (lb := local_us b) in *. clearbody la lb.
  cbv beta iota.
  destruct (Z.lt_trichotomy (la / 86400000000) (lb / 86400000000)) as [Hlt|[Heq|Hgt]];
    [| |exfalso; Z.div_mod_to_equations; lia].
  - apply iso_date_lt; Z.div_mod_to_equations; lia.
  - rewrite Heq. rewrite !(string_compare_prefix (four_digits _)).
    rewrite !(string_compare_prefix "-"), !(string_compare_prefix (two_digits _)).
    rewrite !(string_compare_prefix "-"), !(string_compare_prefix (two_digits _)).
    apply separator_lt.
    destruct (Z.lt_trichotomy (la mod 86400000000 / 1000000) (lb mod 86400000000 / 1000000))
      as [Hlt|[Heq'|Hgt]]; [| |exfalso; Z.div_mod_to_equations; lia].
    + apply iso_time_lt; Z.div_mod_to_equations; lia.
    + rewrite Heq'. rewrite !(string_compare_prefix (two_digits _)).
      rewrite !(string_compare_prefix ":"), !(string_compare_prefix (two_digits _)).
      rewrite !(string_compare_prefix ":"), !(string_compare_prefix (two_digits _)).
      apply iso_fraction_lt; Z.div_mod_to_equations; lia.
Qed.

(** X18. The listing is newest first: of two listed trips whose starts
    carry the same UTC offset (or none), the one listed first starts no
    earlier than the other.  The order is that of the stored texts, so
    that it says nothing of starts with different offsets. *)
Theorem list_trips_newest_first (s : db) (i j : nat) (a b : ListedTrip.t) :
  (i < j)%nat ->
  list_trips s !! i = Some a -> list_trips s !! j = Some b ->
  utcoffset (Trip.data_inicio (ListedTrip.trip a))
    = utcoffset (Trip.data_inicio (ListedTrip.trip b)) ->
  in_range (local_us (Trip.data_inicio (ListedTrip.trip a))) = true ->
  in_range (local_us (Trip.data_inicio (ListedTrip.trip b))) = true ->
  local_us (Trip.data_inicio (ListedTrip.trip b))
    <= local_us (Trip.data_inicio (ListedTrip.trip a)).
Proof.
  intros Hij Ha Hb Hoff Hra Hrb.
  pose proof (list_trips_descending s i j a b Hij Ha Hb) as Hle.
  unfold in_range in Hra, Hrb.
  apply andb_prop in Hra as [Hra1 Hra2]. apply andb_prop in Hrb as [Hrb1 Hrb2].
  apply Z.leb_le in Hra1, Hrb1. apply Z.ltb_lt in Hra2, Hrb2.
  destruct (Z_le_gt_dec (local_us (Trip.data_inicio (ListedTrip.trip b)))
              (local_us (Trip.data_inicio (ListedTrip.trip a)))) as [|Hgt]; [assumption|].
  exfalso. unfold String.leb, trip_key in Hle.
  rewrite String.compare_antisym, (isoformat_lt _ _ Hoff) in Hle; [discriminate | lia | lia].
Qed.

Lemma list_trips_newest_first_witness :
  match sample_listing !! 0%nat, sample_listing !! 1%nat with
  | Some a, Some b =>
      Trip.id (ListedTrip.trip a) = "4e5f6a7b" /\ Trip.id (ListedTrip.trip b) = "0a1b2c3d" /\
      local_us (Trip.data_inicio (ListedTrip.trip b))
        <= local_us (Trip.data_inicio (ListedTrip.trip a))
  | _, _ => False
  end.
Proof.
  destruct (sample_listing !! 0%nat) as [a|] eqn:Ha; [|vm_compute in Ha; discriminate Ha].
  destruct (sample_listing !! 1%nat) as [b|] eqn:Hb; [|vm_compute in Hb; discriminate Hb].
  assert (Hta : ListedTrip.trip a
                = trip_data (sample_request "vuc-01" "mot-02" (of_date 2024 5 3 8 0) 100)
                    "4e5f6a7b" (of_date 2024 5 4 8 0) 1)
    by (vm_compute in Ha; injection Ha as <-; reflexivity).
  assert (Htb : ListedTrip.trip b
                = trip_data (sample_request "vuc-01" "mot-01" (of_date 2024 5 1 8 0) 900)
                    "0a1b2c3d" (of_date 2024 5 3 8 0) 2)
    by (vm_compute in Hb; injection Hb as <-; reflexivity).
  split; [now rewrite Hta|]. split; [now rewrite Htb|].
  apply (list_trips_newest_first (run_calls initial_db sample_calls) 0 1 a b);
    [lia | exact Ha | exact Hb | | |]; rewrite ?Hta, ?Htb; reflexivity.
Defined.

(** ** Quotes and the catalog *)

Lemma compute_quote_set_status st settings payload vehicle_data distancia_km tempo_horas
    geometry c_origem c_destino :
  compute_quote settings payload (Truck.set_status st vehicle_data) distancia_km tempo_horas
    geometry c_origem c_destino
  = (r ← compute_quote settings payload vehicle_data distancia_km tempo_horas
           geometry c_origem c_destino;
     Ok (with_vehicle_status st r)).
Proof.
  unfold compute_quote.
  assert (Hcosts : quote_costs settings payload (Truck.set_status st vehicle_data)
                     distancia_km tempo_horas
                   = quote_costs settings payload vehicle_data distancia_km tempo_horas)
    by reflexivity.
  rewrite Hcosts.
  destruct (quote_costs settings payload vehicle_data distancia_km tempo_horas) as [c|e];
    [|reflexivity]. cbn.
  destruct (PyNum.int_sub 1 (Settings.MARGEM_LUCRO settings)) as [divisor|e]; [|reflexivity].
  cbn. destruct (PyNum.truediv (Costs.custo_total c) divisor) as [preco_venda|e];
    reflexivity.
Qed.

Section QuoteCatalog.

Variable geocode : string -> result (option coords).
Variable get_road_route : coords -> coords -> option RouteData.t.
Variable great_circle_km : coords -> coords -> float.
Variable exc_str : exc -> string.
Variables (settings : Settings.t) (payload : RouteRequest.t).

Local Abbreviation quote :=
  (calculate_quote geocode get_road_route great_circle_km exc_str settings payload).

Lemma calculate_quote_same_vehicle s s' :
  db_trucks s' !! RouteRequest.veiculo_id payload
    = db_trucks s !! RouteRequest.veiculo_id payload ->
  quote s' = quote s.
Proof. unfold calculate_quote. now intros ->. Qed.

Lemma calculate_quote_set_status st v s s' :
  db_trucks s !! RouteRequest.veiculo_id payload = Some v ->
  db_trucks s' !! RouteRequest.veiculo_id payload = Some (Truck.set_status st v) ->
  quote s' = (r ← quote s; Ok (with_vehicle_status st r)).
Proof.
  unfold calculate_quote. intros -> ->.
  destruct (reraise_500 exc_str _) as [[c_origem c_destino]|e]; [|reflexivity]. cbn.
  destruct (get_road_route c_origem c_destino) as [route_data|]; cbn.
  - apply compute_quote_set_status.
  - destruct (PyNum.truediv_int _ 70) as [tempo_horas|e]; [|reflexivity]. cbn.
    apply compute_quote_set_status.
Qed.

(** X19. Quotes do not look at bookings: after a booking the quote of
    any request is the one given before, but for the status "Agendado"
    that the vehicle of a stored booking now shows in [veiculo_info]; a
    booked vehicle is quoted as before, at the same price. *)
Theorem quote_after_booking (trip : TripCreate.t) (new_id : string) (s : db) :
  quote (snd (book_trip trip new_id s)) =
    if decide (is_raise (fst (book_trip trip new_id s)) = false /\
               RouteRequest.veiculo_id payload = TripCreate.veiculo_id trip)
    then r ← quote s; Ok (with_vehicle_status "Agendado" r)
    else quote s.
Proof.
  destruct (book_trip_outcome trip new_id s); cbn [fst snd is_raise];
    try (rewrite decide_False by (intros [[=] _]); reflexivity).
  destruct (decide (RouteRequest.veiculo_id payload = TripCreate.veiculo_id trip)) as [Heq|Hne].
  - rewrite decide_True by (split; [reflexivity | assumption]).
    destruct (db_trucks s !! TripCreate.veiculo_id trip) as [v|] eqn:Hv.
    + apply (calculate_quote_set_status "Agendado" v); rewrite Heq; [assumption|].
      rewrite booked_trucks, Hv. apply lookup_insert_eq.
    + assert (Hnone : quote s = Raise (HTTPException 400 "Veículo não encontrado."))
        by (unfold calculate_quote; now rewrite Heq, Hv).
      rewrite Hnone. cbn. rewrite <- Hnone. apply calculate_quote_same_vehicle.
      now rewrite booked_trucks, Hv.
  - rewrite decide_False by (intros [_ ?]; contradiction).
    apply calculate_quote_same_vehicle. rewrite booked_trucks.
    destruct (db_trucks s !! TripCreate.veiculo_id trip); [|reflexivity].
    apply lookup_insert_ne. congruence.
Qed.

(** X20. Failures of the geocoding: whatever the lookup of the origin or
    of the destination raises leaves the endpoint as a 500 whose detail is
    the text of that exception, the 404 of a place not found included; a
    failure on the origin is reported without a lookup of the
    destination. *)
Theorem geocoding_failures_are_500 (s : db) (vehicle_data : Truck.t) :
  db_trucks s !! RouteRequest.veiculo_id payload = Some vehicle_data ->
  (forall e, geocode (RouteRequest.origem payload) = Raise e ->
     quote s = Raise (HTTPException 500 (exc_str e))) /\
  (geocode (RouteRequest.origem payload) = Ok None ->
     quote s = Raise (HTTPException 500 (exc_str
       (HTTPException 404 ("Localização não encontrada: " +:+ RouteRequest.origem payload))))) /\
  (forall c_origem e,
     geocode (RouteRequest.origem payload) = Ok (Some c_origem) ->
     geocode (RouteRequest.destino payload) = Raise e ->
     quote s = Raise (HTTPException 500 (exc_str e))) /\
  (forall c_origem,
     geocode (RouteRequest.origem payload) = Ok (Some c_origem) ->
     geocode (RouteRequest.destino payload) = Ok None ->
     quote s = Raise (HTTPException 500 (exc_str
       (HTTPException 404 ("Localização não encontrada: " +:+ RouteRequest.destino payload))))).
Proof.
  intros Hv. unfold calculate_quote, get_coords. rewrite Hv. repeat split.
  - now intros e ->.
  - now intros ->.
  - now intros c_origem e -> ->.
  - now intros c_origem -> ->.
Qed.

End QuoteCatalog.

Lemma geocoding_failures_are_500_witness :
  calculate_quote geocoder_down router_down sample_great_circle geocoder_text
    Settings.default (sample_quote_request false None None) initial_db
  = Raise (HTTPException 500 "Service timed out").
Proof.
  exact (proj1 (geocoding_failures_are_500 geocoder_down router_down sample_great_circle
                  geocoder_text Settings.default (sample_quote_request false None None)
                  initial_db sample_truck eq_refl)
           (GeocoderError "Service timed out") eq_refl).
Defined.

(** X21. No guard on the figures of a vehicle: with a consumption of
    zero the quote raises [ZeroDivisionError] once its days are computed,
    and so does the count of stops for a tank of zero whenever fuel is
    needed. *)
Theorem quote_zero_consumption (settings : Settings.t) (payload : RouteRequest.t)
    (vehicle_data : Truck.t) (distancia_km tempo_horas : float)
    (geometry : option (list (list float))) (c_origem c_destino : coords) (q : Q) :
  PrimFloat.eqb (Truck.consumo vehicle_data) 0 = true ->
  PyNum.float_value (doubled (RouteRequest.ida_e_volta payload) tempo_horas) = Some q ->
  compute_quote settings payload vehicle_data distancia_km tempo_horas
    geometry c_origem c_destino = Raise ZeroDivisionError /\
  (forall litros_total,
     refuel_stops litros_total 0
       = if PyNum.gt_int litros_total 0 then Raise ZeroDivisionError else Ok 0).
Proof.
  intros Hzero Hq. split.
  - assert (Hdays : trip_days (doubled (RouteRequest.ida_e_volta payload) tempo_horas)
                    = Ok (Z.max 1 (Qceiling (q / 8))))
      by (apply trip_days_iff; exists q; now split).
    unfold compute_quote, quote_costs.
    assert (Hdouble :
      (if RouteRequest.ida_e_volta payload
       then d ← PyNum.mul_int distancia_km 2; h ← PyNum.mul_int tempo_horas 2; Ok (d, h)
       else Ok (distancia_km, tempo_horas))
      = Ok (doubled (RouteRequest.ida_e_volta payload) distancia_km,
            doubled (RouteRequest.ida_e_volta payload) tempo_horas))
      by (unfold doubled; destruct (RouteRequest.ida_e_volta payload); reflexivity).
    rewrite Hdouble. cbn -[trip_days refuel_stops doubled]. rewrite Hdays.
    cbn -[refuel_stops doubled]. unfold PyNum.truediv. rewrite Hzero. reflexivity.
  - intros litros_total. unfold refuel_stops.
    destruct (PyNum.gt_int litros_total 0); reflexivity.
Qed.

Lemma quote_zero_consumption_witness :
  db_trucks (snd (create_truck zero_consumption_truck "5a6b7c8d" initial_db)) !! "5a6b7c8d"
    = Some (Truck.mk "5a6b7c8d" "Guincho" 0 200 "MNO-7890" "Disponível") /\
  compute_quote Settings.default (sample_quote_request false None None)
    (Truck.mk "5a6b7c8d" "Guincho" 0 200 "MNO-7890" "Disponível")
    900 12 None sample_origin sample_destination = Raise ZeroDivisionError.
Proof.
  split; [vm_compute; reflexivity|].
  exact (proj1 (quote_zero_consumption Settings.default (sample_quote_request false None None)
                  (Truck.mk "5a6b7c8d" "Guincho" 0 200 "MNO-7890" "Disponível")
                  900 12 None sample_origin sample_destination _ eq_refl eq_refl)).
Defined.

(** ** Sample runs *)

(** Two overlapping requests for the same driver: the second is refused;
    with another vehicle and another driver it is accepted. *)
Example same_driver_conflicts :
  fst (book_trip (sample_request "carreta-01" "mot-01" (of_date 2024 5 2 8 0) 900)
         "5566eeff" booked_once)
    = Raise (HTTPException 409
               "Conflito: Motorista já reservado de 01/05 08:00 até 03/05 08:00") /\
  is_raise (fst (book_trip (sample_request "carreta-01" "mot-02" (of_date 2024 5 2 8 0) 900)
                   "5566eeff" booked_once)) = false.
Proof. split; vm_compute; reflexivity. Qed.

(** Statuses after the first sample booking. *)
Example booked_once_statuses :
  Truck.status <$> db_trucks booked_once !! "vuc-01" = Some "Agendado" /\
  Driver.status <$> db_drivers booked_once !! "mot-01" = Some "Agendado" /\
  Truck.status <$> db_trucks booked_once !! "carreta-01" = Some "Disponível" /\
  length (db_trips booked_once) = 1%nat.
Proof. repeat split; vm_compute; reflexivity. Qed.

(** The quote of the specification's scenario: 900 km in 12 hours with
    the urban truck and the default settings. *)
Example sample_quote :
  exists r,
    compute_quote Settings.default (sample_quote_request false None None) sample_truck
      900 12 None sample_origin sample_destination = Ok r /\
    RouteResponse.dias_viagem_estimados r = 2 /\
    FinancialBreakdown.litros_combustivel (RouteResponse.detalhes_financeiros r) = 150%float /\
    FinancialBreakdown.paradas_abastecimento (RouteResponse.detalhes_financeiros r) = 0 /\
    FinancialBreakdown.custo_combustivel (RouteResponse.detalhes_financeiros r) = 1033.5%float /\
    FinancialBreakdown.custo_motorista_salario (RouteResponse.detalhes_financeiros r)
      = 227.27%float /\
    FinancialBreakdown.custo_motorista_diarias (RouteResponse.detalhes_financeiros r)
      = 300%float /\
    FinancialBreakdown.custo_operacional_total (RouteResponse.detalhes_financeiros r)
      = 1560.77%float.
Proof. eexists. split; [vm_compute; reflexivity|]. repeat split; reflexivity. Qed.

(** The endpoint with the router down: the distance is the great circle
    times 1.2 and the duration assumes 70 km/h. *)
Example sample_calculate_quote :
  exists r,
    calculate_quote sample_geocode router_down sample_great_circle no_text Settings.default
      (sample_quote_request true None None) initial_db = Ok r /\
    RouteResponse.distancia_km r = 816%float /\
    RouteResponse.tempo_estimado_horas r = 11.7%float /\
    RouteResponse.dias_viagem_estimados r = 2 /\
    RouteResponse.route_geometry r = None.
Proof. eexists. split; [vm_compute; reflexivity|]. repeat split; reflexivity. Qed.

(** The listing orders the stored texts of the starts: a trip that starts
    at 09:00 at UTC+5, four hours before another that starts at 08:00 UTC,
    is listed first. *)
Example listing_orders_local_texts :
  let s := run_calls initial_db
             [ BookTrip (sample_request "vuc-01" "mot-01"
                           (with_utcoffset (of_date 2024 5 1 8 0) 0) 100) "0a1b2c3d";
               BookTrip (sample_request "carreta-01" "mot-02"
                           (with_utcoffset (of_date 2024 5 1 9 0) 300) 100) "4e5f6a7b" ] in
  (Trip.id ∘ ListedTrip.trip) <$> list_trips s = ["4e5f6a7b"; "0a1b2c3d"] /\
  (instant ∘ Trip.data_inicio ∘ ListedTrip.trip) <$> list_trips s
    = [instant (of_date 2024 5 1 4 0); instant (of_date 2024 5 1 8 0)].
Proof. split; vm_compute; reflexivity. Qed.
